(** * gpt-researcher: markdown post-processing, the writer stage and the
      report routes

    A shallow embedding of
    - [gpt_researcher/actions/markdown_processing.py],
    - [multi_agents/agents/writer.py] (class [WriterAgent]),
    - [backend/server/server.py] (routes [read_report], [generate_report]),
    and the properties the design document states about them. *)

From stdpp Require Import base list numbers strings gmap pretty.

Local Open Scope list_scope.

(** ** Python strings

    A Python [str] is a sequence of Unicode code points. *)

Abbreviation char := N (only parsing).
Abbreviation str := (list N) (only parsing).

(** A literal of the source, written with its ASCII characters. *)
Definition lit (s : string) : str :=
  map (fun a => Ascii.N_of_ascii a) (String.list_ascii_of_string s).
Arguments lit : simpl never.

Definition nl : char := 10%N.

Definition str_eqb (a b : str) : bool := bool_decide (a = b).

(** [s.startswith(p)] *)
Fixpoint startswith (p s : str) : bool :=
  match p, s with
  | [], _ => true
  | _ :: _, [] => false
  | a :: p', b :: s' => (a =? b)%N && startswith p' s'
  end.

(** [s.index(c)]: position of the first occurrence, [None] for the
    [ValueError] Python raises when there is none. *)
Fixpoint index (c : char) (s : str) : option nat :=
  match s with
  | [] => None
  | a :: s' => if (a =? c)%N then Some 0%nat else S <$> index c s'
  end.

(** [s.rindex(c)]: position of the last occurrence. *)
Fixpoint rindex (c : char) (s : str) : option nat :=
  match s with
  | [] => None
  | a :: s' =>
      match rindex c s' with
      | Some i => Some (S i)
      | None => if (a =? c)%N then Some 0%nat else None
      end
  end.

(** [s[a:b]] for non-negative bounds: empty when [b <= a]. *)
Definition slice (a b : nat) (s : str) : str := take (b - a) (drop a s).

(** [s.split(sep)] for a one-character separator. *)
Fixpoint split (sep : char) (s : str) : list str :=
  match s with
  | [] => [[]]
  | a :: s' =>
      if (a =? sep)%N then [] :: split sep s'
      else match split sep s' with
           | [] => [[a]]
           | w :: ws => (a :: w) :: ws
           end
  end.

(** [str.isspace] on one character: the white space table of CPython
    ([_PyUnicode_IsWhitespace]). *)
Definition isspace (c : char) : bool :=
  ((9 <=? c) && (c <=? 13) || (28 <=? c) && (c <=? 32) || (c =? 133)
   || (c =? 160) || (c =? 5760) || (8192 <=? c) && (c <=? 8202)
   || (c =? 8232) || (c =? 8233) || (c =? 8239) || (c =? 8287)
   || (c =? 12288))%N.

Fixpoint lstrip (s : str) : str :=
  match s with
  | [] => []
  | a :: s' => if isspace a then lstrip s' else s
  end.

(** [s.strip()] *)
Definition strip (s : str) : str := rev (lstrip (rev (lstrip s))).

(** ** What the code takes from outside the repository

    [markdown.markdown] is the Python-Markdown renderer; [isdigit] is
    [str.isdigit] on one character and [decimal] the value of a character
    of category Nd ([int(c)] succeeds exactly on those, and the regular
    expression class [\d] matches exactly those). *)

Class Platform := {
  markdown : str -> str;
  isdigit : char -> bool;
  decimal : char -> option Z;
}.

(** The two tables in the Unicode database of CPython 3.11 (Unicode
    14.0.0). The decimal digits (category Nd) come in runs of ten, "0" to
    "9"; [decimal_runs] lists the first code point of each run. *)
Definition decimal_runs : list N :=
  [48; 1632; 1776; 1984; 2406; 2534; 2662; 2790; 2918; 3046; 3174; 3302;
   3430; 3558; 3664; 3792; 3872; 4160; 4240; 6112; 6160; 6470; 6608; 6784;
   6800; 6992; 7088; 7232; 7248; 42528; 43216; 43264; 43472; 43504; 43600;
   44016; 65296; 66720; 68912; 69734; 69872; 69942; 70096; 70384; 70736;
   70864; 71248; 71360; 71472; 71904; 72016; 72784; 73040; 73120; 92768;
   92864; 93008; 120782; 120792; 120802; 120812; 120822; 123200; 123632;
   125264; 130032]%N.

(** The characters that [str.isdigit] accepts and that are no decimal
    digits (numeric type Digit: superscripts, subscripts, circled
    digits, ...), as ranges with both ends included. *)
Definition digit_ranges : list (N * N) :=
  [(178, 179); (185, 185); (4969, 4977); (6618, 6618); (8304, 8304);
   (8308, 8313); (8320, 8329); (9312, 9320); (9332, 9340); (9352, 9360);
   (9450, 9450); (9461, 9469); (9471, 9471); (10102, 10110);
   (10112, 10120); (10122, 10130); (68160, 68163); (69216, 69224);
   (69714, 69722); (127232, 127242)]%N.

(** [int(c)] for one character. *)
Definition unicode_decimal (c : char) : option Z :=
  (fun first => Z.of_N (c - first))
  <$> List.find (fun first => (first <=? c) && (c <? first + 10))%N decimal_runs.

(** [c.isdigit()] *)
Definition unicode_isdigit (c : char) : bool :=
  bool_decide (is_Some (unicode_decimal c))
  || existsb (fun r => (fst r <=? c) && (c <=? snd r))%N digit_ranges.

(** ** [contains_chinese] and [add_references] *)

(** [re.search(r'[\u4e00-\u9fff]', text)]: one code point of the CJK
    Unified Ideographs block, U+4E00 to U+9FFF. *)
Definition is_cjk_char (c : char) : bool := ((19968 <=? c) && (c <=? 40959))%N.

Definition contains_chinese (text : str) : bool := existsb is_cjk_char text.

(** "## " followed by U+53C2 U+8003 U+8D44 U+6599 *)
Definition references_title_cjk : str :=
  lit "## " ++ [21442; 32771; 36164; 26009]%N.
Definition references_title_en : str := lit "## References".

(** "## " followed by U+76EE U+5F55 and two line feeds *)
Definition toc_title_cjk : str := lit "## " ++ [30446; 24405]%N ++ [nl; nl].
Definition toc_title_en : str := lit "## Table of Contents" ++ [nl; nl].

Definition bullet (url : str) : str :=
  lit "- [" ++ url ++ lit "](" ++ url ++ lit ")" ++ [nl].

(** [visited_urls] is given as the sequence its iteration yields. *)
Definition add_references (report_markdown : str) (visited_urls : list str)
    (is_chinese : bool) : str :=
  let references_title :=
    if is_chinese then references_title_cjk else references_title_en in
  let url_markdown := [nl; nl; nl] ++ references_title ++ [nl; nl] in
  let url_markdown := url_markdown ++ concat (map bullet visited_urls) in
  report_markdown ++ url_markdown.

(** ** [extract_headers]

    The header dictionaries are shared between the result list, the
    [children] lists and the stack, and are mutated through the stack.
    The heap holds them; a reference is the index of its dictionary. *)

Record dict := Dict {
  d_level : Z;
  d_text : str;
  d_children : option (list nat);   (* the key "children", when present *)
}.

Abbreviation heap := (list dict) (only parsing).

(** The value a header dictionary denotes once the references are
    followed. *)
#[local] Unset Elimination Schemes.
Inductive HeaderNode :=
  Node (level : Z) (text : str) (children : option (list HeaderNode)).
#[local] Set Elimination Schemes.

(** Induction on a header, with the hypothesis for each of its
    children. *)
Fixpoint HeaderNode_forest_ind (P : HeaderNode -> Prop)
    (Hleaf : forall l t, P (Node l t None))
    (Hnode : forall l t kids, Forall P kids -> P (Node l t (Some kids)))
    (n : HeaderNode) {struct n} : P n :=
  match n with
  | Node l t None => Hleaf l t
  | Node l t (Some kids) =>
      Hnode l t kids
        ((fix go (f : list HeaderNode) : Forall P f :=
            match f with
            | [] => @List.Forall_nil _ P
            | k :: rest =>
                @List.Forall_cons _ P k rest
                  (HeaderNode_forest_ind P Hleaf Hnode k) (go rest)
            end) kids)
  end.

Definition level_of (n : HeaderNode) : Z := let (l, _, _) := n in l.
Definition text_of (n : HeaderNode) : str := let (_, t, _) := n in t.
Definition children_of (n : HeaderNode) : list HeaderNode :=
  let (_, _, c) := n in default [] c.

(** One line of the rendered document. *)
Inductive scanned :=
  | NotHeader
  | Header (level : Z) (header_text : str)
  | Raises.           (* ValueError from [int], [index] or [rindex] *)

Section WithPlatform.
Context `{Platform}.

Definition scan_line (line : str) : scanned :=
  match line !! 2%nat with
  | Some c =>
      if startswith (lit "<h") line && isdigit c then
        match decimal c with
        | None => Raises
        | Some level =>
            match index 62%N line, rindex 60%N line with
            | Some i, Some j => Header level (slice (i + 1) j line)
            | _, _ => Raises
            end
        end
      else NotHeader
  | None => NotHeader
  end.

End WithPlatform.

(** [while stack and p(stack[-1]): stack.pop()]; the top of the stack is
    the last element, as in the Python list. *)
Fixpoint pop_while {A} (p : A -> bool) (stack : list A) : list A :=
  match stack with
  | [] => []
  | x :: rest =>
      match pop_while p rest with
      | [] => if p x then [] else [x]
      | rest' => x :: rest'
      end
  end.

Record state := State {
  st_heap : heap;
  st_headers : list nat;
  st_stack : list nat;
}.

(** [stack[-1]["level"] >= level] *)
Definition level_ge (h : heap) (level : Z) (ref : nat) : bool :=
  match h !! ref with
  | Some d => (level <=? d_level d)%Z
  | None => false
  end.

(** [d.setdefault("children", []).append(ref)] *)
Definition append_child (ref : nat) (d : dict) : dict :=
  Dict (d_level d) (d_text d) (Some (default [] (d_children d) ++ [ref])).

(** The body of the loop for a header line. *)
Definition push_header (level : Z) (header_text : str) (st : state) : state :=
  let stack := pop_while (level_ge (st_heap st) level) (st_stack st) in
  let ref := length (st_heap st) in
  let h := st_heap st ++ [Dict level header_text None] in
  match last stack with
  | Some top =>
      State (alter (append_child ref) top h) (st_headers st) (stack ++ [ref])
  | None =>
      State h (st_headers st ++ [ref]) (stack ++ [ref])
  end.

Section WithPlatform.
Context `{Platform}.

Definition step (st : state) (line : str) : option state :=
  match scan_line line with
  | NotHeader => Some st
  | Header level header_text => Some (push_header level header_text st)
  | Raises => None
  end.

Fixpoint run_lines (st : state) (lines : list str) : option state :=
  match lines with
  | [] => Some st
  | line :: rest =>
      match step st line with
      | Some st' => run_lines st' rest
      | None => None
      end
  end.

End WithPlatform.

(** Reading a dictionary of the heap as a value. References go to
    dictionaries allocated later, so the size of the heap is enough fuel. *)
Fixpoint reify (fuel : nat) (h : heap) (ref : nat) : option HeaderNode :=
  match fuel with
  | O => None
  | S fuel' =>
      match h !! ref with
      | None => None
      | Some d =>
          match d_children d with
          | None => Some (Node (d_level d) (d_text d) None)
          | Some refs =>
              match mapM (reify fuel' h) refs with
              | Some kids => Some (Node (d_level d) (d_text d) (Some kids))
              | None => None
              end
          end
      end
  end.

Section WithPlatform.
Context `{Platform}.

(** [extract_headers] run on a heap [h0] of objects that exist already;
    it returns the header forest and the heap it leaves. [None] is the
    exception. *)
Definition extract_headers_in (h0 : heap) (markdown_text : str)
    : option (list HeaderNode * heap) :=
  let parsed_md := markdown markdown_text in
  let lines := split nl parsed_md in
  match run_lines (State h0 [] []) lines with
  | None => None
  | Some st =>
      match mapM (reify (S (length (st_heap st))) (st_heap st)) (st_headers st) with
      | Some forest => Some (forest, st_heap st)
      | None => None
      end
  end.

Definition extract_headers (markdown_text : str) : option (list HeaderNode) :=
  fst <$> extract_headers_in [] markdown_text.

End WithPlatform.


(** ** Header forests as values

    The notions the properties are stated with, and the layout of a
    forest in the heap that the proofs relate the loop to. *)

Abbreviation item := (Z * str)%type (only parsing).

(** The header lines of a rendered document, in order; [None] when a
    line makes the scan raise. *)
Section WithPlatform.
Context `{Platform}.

Fixpoint header_items (lines : list str) : option (list item) :=
  match lines with
  | [] => Some []
  | line :: rest =>
      match scan_line line with
      | NotHeader => header_items rest
      | Header level header_text =>
          match header_items rest with
          | Some its => Some ((level, header_text) :: its)
          | None => None
          end
      | Raises => None
      end
  end.

End WithPlatform.

(** Depth-first pre-order traversal. *)
Fixpoint preorder (n : HeaderNode) : list item :=
  match n with
  | Node l t c =>
      (l, t) :: match c with
                | None => []
                | Some kids => concat (map preorder kids)
                end
  end.

Definition preorder_forest (f : list HeaderNode) : list item :=
  concat (map preorder f).

(** Every child, at every depth, has a level strictly greater than its
    parent's. *)
Fixpoint children_deeper (n : HeaderNode) : bool :=
  match n with
  | Node l _ c =>
      match c with
      | None => true
      | Some kids =>
          forallb (fun k => (l <? level_of k)%Z && children_deeper k) kids
      end
  end.

(** The levels of the headers that are open (on the stack) once the
    given header lines have been read, outermost first. *)
Definition open_levels (its : list item) : list Z :=
  foldl (fun stack it => pop_while (fun l => (fst it <=? l)%Z) stack ++ [fst it])
        [] its.

(** Number of dictionaries of a tree. *)
Fixpoint tsize (n : HeaderNode) : nat :=
  match n with
  | Node _ _ c =>
      S match c with
        | None => 0
        | Some kids => sum_list (map tsize kids)
        end
  end.

Definition fsize (f : list HeaderNode) : nat := sum_list (map tsize f).

(** References of the roots of a forest laid out from address [b]. *)
Fixpoint child_refs (b : nat) (f : list HeaderNode) : list nat :=
  match f with
  | [] => []
  | k :: rest => b :: child_refs (b + tsize k) rest
  end.

(** The dictionaries of a tree in allocation order, which is pre-order,
    the first one at address [b]. *)
Fixpoint layout_tree (b : nat) (n : HeaderNode) {struct n} : list dict :=
  match n with
  | Node l t c =>
      Dict l t (child_refs (S b) <$> c) ::
      match c with
      | None => []
      | Some kids =>
          (fix go (b : nat) (f : list HeaderNode) {struct f} : list dict :=
             match f with
             | [] => []
             | k :: rest => layout_tree b k ++ go (b + tsize k) rest
             end) (S b) kids
      end
  end.

Fixpoint layout_forest (b : nat) (f : list HeaderNode) : list dict :=
  match f with
  | [] => []
  | k :: rest => layout_tree b k ++ layout_forest (b + tsize k) rest
  end.

(** An open header: its label and the children closed so far. *)
Record frame := Frame {
  f_level : Z;
  f_text : str;
  f_closed : list HeaderNode;
}.

Definition mk_children (kids : list HeaderNode) : option (list HeaderNode) :=
  match kids with
  | [] => None
  | _ => Some kids
  end.

(** The tree under construction along the open headers, outermost
    first. *)
Fixpoint open_forest (sp : list frame) : list HeaderNode :=
  match sp with
  | [] => []
  | f :: rest =>
      [Node (f_level f) (f_text f) (mk_children (f_closed f ++ open_forest rest))]
  end.

Fixpoint frame_refs (b : nat) (sp : list frame) : list nat :=
  match sp with
  | [] => []
  | f :: rest => b :: frame_refs (S b + fsize (f_closed f)) rest
  end.

(** Closing the frames above the first [n]: the subtree they hold becomes
    a closed child of frame [n - 1]. *)
Fixpoint close_above (n : nat) (sp : list frame) : list frame :=
  match sp with
  | [] => []
  | f :: rest =>
      match n with
      | O => []
      | S O => [Frame (f_level f) (f_text f) (f_closed f ++ open_forest rest)]
      | S n' => f :: close_above n' rest
      end
  end.

(** The loop body on the forest under construction. *)
Definition z_push (level : Z) (header_text : str)
    (z : list HeaderNode * list frame) : list HeaderNode * list frame :=
  let (roots, sp) := z in
  let n := length (pop_while (fun f => (level <=? f_level f)%Z) sp) in
  match n with
  | O => (roots ++ open_forest sp, [Frame level header_text []])
  | _ => (roots, close_above n sp ++ [Frame level header_text []])
  end.

Definition z_forest (z : list HeaderNode * list frame) : list HeaderNode :=
  fst z ++ open_forest (snd z).

Definition z_run (its : list item) : list HeaderNode * list frame :=
  foldl (fun z it => z_push (fst it) (snd it) z) ([], []) its.

(** The loop state that holds the forest of [z] above the heap [h0]. *)
Definition holds (h0 : heap) (z : list HeaderNode * list frame) : state :=
  State (h0 ++ layout_forest (length h0) (z_forest z))
        (child_refs (length h0) (z_forest z))
        (frame_refs (length h0 + fsize (fst z)) (snd z)).

(** The open headers nest: levels grow strictly inwards, above [lo] when
    it is given, and every closed child is deeper than its parent. *)
Definition above (lo : option Z) (l : Z) : Prop :=
  match lo with
  | Some a => (a < l)%Z
  | None => True
  end.

Definition deeper_than (l : Z) (k : HeaderNode) : Prop :=
  (l < level_of k)%Z /\ children_deeper k = true.

Fixpoint spine_ok (lo : option Z) (sp : list frame) : Prop :=
  match sp with
  | [] => True
  | f :: rest =>
      above lo (f_level f)
      /\ Forall (deeper_than (f_level f)) (f_closed f)
      /\ spine_ok (Some (f_level f)) rest
  end.

Definition z_ok (z : list HeaderNode * list frame) : Prop :=
  Forall (fun k => children_deeper k = true) (fst z) /\ spine_ok None (snd z).

(** The header [x] is a root of the forest, after the trees of the
    header lines [pre]. *)
Definition root_after (pre : list item) (x : item) (f : list HeaderNode) : Prop :=
  exists f1 t f2,
    f = f1 ++ t :: f2 /\ preorder_forest f1 = pre
    /\ level_of t = fst x /\ text_of t = snd x.

(** The renderer on documents of raw HTML. Python-Markdown returns a
    document in which every line belongs to a block of raw HTML (a
    block-level element or a comment that starts on a line of its own,
    with its start tag on that line, and no blank line in the document)
    as it is, without the white space around it. The examples given with
    [raw_html] are such documents. *)
Definition raw_html : Platform :=
  {| markdown := strip; isdigit := unicode_isdigit; decimal := unicode_decimal |}.

Definition lines_lit (ls : list string) : str :=
  concat (map (fun l => lit l ++ [nl]) ls).

(** ** [table_of_contents] *)

(** The inner function [generate_table_of_contents], for one header and
    for a list of headers. *)
Fixpoint toc_entry (indent_level : nat) (header : HeaderNode) : str :=
  match header with
  | Node _ text c =>
      replicate (indent_level * 4) 32%N ++ lit "- " ++ text ++ [nl]
      ++ match c with
         | None => []
         | Some kids => concat (map (toc_entry (S indent_level)) kids)
         end
  end.

Definition generate_table_of_contents (headers : list HeaderNode)
    (indent_level : nat) : str :=
  concat (map (toc_entry indent_level) headers).

Definition first_header_text (headers : list HeaderNode) : str :=
  match headers with
  | header :: _ => text_of header
  | [] => []
  end.

Definition toc_title (is_chinese : bool) : str :=
  if is_chinese then toc_title_cjk else toc_title_en.

Definition references_title (is_chinese : bool) : str :=
  if is_chinese then references_title_cjk else references_title_en.

Section WithPlatform.
Context `{Platform}.

(** [table_of_contents] run on the heap [h0]; it returns the pair
    [(toc, is_chinese)] and the heap it leaves. *)
Definition table_of_contents_in (h0 : heap) (markdown_text : str)
    : option ((str * bool) * heap) :=
  match extract_headers_in h0 markdown_text with
  | None => None
  | Some (headers, h1) =>
      let is_chinese := contains_chinese (first_header_text headers) in
      let toc := toc_title is_chinese ++ generate_table_of_contents headers 0 in
      Some ((toc, is_chinese), h1)
  end.

Definition table_of_contents (markdown_text : str) : option (str * bool) :=
  fst <$> table_of_contents_in [] markdown_text.

End WithPlatform.

(** Some character of the text lies in the CJK Unified Ideographs
    block. *)
Definition has_cjk (text : str) : Prop :=
  exists c, c ∈ text /\ (19968 <= c <= 40959)%N.


(** ** [extract_sections]

    The two regular expressions, read as the [re] module runs them. *)

Section WithPlatform.
Context `{Platform}.

(** [\d] *)
Definition re_digit (c : char) : bool := bool_decide (is_Some (decimal c)).

(** [<h\d>] matches at the head of [s]. *)
Definition open_tag_at (s : str) : bool :=
  match s with
  | a :: b :: d :: e :: _ =>
      (a =? 60)%N && (b =? 104)%N && re_digit d && (e =? 62)%N
  | _ => false
  end.

(** [</h\d>] matches at the head of [s]. *)
Definition close_tag_at (s : str) : bool :=
  match s with
  | a :: b :: c :: d :: e :: _ =>
      (a =? 60)%N && (b =? 47)%N && (c =? 104)%N && re_digit d && (e =? 62)%N
  | _ => false
  end.

(** [$] without [re.MULTILINE]: the end of the string, or the place
    before a line feed that ends it. *)
Definition at_dollar (s : str) : bool :=
  match s with
  | [] => true
  | [c] => (c =? nl)%N
  | _ => false
  end.

(** [(.*?)</h\d>] with [re.DOTALL]: the shortest text up to a closing
    tag, and what follows the tag. *)
Fixpoint find_close (s : str) : option (str * str) :=
  if close_tag_at s then Some ([], drop 5 s)
  else match s with
       | [] => None
       | c :: s' =>
           match find_close s' with
           | Some (title, after) => Some (c :: title, after)
           | None => None
           end
       end.

(** [(.*?)(?=<h\d>|$)] with [re.DOTALL]: the shortest text up to an
    opening tag or [$]; the lookahead consumes nothing. *)
Fixpoint take_body (s : str) : str :=
  if open_tag_at s || at_dollar s then []
  else match s with
       | [] => []
       | c :: s' => c :: take_body s'
       end.

(** [re.findall(pattern, s, re.DOTALL)] for
    [pattern = r'<h\d>(.*?)</h\d>(.*?)(?=<h\d>|$)']: the pairs of groups
    of the matches, leftmost first and without overlap. [skip] counts the
    characters of the last match still to pass. *)
Fixpoint findall (skip : nat) (s : str) : list (str * str) :=
  match s with
  | [] => []
  | _ :: s' =>
      match skip with
      | S k => findall k s'
      | O =>
          if open_tag_at s then
            match find_close (drop 4 s) with
            | Some (title, after) =>
                let content := take_body after in
                (title, content)
                :: findall (4 + length title + 5 + length content - 1) s'
            | None => findall 0 s'
            end
          else findall 0 s'
      end
  end.

End WithPlatform.

(** [<.*?>] without [re.DOTALL]: from a "<" to the first ">" with no
    line feed in between; the length of what lies between them. *)
Fixpoint find_gt (s : str) : option nat :=
  match s with
  | [] => None
  | c :: s' =>
      if (c =? 62)%N then Some 0%nat
      else if (c =? nl)%N then None
      else S <$> find_gt s'
  end.

(** [re.sub(r'<.*?>', '', s)] *)
Fixpoint strip_tags (skip : nat) (s : str) : str :=
  match s with
  | [] => []
  | c :: s' =>
      match skip with
      | S k => strip_tags k s'
      | O =>
          if (c =? 60)%N then
            match find_gt s' with
            | Some n => strip_tags (S n) s'
            | None => c :: strip_tags 0 s'
            end
          else c :: strip_tags 0 s'
      end
  end.

Record section := Section_ {
  section_title : str;
  written_content : str;
}.

(** The body of the [for] loop: the section of a match, when its cleaned
    content is not empty. *)
Definition section_of (m : str * str) : option section :=
  let (title, content) := m in
  let clean_content := strip (strip_tags 0 content) in
  match clean_content with
  | [] => None
  | _ => Some (Section_ (strip title) clean_content)
  end.

Section WithPlatform.
Context `{Platform}.

Definition extract_sections (markdown_text : str) : list section :=
  let parsed_md := markdown markdown_text in
  let matches := findall 0 parsed_md in
  omap section_of matches.

End WithPlatform.

(** ** The rendered document as the header pattern reads it

    The notions the property of [extract_sections] is stated with. *)

(** "<hN>" and "</hN>" for a digit [d] *)
Definition open_tag (d : char) : str := [60; 104; d; 62]%N.
Definition close_tag (d : char) : str := [60; 47; 104; d; 62]%N.

(** A header of the document with what follows it: the digit of its
    opening tag, its title, the digit of the closing tag and the body. *)
Record header_block := HeaderBlock {
  hb_open : char;
  hb_title : str;
  hb_close : char;
  hb_body : str;
}.

Definition block_text (b : header_block) : str :=
  open_tag (hb_open b) ++ hb_title b ++ close_tag (hb_close b) ++ hb_body b.

(** The test [p] holds at some place of [s]. *)
Fixpoint occurs (p : str -> bool) (s : str) : bool :=
  p s || match s with
         | [] => false
         | _ :: s' => occurs p s'
         end.

(** The section of a header: its body without the tags and trimmed,
    when that is not empty, under its trimmed title. *)
Definition block_section (b : header_block) : option section :=
  match strip (strip_tags 0 (hb_body b)) with
  | [] => None
  | content => Some (Section_ (strip (hb_title b)) content)
  end.

(** Tags "<inner>", each followed by a text. *)
Definition tagged (pieces : list (str * str)) : str :=
  concat (map (fun p => [60%N] ++ fst p ++ [62%N] ++ snd p) pieces).

Section WithPlatform.
Context `{Platform}.

(** The two tags have a decimal digit, the title holds no closing tag
    and the body holds no opening tag. *)
Definition well_formed_block (b : header_block) : Prop :=
  re_digit (hb_open b) = true /\ re_digit (hb_close b) = true
  /\ occurs close_tag_at (hb_title b) = false
  /\ occurs open_tag_at (hb_body b) = false.

(** The end of a document after its last header with a body: nothing,
    or an opening tag that no closing tag follows. *)
Definition unclosed (tail : str) : Prop :=
  tail = [] \/ open_tag_at tail = true /\ occurs close_tag_at tail = false.

End WithPlatform.

(** A renderer for the examples, for documents made of one-line
    paragraphs and level 1 headers written "# title": each block is
    rendered on its line, as Python-Markdown does. *)
Definition render_line (line : str) : option str :=
  match line with
  | [] => None
  | _ =>
      if startswith (lit "# ") line
      then Some (lit "<h1>" ++ drop 2 line ++ lit "</h1>")
      else Some (lit "<p>" ++ line ++ lit "</p>")
  end.

Fixpoint join_lines (ls : list str) : str :=
  match ls with
  | [] => []
  | [l] => l
  | l :: rest => l ++ [nl] ++ join_lines rest
  end.

Definition simple_blocks : Platform :=
  {| markdown := fun t => join_lines (omap render_line (split nl t));
     isdigit := unicode_isdigit; decimal := unicode_decimal |}.

(** ** The writer stage ([WriterAgent])

    Python values of the research state and of the model responses. *)

#[local] Unset Elimination Schemes.
Inductive pyval :=
  | VNone
  | VBool (b : bool)
  | VInt (z : Z)
  | VStr (s : str)
  | VList (l : list pyval)
  | VDict (d : gmap str pyval).
#[local] Set Elimination Schemes.

(** Truth value of a Python value. *)
Definition truthy (v : pyval) : bool :=
  match v with
  | VNone => false
  | VBool b => b
  | VInt z => negb (z =? 0)%Z
  | VStr s => negb (bool_decide (s = []))
  | VList l => match l with [] => false | _ => true end
  | VDict d => match map_to_list d with [] => false | _ => true end
  end.


(** ** Coroutines

    A coroutine extends the trace of what it did with the outside and
    then returns a value, or raises. *)
Definition coroutine (E A : Type) : Type := list E -> option A * list E.

Definition ret {E A} (a : A) : coroutine E A := fun t => (Some a, t).
Definition raise {E A} : coroutine E A := fun t => (None, t).
Definition bind {E A B} (m : coroutine E A) (k : A -> coroutine E B)
    : coroutine E B :=
  fun t => match m t with
           | (Some a, t') => k a t'
           | (None, t') => (None, t')
           end.
Definition emit {E} (e : E) : coroutine E unit := fun t => (Some tt, t ++ [e]).

Notation "'do' x <- m ; k" := (bind m (fun x => k))
  (at level 10, x name, m at level 100, k at level 200).
Notation "'do' '_' <- m ; k" := (bind m (fun _ => k))
  (at level 10, m at level 100, k at level 200).

Module Writer.

(** A connection or a callback, by name. *)
Abbreviation handle := nat (only parsing).

(** The messages of the two model calls: what the f-strings are filled
    with. *)
Inductive prompt :=
  | WriteSectionsPrompt (today : str) (query data : pyval)
      (guidelines : option pyval)
  | ReviseHeadersPrompt (guidelines : pyval) (headers : pyval).

(** What is sent as the value of a progress event. *)
Inductive payload :=
  | Text (s : str)
  | JsonDump (v : pyval)           (* json.dumps(v, indent=2) *)
  | Object (v : pyval).

Inductive event :=
  | StreamOutput (type key : str) (value : payload) (websocket : handle)
  | PrintAgentOutput (output : payload) (agent : str)
  | CallModel (p : prompt) (model : pyval) (response_format : str).

Abbreviation M := (coroutine event) (only parsing).

(** [v.get(key)]: [None] when the key is absent, [AttributeError] when
    [v] is not a dictionary. *)
Definition get (v : pyval) (key : str) : M pyval :=
  match v with
  | VDict d => ret (default VNone (d !! key))
  | _ => raise
  end.

Record WriterAgent := {
  websocket : option handle;
  stream_output : option handle;
  headers : pyval;
}.

Section WithModel.

(** The model provider and the clock. [call_model] returns the parsed
    response, or raises. *)
Variable call_model : prompt -> pyval -> str -> option pyval.
Variable today : str.

Definition await_call_model (p : prompt) (model : pyval)
    (response_format : str) : M pyval :=
  do _ <- emit (CallModel p model response_format);
  match call_model p model response_format with
  | Some response => ret response
  | None => raise
  end.

(** "日期", "引言", "目录", "结论", "参考资料" *)
Definition get_headers (research_state : gmap str pyval) : pyval :=
  VDict (<[lit "title" := default VNone (research_state !! lit "title")]>
         (<[lit "date" := VStr [26085; 26399]%N]>
         (<[lit "introduction" := VStr [24341; 35328]%N]>
         (<[lit "table_of_contents" := VStr [30446; 24405]%N]>
         (<[lit "conclusion" := VStr [32467; 35770]%N]>
         (<[lit "references" := VStr [21442; 32771; 36164; 26009]%N]> ∅)))))).

Definition write_sections (research_state : gmap str pyval) : M pyval :=
  let query := default VNone (research_state !! lit "title") in
  let data := default VNone (research_state !! lit "research_data") in
  let task := default VNone (research_state !! lit "task") in
  do follow_guidelines <- get task (lit "follow_guidelines");
  do guidelines <- get task (lit "guidelines");
  let prompt :=
    WriteSectionsPrompt today query data
      (if truthy follow_guidelines then Some guidelines else None) in
  do model <- get task (lit "model");
  do response <- await_call_model prompt model (lit "json");
  ret response.

Definition revise_headers (task : pyval) (headers : pyval) : M pyval :=
  do guidelines <- get task (lit "guidelines");
  let prompt := ReviseHeadersPrompt guidelines headers in
  do model <- get task (lit "model");
  do response <- await_call_model prompt model (lit "json");
  ret (VDict {[lit "headers" := response]}).

(** [if self.websocket and self.stream_output: await self.stream_output(
    "logs", key, value, self.websocket) else: print_agent_output(value,
    agent="WRITER")] *)
Definition report_progress (self : WriterAgent) (key : str) (value : payload)
    : M unit :=
  match websocket self, stream_output self with
  | Some ws, Some _ => emit (StreamOutput (lit "logs") key value ws)
  | _, _ => emit (PrintAgentOutput value (lit "WRITER"))
  end.

Definition run (self : WriterAgent) (research_state : gmap str pyval)
    : M (gmap str pyval) :=
  do _ <- report_progress self (lit "writing_report")
    (Text (lit "Writing final research report based on research data..."));
  do research_layout_content <- write_sections research_state;
  do task <- ret (default VNone (research_state !! lit "task"));
  do verbose <- get task (lit "verbose");
  do _ <- (if truthy verbose then
     match websocket self, stream_output self with
     | Some ws, Some _ =>
         emit (StreamOutput (lit "logs") (lit "research_layout_content")
                 (JsonDump research_layout_content) ws)
     | _, _ =>
         emit (PrintAgentOutput (Object research_layout_content) (lit "WRITER"))
     end
   else ret tt);
  let headers := get_headers research_state in
  do follow_guidelines <- get task (lit "follow_guidelines");
  do headers <-
    (if truthy follow_guidelines then
       do _ <- report_progress self (lit "rewriting_layout")
         (Text (lit "Rewriting layout based on guidelines..."));
       do headers <- revise_headers task headers;
       get headers (lit "headers")
     else ret headers);
  match research_layout_content with
  | VDict content => ret (<[lit "headers" := headers]> content)
  | _ => raise
  end.

End WithModel.

(** The notions the properties of [run] are stated with. *)

(** A progress-reporting capability is attached. *)
Definition attached (self : WriterAgent) : bool :=
  match websocket self, stream_output self with
  | Some _, Some _ => true
  | _, _ => false
  end.

(** A flag of the task configuration of the state. *)
Definition task_flag (research_state : gmap str pyval) (name : str) : bool :=
  match research_state !! lit "task" with
  | Some (VDict task) => truthy (default VNone (task !! name))
  | _ => false
  end.

(** The keys of the progress events of a trace, in order. *)
Definition stream_keys (t : list event) : list str :=
  omap (fun e => match e with
                 | StreamOutput _ key _ _ => Some key
                 | _ => None
                 end) t.

(** What was written to the local sink, in order. *)
Definition printed (t : list event) : list payload :=
  omap (fun e => match e with
                 | PrintAgentOutput output _ => Some output
                 | _ => None
                 end) t.

(** The events of a trace that come before its first model call. *)
Fixpoint before_first_call (t : list event) : list event :=
  match t with
  | [] => []
  | CallModel _ _ _ :: _ => []
  | e :: t' => e :: before_first_call t'
  end.

(** The event by which [self] reports progress: a progress event with
    the streamed value, or the printed value on the local sink. *)
Definition progress (self : WriterAgent) (key : str)
    (streamed printed : payload) : event :=
  match websocket self, stream_output self with
  | Some ws, Some _ => StreamOutput (lit "logs") key streamed ws
  | _, _ => PrintAgentOutput printed (lit "WRITER")
  end.

Definition writing_message : payload :=
  Text (lit "Writing final research report based on research data...").
Definition rewriting_message : payload :=
  Text (lit "Rewriting layout based on guidelines...").

(** The outcome of [run], path by path. *)
Definition run_outcome (call_model : prompt -> pyval -> str -> option pyval)
    (today : str) (self : WriterAgent) (research_state : gmap str pyval)
    : option (gmap str pyval) * list event :=
  let start := progress self (lit "writing_report") writing_message writing_message in
  match research_state !! lit "task" with
  | Some (VDict task) =>
      let field key := default VNone (task !! key) in
      let follow := truthy (field (lit "follow_guidelines")) in
      let p1 := WriteSectionsPrompt today
                  (default VNone (research_state !! lit "title"))
                  (default VNone (research_state !! lit "research_data"))
                  (if follow then Some (field (lit "guidelines")) else None) in
      let call1 := CallModel p1 (field (lit "model")) (lit "json") in
      match call_model p1 (field (lit "model")) (lit "json") with
      | None => (None, [start; call1])
      | Some response =>
          let t1 :=
            [start; call1]
            ++ (if truthy (field (lit "verbose"))
                then [progress self (lit "research_layout_content")
                        (JsonDump response) (Object response)]
                else []) in
          if follow then
            let p2 := ReviseHeadersPrompt (field (lit "guidelines"))
                        (get_headers research_state) in
            let t2 :=
              t1 ++ [progress self (lit "rewriting_layout")
                       rewriting_message rewriting_message;
                     CallModel p2 (field (lit "model")) (lit "json")] in
            match call_model p2 (field (lit "model")) (lit "json") with
            | None => (None, t2)
            | Some revised =>
                match response with
                | VDict content =>
                    (Some (<[lit "headers" := revised]> content), t2)
                | _ => (None, t2)
                end
            end
          else
            match response with
            | VDict content =>
                (Some (<[lit "headers" := get_headers research_state]> content), t1)
            | _ => (None, t1)
            end
      end
  | _ => (None, [start])
  end.

(** A model provider and a state for the examples: the task asks for the
    verbose log and for the guidelines, the model answers with a
    dictionary that has a "headers" field of its own. *)
Definition sample_model (p : prompt) (model : pyval) (response_format : str)
    : option pyval :=
  match p with
  | WriteSectionsPrompt _ _ _ _ =>
      Some (VDict (<[lit "introduction" := VStr (lit "intro")]>
                   (<[lit "headers" := VStr (lit "stale")]> ∅)))
  | ReviseHeadersPrompt _ _ =>
      Some (VDict {[lit "title" := VStr (lit "revised")]})
  end.

Definition sample_task (verbose follow_guidelines : bool) : pyval :=
  VDict (<[lit "verbose" := VBool verbose]>
         (<[lit "follow_guidelines" := VBool follow_guidelines]>
         (<[lit "model" := VStr (lit "gpt")]> ∅))).

Definition sample_state (verbose follow_guidelines : bool) : gmap str pyval :=
  <[lit "title" := VStr (lit "T")]>
  (<[lit "task" := sample_task verbose follow_guidelines]> ∅).

Definition streaming_agent : WriterAgent :=
  {| websocket := Some 1%nat; stream_output := Some 2%nat; headers := VNone |}.

Definition local_agent : WriterAgent :=
  {| websocket := None; stream_output := None; headers := VNone |}.

End Writer.

(** ** The report routes of the server *)

Module Server.

Abbreviation Q := QArith_base.Q (only parsing).

Record ResearchRequest := {
  task : str;
  report_type : str;
  report_source : str;
  tone : str;
  headers : option pyval;
  repo_name : str;
  branch_name : str;
  generate_in_background : bool;
  language : option str;
}.

(** The researcher [run_agent] returns with the report. *)
Record researcher := {
  get_source_urls : pyval;
  get_costs : pyval;
  visited_urls : list str;
  get_research_images : pyval;
}.

Record research_information := {
  source_urls : pyval;
  research_costs : pyval;
  info_visited_urls : list str;
  research_images : pyval;
}.

(** The dictionaries the routes return, and [FileResponse]. *)
Inductive response :=
  | Acknowledgement (message research_id : str)
  | ReportBundle (research_id : str) (info : option research_information)
      (report docx_path pdf_path : str)
  | Message (message : str)
  | FileResponse (path : str).

Inductive event :=
  | AddTask (research_request : ResearchRequest) (research_id : str)
      (* background_tasks.add_task(write_report, ...) *)
  | RunAgent (research_request : ResearchRequest)
  | WriteMdToWord (report research_id : str)
  | WriteMdToPdf (report research_id : str).

Abbreviation M := (coroutine event) (only parsing).

(** [int(x)] of a float, a dyadic rational: truncation towards zero. *)
Definition int_of_float (x : Q) : Z :=
  Z.quot (QArith_base.Qnum x) (Z.pos (QArith_base.Qden x)).

(** [str(n)] of an integer. *)
Definition str_of_int (n : Z) : str := lit (pretty n).

(** [os.path.join(a, b)] of [posixpath]. *)
Definition path_join (a b : str) : str :=
  if startswith (lit "/") b then b
  else if bool_decide (a = []) || bool_decide (last a = Some 47%N) then a ++ b
  else a ++ lit "/" ++ b.

Definition docx_path_of (research_id : str) : str :=
  path_join (lit "outputs") (research_id ++ lit ".docx").

(** [read_report]; the file system is the set of the paths that
    exist. *)
Definition read_report (fs : gset str) (research_id : str) : M response :=
  let docx_path := docx_path_of research_id in
  if negb (bool_decide (docx_path ∈ fs)) then
    ret (Message (lit "Report not found."))
  else ret (FileResponse docx_path).

Section WithPipeline.

(** Modelled from the spec: [sanitize_filename] of
    [backend/server/server_utils.py], which is not among the sources.
    The design document says that it strips the characters unsafe for
    use as a storage key, such as slashes and quotes, and leaves the
    alphanumeric content as it is; which characters are unsafe is the
    parameter [unsafe]. *)
Variable unsafe : char -> bool.

Definition sanitize_filename (filename : str) : str :=
  List.filter (fun c => negb (unsafe c)) filename.

(** The pipeline and the exporters, outside the sources: [run_agent]
    returns the report and the researcher, or raises; [known_tone] tells
    the names of the members of the enumeration [Tone]. *)
Variable run_agent : ResearchRequest -> option (str * researcher).
Variable write_md_to_word : str -> str -> str.
Variable write_md_to_pdf : str -> str -> str.
Variable known_tone : str -> bool.

Definition write_report (research_request : ResearchRequest)
    (research_id : str) : M response :=
  do _ <- (if known_tone (tone research_request) then ret tt else raise);
  do _ <- emit (RunAgent research_request);
  match run_agent research_request with
  | None => raise
  | Some (report, researcher) =>
      do _ <- emit (WriteMdToWord report research_id);
      let docx_path := write_md_to_word report research_id in
      do _ <- emit (WriteMdToPdf report research_id);
      let pdf_path := write_md_to_pdf report research_id in
      if negb (bool_decide (report_type research_request = lit "multi_agents"))
      then
        ret (ReportBundle research_id
               (Some {| source_urls := get_source_urls researcher;
                        research_costs := get_costs researcher;
                        info_visited_urls := visited_urls researcher;
                        research_images := get_research_images researcher |})
               report docx_path pdf_path)
      else ret (ReportBundle research_id None [] docx_path pdf_path)
  end.

(** [sanitize_filename(f"task_{int(time.time())}_{task}")], for the
    clock reading [now]. *)
Definition research_id_of (now : Q) (task : str) : str :=
  sanitize_filename
    (lit "task_" ++ str_of_int (int_of_float now) ++ lit "_" ++ task).

Definition background_message : str :=
  lit "Your report is being generated in the background. Please check back later.".

Definition generate_report (now : Q) (research_request : ResearchRequest)
    : M response :=
  let research_id := research_id_of now (task research_request) in
  if generate_in_background research_request then
    do _ <- emit (AddTask research_request research_id);
    ret (Acknowledgement background_message research_id)
  else
    do response <- write_report research_request research_id;
    ret response.

End WithPipeline.

(** ASCII letters and digits. *)
Definition alphanumeric (c : char) : bool :=
  ((48 <=? c) && (c <=? 57) || (65 <=? c) && (c <=? 90)
   || (97 <=? c) && (c <=? 122))%N.

(** What the design document says of the unsafe characters. *)
Definition unsafe_as_specified (unsafe : char -> bool) : Prop :=
  unsafe 47%N = true /\ unsafe 92%N = true
  /\ unsafe 34%N = true /\ unsafe 39%N = true
  /\ forall c, alphanumeric c = true -> unsafe c = false.

(** For the examples: every character but letters, digits, "_", "-" and
    the space is unsafe. *)
Definition sample_unsafe (c : char) : bool :=
  negb (alphanumeric c || (c =? 95)%N || (c =? 45)%N || (c =? 32)%N).

Definition sample_request (task : str) (background : bool) : ResearchRequest :=
  {| task := task; report_type := lit "research_report";
     report_source := lit "web"; tone := lit "Objective"; headers := None;
     repo_name := lit "repo"; branch_name := lit "main";
     generate_in_background := background; language := None |}.

Definition sample_run_agent (r : ResearchRequest) : option (str * researcher) :=
  Some (lit "# Report",
        {| get_source_urls := VList []; get_costs := VInt 0;
           visited_urls := [lit "https://a.example"];
           get_research_images := VList [] |}).

Definition sample_word (report research_id : str) : str :=
  lit "outputs/" ++ research_id ++ lit ".docx".
Definition sample_pdf (report research_id : str) : str :=
  lit "outputs/" ++ research_id ++ lit ".pdf".
Definition sample_tone (t : str) : bool := bool_decide (t = lit "Objective").

End Server.

(** ** Further notions for the markdown functions *)

(** A header as the renderer writes it on one line: "<h", the digit,
    attributes, ">", the text, and the closing tag. *)
Definition header_line (d : char) (attrs text : str) : str :=
  lit "<h" ++ [d] ++ attrs ++ [62%N] ++ text ++ lit "</h" ++ [d] ++ [62%N].

(** What a line of the rendered document is, said without the scan: a
    header written on one line, with its level and its text, or a line
    that does not start with "<h" and a digit. *)
Section WithPlatform.
Context `{Platform}.

Definition reads_as (line : str) (m : option item) : Prop :=
  match m with
  | Some it =>
      exists d attrs,
        line = header_line d attrs (snd it)
        /\ isdigit d = true /\ decimal d = Some (fst it)
        /\ d <> 60%N /\ d <> 62%N /\ (62%N ∉ attrs)
  | None =>
      startswith (lit "<h") line = false
      \/ forall c, line !! 2%nat = Some c -> isdigit c = false
  end.

End WithPlatform.

(** Levels that do not increase from one element to the next. *)
Fixpoint nonincreasing (ls : list Z) : bool :=
  match ls with
  | a :: rest =>
      match rest with
      | b :: _ => (b <=? a)%Z && nonincreasing rest
      | [] => true
      end
  | [] => true
  end.

(** At every depth, the children of a node come with levels that do not
    increase. *)
Fixpoint siblings_ordered (n : HeaderNode) : bool :=
  match n with
  | Node _ _ c =>
      match c with
      | None => true
      | Some kids =>
          nonincreasing (map level_of kids) && forallb siblings_ordered kids
      end
  end.

(** The headers of a tree in pre-order, each with its depth. *)
Fixpoint preorder_depth (depth : nat) (n : HeaderNode) : list (nat * str) :=
  match n with
  | Node _ t c =>
      (depth, t) :: match c with
                    | None => []
                    | Some kids => concat (map (preorder_depth (S depth)) kids)
                    end
  end.

(** The line of the table of contents for a header at a depth. *)
Definition entry_line (e : nat * str) : str :=
  replicate (fst e * 4) 32%N ++ lit "- " ++ snd e.

(** A text with no white space at either end. *)
Definition trimmed (s : str) : Prop :=
  (forall c, head s = Some c -> isspace c = false)
  /\ (forall c, last s = Some c -> isspace c = false).

(** The levels read in the heap at the references of the stack. *)
Definition stack_levels (st : state) : list (option Z) :=
  map (fun ref => d_level <$> st_heap st !! ref) (st_stack st).

(** The references of the stack are references to dictionaries of the
    heap. *)
Definition refs_in (st : state) : Prop :=
  Forall (fun r => (r < length (st_heap st))%nat) (st_stack st).

(** Levels that increase strictly from one element to the next. *)
Fixpoint increasing (ls : list Z) : bool :=
  match ls with
  | a :: rest =>
      match rest with
      | b :: _ => (a <? b)%Z && increasing rest
      | [] => true
      end
  | [] => true
  end.

(** The ordering of siblings on the forest under construction. *)
Definition last_level_ge (kids : list HeaderNode) (l : Z) : Prop :=
  match last kids with
  | Some k => (l <= level_of k)%Z
  | None => True
  end.

Definition siblings_ok (kids : list HeaderNode) : Prop :=
  nonincreasing (map level_of kids) = true
  /\ Forall (fun k => siblings_ordered k = true) kids.

Fixpoint spine_siblings (sp : list frame) : Prop :=
  match sp with
  | [] => True
  | f :: rest =>
      siblings_ok (f_closed f)
      /\ match rest with
         | [] => f_closed f = []
         | g :: _ => last_level_ge (f_closed f) (f_level g)
         end
      /\ spine_siblings rest
  end.

Definition z_siblings (z : list HeaderNode * list frame) : Prop :=
  siblings_ok (fst z) /\ spine_siblings (snd z)
  /\ match snd z with
     | [] => fst z = []
     | b :: _ => last_level_ge (fst z) (f_level b)
     end.

(** No "<" of the text starts a tag: no ">" follows it on its line. *)
Definition no_tag (s : str) : Prop :=
  forall a b, s = a ++ 60%N :: b -> find_gt b = None.

(** ** Further notions for the writer stage *)

(** The model calls of a trace, in order. *)
Definition model_calls (t : list Writer.event)
    : list (Writer.prompt * pyval * str) :=
  omap (fun e => match e with
                 | Writer.CallModel p model response_format =>
                     Some (p, model, response_format)
                 | _ => None
                 end) t.

(** [task.get(key)] *)
Definition task_field (task : gmap str pyval) (key : str) : pyval :=
  default VNone (task !! key).

(** The prompt of [write_sections] for a state and its task. *)
Definition sections_prompt (today : str) (research_state task : gmap str pyval)
    : Writer.prompt :=
  Writer.WriteSectionsPrompt today
    (default VNone (research_state !! lit "title"))
    (default VNone (research_state !! lit "research_data"))
    (if truthy (task_field task (lit "follow_guidelines"))
     then Some (task_field task (lit "guidelines")) else None).

(** The prompt of [revise_headers] as [run] calls it. *)
Definition headers_prompt (research_state task : gmap str pyval)
    : Writer.prompt :=
  Writer.ReviseHeadersPrompt (task_field task (lit "guidelines"))
    (Writer.get_headers research_state).

(** ** The summary route ([generate_summary]) *)

Module Summary.
Import Server.

Record SummaryRequest := {
  name : str;
  author : str;
  publication_date : str;
}.

(** The two f-strings of the route, character by character. *)
Definition chinese_task (request : SummaryRequest) : str :=
  [35831; 29992; 20013; 25991; 24110; 25105; 24320; 23637; 19968;
      27425; 28145; 24230; 30740; 31350; 65292; 24110; 21161; 25105;
      24555; 36895; 12289; 20840; 38754; 12289; 28145; 20837; 22320;
      29702; 35299; 20197; 19979; 36825; 26412; 20070; 65306; 10; 10;
      20070; 21517; 65306]%N
  ++ name request
  ++ [10; 20316; 32773; 65306]%N
  ++ author request
  ++ [10; 20986; 29256; 26102; 38388; 65306]%N
  ++ publication_date request
  ++ [10; 10; 35831; 42; 42; 20165; 20351; 29992; 33521; 25991; 36164;
      26009; 42; 42; 36827; 34892; 25628; 32034; 21644; 20449; 24687;
      37319; 38598; 65292; 20294; 20840; 37096; 29992; 42; 42; 20013;
      25991; 25776; 20889; 25253; 21578; 42; 42; 12290; 10; 10; 35831;
      22260; 32469; 20197; 19979; 32500; 24230; 36827; 34892; 35814;
      32454; 20998; 26512; 65288; 19981; 38480; 20110; 27492; 65289;
      65306; 10; 45; 32; 24341; 35328; 10; 45; 32; 20869; 23481; 32467;
      26500; 10; 45; 32; 26680; 24515; 35266; 28857; 10; 45; 32; 30446;
      26631; 35835; 32773; 47; 36866; 29992; 20154; 32676; 10; 45; 32;
      29616; 23454; 24847; 20041; 25110; 31038; 20250; 24433; 21709; 10;
      45; 32; 19982; 20854; 20182; 31867; 20284; 20070; 31821; 30340;
      27604; 36739; 19982; 24046; 24322; 10; 45; 32; 42; 42; 36880; 31456;
      28145; 24230; 35299; 35835; 65288; 27599; 19968; 31456; 20998;
      21035; 35814; 32454; 20171; 32461; 20854; 26680; 24515; 20869;
      23481; 12289; 20851; 38190; 24773; 33410; 21644; 35266; 28857;
      65292; 22914; 26377; 31456; 33410; 26631; 39064; 20063; 35831;
      27880; 26126; 65289; 42; 42; 10; 45; 32; 32467; 35770; 10; 25253;
      21578; 24212; 23613; 37327; 35814; 23613; 65292; 31687; 24133;
      23613; 21487; 33021; 38271; 19968; 20123; 65292; 21153; 27714;
      28145; 21051; 19982; 20840; 38754; 65292; 19981; 38656; 24635;
      32467; 31616; 30053; 65292; 35831; 35814; 32454; 35299; 35835;
      12290; 10; 10; 35831; 27880; 24847; 65306; 42; 42; 27491; 25991;
      20013; 19981; 35201; 25554; 20837; 20219; 20309; 36229; 38142;
      25509; 25110; 32593; 39029; 38142; 25509; 42; 42; 65292; 22914;
      38656; 24341; 29992; 36164; 26009; 65292; 35831; 32479; 19968;
      21015; 22312; 25253; 21578; 26411; 23614; 30340; 8220; 21442; 32771;
      36164; 26009; 8221; 37096; 20998; 12290]%N.

Definition english_task (request : SummaryRequest) : str :=
  [80; 108; 101; 97; 115; 101; 32; 99; 111; 110; 100; 117; 99; 116; 32;
      97; 110; 32; 105; 110; 45; 100; 101; 112; 116; 104; 32; 114; 101;
      115; 101; 97; 114; 99; 104; 32; 116; 111; 32; 104; 101; 108; 112;
      32; 109; 101; 32; 102; 117; 108; 108; 121; 32; 117; 110; 100; 101;
      114; 115; 116; 97; 110; 100; 32; 116; 104; 101; 32; 102; 111; 108;
      108; 111; 119; 105; 110; 103; 32; 98; 111; 111; 107; 58; 10; 10; 84;
      105; 116; 108; 101; 58; 32]%N
  ++ name request
  ++ [10; 65; 117; 116; 104; 111; 114; 58; 32]%N
  ++ author request
  ++ [10; 80; 117; 98; 108; 105; 99; 97; 116; 105; 111; 110; 32; 68; 97;
      116; 101; 58; 32]%N
  ++ publication_date request
  ++ [10; 10; 85; 115; 101; 32; 111; 110; 108; 121; 32; 69; 110; 103; 108;
      105; 115; 104; 32; 115; 111; 117; 114; 99; 101; 115; 32; 102; 111;
      114; 32; 114; 101; 115; 101; 97; 114; 99; 104; 44; 32; 97; 110; 100;
      32; 119; 114; 105; 116; 101; 32; 116; 104; 101; 32; 101; 110; 116;
      105; 114; 101; 32; 114; 101; 112; 111; 114; 116; 32; 105; 110; 32;
      42; 42; 69; 110; 103; 108; 105; 115; 104; 42; 42; 46; 10; 10; 80;
      108; 101; 97; 115; 101; 32; 99; 111; 118; 101; 114; 32; 116; 104;
      101; 32; 102; 111; 108; 108; 111; 119; 105; 110; 103; 32; 97; 115;
      112; 101; 99; 116; 115; 32; 105; 110; 32; 100; 101; 116; 97; 105;
      108; 32; 40; 98; 117; 116; 32; 110; 111; 116; 32; 108; 105; 109;
      105; 116; 101; 100; 32; 116; 111; 32; 116; 104; 101; 115; 101; 41;
      58; 10; 45; 32; 73; 110; 116; 114; 111; 100; 117; 99; 116; 105; 111;
      110; 10; 45; 32; 83; 116; 114; 117; 99; 116; 117; 114; 101; 32; 111;
      102; 32; 116; 104; 101; 32; 99; 111; 110; 116; 101; 110; 116; 10;
      45; 32; 67; 111; 114; 101; 32; 105; 100; 101; 97; 115; 32; 97; 110;
      100; 32; 97; 114; 103; 117; 109; 101; 110; 116; 115; 10; 45; 32; 84;
      97; 114; 103; 101; 116; 32; 97; 117; 100; 105; 101; 110; 99; 101;
      10; 45; 32; 82; 101; 97; 108; 45; 119; 111; 114; 108; 100; 32; 115;
      105; 103; 110; 105; 102; 105; 99; 97; 110; 99; 101; 32; 111; 114;
      32; 115; 111; 99; 105; 101; 116; 97; 108; 32; 105; 109; 112; 97; 99;
      116; 10; 45; 32; 67; 111; 109; 112; 97; 114; 105; 115; 111; 110;
      115; 32; 119; 105; 116; 104; 32; 115; 105; 109; 105; 108; 97; 114;
      32; 98; 111; 111; 107; 115; 10; 45; 32; 42; 42; 67; 104; 97; 112;
      116; 101; 114; 45; 98; 121; 45; 99; 104; 97; 112; 116; 101; 114; 32;
      100; 101; 101; 112; 32; 100; 105; 118; 101; 32; 40; 105; 110; 116;
      114; 111; 100; 117; 99; 101; 32; 116; 104; 101; 32; 109; 97; 105;
      110; 32; 99; 111; 110; 116; 101; 110; 116; 44; 32; 107; 101; 121;
      32; 112; 108; 111; 116; 115; 44; 32; 97; 110; 100; 32; 105; 100;
      101; 97; 115; 32; 111; 102; 32; 101; 97; 99; 104; 32; 99; 104; 97;
      112; 116; 101; 114; 44; 32; 109; 101; 110; 116; 105; 111; 110; 105;
      110; 103; 32; 99; 104; 97; 112; 116; 101; 114; 32; 116; 105; 116;
      108; 101; 115; 32; 105; 102; 32; 97; 118; 97; 105; 108; 97; 98; 108;
      101; 41; 42; 42; 10; 45; 32; 67; 111; 110; 99; 108; 117; 115; 105;
      111; 110; 10; 84; 104; 101; 32; 114; 101; 112; 111; 114; 116; 32;
      115; 104; 111; 117; 108; 100; 32; 98; 101; 32; 97; 115; 32; 100;
      101; 116; 97; 105; 108; 101; 100; 32; 97; 115; 32; 112; 111; 115;
      115; 105; 98; 108; 101; 44; 32; 119; 105; 116; 104; 32; 110; 111;
      32; 119; 111; 114; 100; 32; 108; 105; 109; 105; 116; 46; 32; 65;
      118; 111; 105; 100; 32; 98; 114; 105; 101; 102; 32; 115; 117; 109;
      109; 97; 114; 105; 101; 115; 32; 8212; 32; 97; 105; 109; 32; 102;
      111; 114; 32; 100; 101; 112; 116; 104; 32; 97; 110; 100; 32; 99;
      111; 109; 112; 114; 101; 104; 101; 110; 115; 105; 118; 101; 110;
      101; 115; 115; 46; 10; 10; 42; 42; 68; 111; 32; 110; 111; 116; 32;
      105; 110; 115; 101; 114; 116; 32; 97; 110; 121; 32; 104; 121; 112;
      101; 114; 108; 105; 110; 107; 115; 32; 111; 114; 32; 85; 82; 76;
      115; 32; 105; 110; 32; 116; 104; 101; 32; 98; 111; 100; 121; 42; 42;
      46; 32; 73; 102; 32; 99; 105; 116; 105; 110; 103; 32; 115; 111; 117;
      114; 99; 101; 115; 44; 32; 108; 105; 115; 116; 32; 116; 104; 101;
      109; 32; 97; 116; 32; 116; 104; 101; 32; 101; 110; 100; 32; 117;
      110; 100; 101; 114; 32; 39; 82; 101; 102; 101; 114; 101; 110; 99;
      101; 115; 39; 46]%N.

Definition chinese_request (request : SummaryRequest) : ResearchRequest :=
  {| task := chinese_task request; report_type := lit "basic_report";
     report_source := lit "web"; tone := lit "Objective"; headers := None;
     repo_name := lit "book-summary-api"; branch_name := lit "main";
     generate_in_background := false; language := Some (lit "chinese") |}.

Definition english_request (request : SummaryRequest) : ResearchRequest :=
  {| task := english_task request; report_type := lit "basic_report";
     report_source := lit "web"; tone := lit "Objective"; headers := None;
     repo_name := lit "book-summary-api"; branch_name := lit "main";
     generate_in_background := false; language := Some (lit "english") |}.

(** The dictionary the route returns, or the response of status 500 of
    its exception handler. *)
Inductive summary_response :=
  | SummaryResult (summary_chinese : str) (research_id_chinese : option str)
      (pdf_url_chinese : str) (summary_english : str)
      (research_id_english : option str) (pdf_url_english : str)
  | InternalError.

(** [result.get("report", default)] and [result.get("research_id")] on
    what a route returns; [None] when the value has no [get]. *)
Definition get_report (default_report : str) (r : response) : option str :=
  match r with
  | ReportBundle _ _ report _ _ => Some report
  | Acknowledgement _ _ | Message _ => Some default_report
  | FileResponse _ => None
  end.

Definition get_research_id (r : response) : option (option str) :=
  match r with
  | ReportBundle research_id _ _ _ _ => Some (Some research_id)
  | Acknowledgement _ research_id => Some (Some research_id)
  | Message _ => Some None
  | FileResponse _ => None
  end.

(** [f"{x}"] of a string or [None]. *)
Definition format_optional (x : option str) : str := default (lit "None") x.

(** [await asyncio.gather(a, b)]: both coroutines are run; the results
    of both when both return, the exception when one raises. The order
    in which their steps interleave is not kept. *)
Definition gather {E A B} (a : coroutine E A) (b : coroutine E B)
    : option (A * B) :=
  match fst (a []), fst (b []) with
  | Some x, Some y => Some (x, y)
  | _, _ => None
  end.

Section WithPipeline.
Variable unsafe : char -> bool.
Variable run_agent : ResearchRequest -> option (str * researcher).
Variable write_md_to_word : str -> str -> str.
Variable write_md_to_pdf : str -> str -> str.
Variable known_tone : str -> bool.
(** [os.getenv("BASE_URL")] *)
Variable base_url : option str.

(** [sanitize_filename(f"{prefix}{int(time.time())}_{request.name[:20]}")] *)
Definition summary_id (prefix : str) (now : Q) (request : SummaryRequest) : str :=
  sanitize_filename unsafe
    (prefix ++ str_of_int (int_of_float now) ++ lit "_" ++ take 20 (name request)).

Definition pdf_url (research_id : option str) : str :=
  format_optional base_url ++ lit "/outputs/" ++ format_optional research_id
  ++ lit ".pdf".

(** [generate_summary], the clock being read twice. *)
Definition generate_summary (now1 now2 : Q) (request : SummaryRequest)
    : summary_response :=
  let chinese_id := summary_id (lit "summary_cn_") now1 request in
  let english_id := summary_id (lit "summary_en_") now2 request in
  match gather
          (write_report run_agent write_md_to_word write_md_to_pdf known_tone
             (chinese_request request) chinese_id)
          (write_report run_agent write_md_to_word write_md_to_pdf known_tone
             (english_request request) english_id)
  with
  | Some (chinese_result, english_result) =>
      match get_report (lit "No Chinese report returned") chinese_result,
            get_research_id chinese_result,
            get_report (lit "No English report returned") english_result,
            get_research_id english_result
      with
      | Some summary_chinese, Some id_chinese,
        Some summary_english, Some id_english =>
          SummaryResult summary_chinese id_chinese (pdf_url id_chinese)
            summary_english id_english (pdf_url id_english)
      | _, _, _, _ => InternalError
      end
  | None => InternalError
  end.

End WithPipeline.

Definition sample_book : SummaryRequest :=
  {| name := lit "A Very Long Book Title, Volume One";
     author := lit "An Author"; publication_date := lit "1999" |}.

End Summary.

(** * Proofs *)

(** ** Lists, stacks and strings *)

Lemma pop_while_snoc {A} (p : A -> bool) (l : list A) (x : A) :
  pop_while p (l ++ [x]) = if p x then pop_while p l else l ++ [x].
Proof.
  induction l as [|a l IH]; simpl.
  - by destruct (p x).
  - rewrite IH. destruct (p x); [done|].
    by destruct l.
Qed.

Lemma pop_while_take {A} (p : A -> bool) (l : list A) :
  pop_while p l = take (length (pop_while p l)) l.
Proof.
  induction l as [|a l IH]; simpl; [done|].
  destruct (pop_while p l) as [|b r] eqn:E.
  - destruct (p a); simpl; [done|]. by rewrite take_0.
  - simpl in *. by rewrite <- IH.
Qed.

Lemma pop_while_length_le {A} (p : A -> bool) (l : list A) :
  (length (pop_while p l) <= length l)%nat.
Proof.
  induction l as [|a l IH]; simpl; [done|].
  destruct (pop_while p l); simpl in *; [destruct (p a); simpl|]; lia.
Qed.

Lemma pop_while_last {A} (p : A -> bool) (l : list A) (x : A) :
  last (pop_while p l) = Some x -> p x = false.
Proof.
  induction l as [|a l IH] using rev_ind; simpl; [done|].
  rewrite pop_while_snoc. destruct (p a) eqn:E; [done|].
  rewrite last_snoc. by intros [= <-].
Qed.

Lemma pop_while_all {A} (p : A -> bool) (l : list A) :
  Forall (fun x => p x = true) l -> pop_while p l = [].
Proof.
  induction 1 as [|a l Ha _ IH]; simpl; [done|]. by rewrite IH, Ha.
Qed.

(** Two stacks whose entries answer the test alike are popped alike. *)
Lemma pop_while_length_rel {A B} (p : A -> bool) (q : B -> bool) l k :
  Forall2 (fun a b => p a = q b) l k ->
  length (pop_while p l) = length (pop_while q k).
Proof.
  induction 1 as [|a b l k Hab _ IH]; simpl; [done|].
  destruct (pop_while p l), (pop_while q k); simpl in *; try done.
  - rewrite Hab. by destruct (q b).
  - by rewrite IH.
Qed.

Lemma pop_while_map {A B} (f : A -> B) (p : B -> bool) (l : list A) :
  pop_while p (map f l) = map f (pop_while (fun a => p (f a)) l).
Proof.
  induction l as [|a l IH]; simpl; [done|].
  rewrite IH. destruct (pop_while _ l); simpl; [|done].
  by destruct (p (f a)).
Qed.

(** ** The layout of a forest *)

Lemma layout_tree_eq b l t c :
  layout_tree b (Node l t c) =
  Dict l t (child_refs (S b) <$> c) :: layout_forest (S b) (default [] c).
Proof.
  by destruct c.
Qed.

Lemma tsize_eq l t c : tsize (Node l t c) = S (fsize (default [] c)).
Proof. by destruct c. Qed.

Lemma preorder_eq l t c :
  preorder (Node l t c) = (l, t) :: preorder_forest (default [] c).
Proof. by destruct c. Qed.

Lemma default_mk_children kids : default [] (mk_children kids) = kids.
Proof. by destruct kids. Qed.

Lemma fsize_app f1 f2 : fsize (f1 ++ f2) = (fsize f1 + fsize f2)%nat.
Proof.
  unfold fsize. induction f1 as [|k f1 IH]; simpl; [done|]. rewrite IH. lia.
Qed.

Lemma fsize_cons k f : fsize (k :: f) = (tsize k + fsize f)%nat.
Proof. done. Qed.

Lemma length_layout_tree b n : length (layout_tree b n) = tsize n.
Proof.
  revert b. induction n as [l t|l t kids IH] using HeaderNode_forest_ind;
    intros b; [done|].
  rewrite layout_tree_eq, tsize_eq. simpl. f_equal.
  generalize (S b). induction IH as [|k rest Hk _ IHrest]; intros b'; simpl; [done|].
  rewrite length_app, Hk, IHrest. done.
Qed.

Lemma length_layout_forest b f : length (layout_forest b f) = fsize f.
Proof.
  revert b. induction f as [|k f IH]; intros b; simpl; [done|].
  by rewrite length_app, length_layout_tree, IH.
Qed.

Lemma layout_forest_app b f1 f2 :
  layout_forest b (f1 ++ f2) =
  layout_forest b f1 ++ layout_forest (b + fsize f1) f2.
Proof.
  revert b. induction f1 as [|k f1 IH]; intros b; simpl.
  - by rewrite Nat.add_0_r.
  - rewrite IH, fsize_cons, <- app_assoc. do 3 f_equal. lia.
Qed.

Lemma child_refs_app b f1 f2 :
  child_refs b (f1 ++ f2) = child_refs b f1 ++ child_refs (b + fsize f1) f2.
Proof.
  revert b. induction f1 as [|k f1 IH]; intros b; simpl.
  - by rewrite Nat.add_0_r.
  - rewrite IH, fsize_cons. do 3 f_equal. lia.
Qed.

Lemma preorder_forest_app f1 f2 :
  preorder_forest (f1 ++ f2) = preorder_forest f1 ++ preorder_forest f2.
Proof. unfold preorder_forest. by rewrite map_app, concat_app. Qed.

(** ** The open headers *)

Lemma open_forest_close_above n sp :
  (0 < n)%nat -> open_forest (close_above n sp) = open_forest sp.
Proof.
  revert n. induction sp as [|f rest IH]; intros [|n] Hn; try done; try lia.
  destruct n as [|n].
  - simpl. by rewrite app_nil_r.
  - change (close_above (S (S n)) (f :: rest)) with (f :: close_above (S n) rest).
    cbn [open_forest]. rewrite IH by lia. done.
Qed.

Lemma frame_refs_close_above b n sp :
  frame_refs b (close_above n sp) = take n (frame_refs b sp).
Proof.
  revert b n. induction sp as [|f rest IH]; intros b [|n]; try done.
  destruct n as [|n].
  - simpl. by rewrite take_0.
  - change (close_above (S (S n)) (f :: rest)) with (f :: close_above (S n) rest).
    cbn [frame_refs take]. by rewrite IH.
Qed.

Lemma close_above_nonempty n sp :
  (0 < n)%nat -> sp <> [] -> close_above n sp <> [].
Proof. destruct n as [|[|n]], sp; try done; lia. Qed.

Lemma length_frame_refs b sp : length (frame_refs b sp) = length sp.
Proof.
  revert b. induction sp as [|f rest IH]; intros b; simpl; [done|].
  by rewrite IH.
Qed.

Lemma fsize_open_forest_cons f rest :
  fsize (open_forest (f :: rest)) =
  S (fsize (f_closed f) + fsize (open_forest rest)).
Proof.
  simpl. rewrite fsize_cons, tsize_eq, default_mk_children, fsize_app.
  unfold fsize at 3. simpl. lia.
Qed.

Lemma frame_refs_snoc b sp f :
  frame_refs b (sp ++ [f]) = frame_refs b sp ++ [(b + fsize (open_forest sp))%nat].
Proof.
  revert b. induction sp as [|g rest IH]; intros b.
  - simpl. by rewrite Nat.add_0_r.
  - rewrite fsize_open_forest_cons. simpl. rewrite IH. do 3 f_equal. lia.
Qed.

Lemma frame_refs_ge b sp r : r ∈ frame_refs b sp -> (b <= r)%nat.
Proof.
  revert b. induction sp as [|f rest IH]; intros b; simpl.
  - by intros ?%elem_of_nil.
  - intros [->|Hr%IH]%elem_of_cons; lia.
Qed.

Lemma child_refs_snoc b f k :
  child_refs b (f ++ [k]) = child_refs b f ++ [(b + fsize f)%nat].
Proof. by rewrite child_refs_app. Qed.

Lemma layout_open_cons b f rest :
  layout_forest b (open_forest (f :: rest)) =
  Dict (f_level f) (f_text f)
       (child_refs (S b) <$> mk_children (f_closed f ++ open_forest rest))
  :: layout_forest (S b) (f_closed f)
  ++ layout_forest (S b + fsize (f_closed f)) (open_forest rest).
Proof.
  cbn [open_forest layout_forest].
  rewrite app_nil_r, layout_tree_eq, default_mk_children.
  by rewrite layout_forest_app.
Qed.

(** Every open header is found in the heap at its reference. *)
Lemma frame_lookup sp b pre post :
  length pre = b ->
  Forall2 (fun r f => exists c,
             (pre ++ layout_forest b (open_forest sp) ++ post) !! r
             = Some (Dict (f_level f) (f_text f) c))
          (frame_refs b sp) sp.
Proof.
  revert b pre. induction sp as [|f rest IH]; intros b pre Hb; [constructor|].
  rewrite layout_open_cons. simpl frame_refs. constructor.
  - eexists. subst b. simpl. apply list_lookup_middle. done.
  - specialize (IH (S b + fsize (f_closed f))%nat
                   (pre ++ Dict (f_level f) (f_text f)
                      (child_refs (S b) <$> mk_children (f_closed f ++ open_forest rest))
                    :: layout_forest (S b) (f_closed f))).
    eapply Forall2_impl; [apply IH|].
    + rewrite length_app. simpl. rewrite length_layout_forest. lia.
    + intros r g [c Hc]. exists c. rewrite <- Hc. f_equal.
      by repeat (rewrite <- app_assoc || rewrite <- app_comm_cons).
Qed.

Lemma open_forest_snoc_singleton sp f :
  exists k, open_forest (sp ++ [f]) = [k].
Proof. destruct sp; simpl; eauto. Qed.

Lemma open_forest_singleton sp : sp <> [] -> exists k, open_forest sp = [k].
Proof. destruct sp; [done|]. simpl; eauto. Qed.

Lemma mk_children_snoc f k : mk_children (f ++ [k]) = Some (f ++ [k]).
Proof. by destruct f. Qed.

(** Appending a leaf under the innermost open header changes one
    dictionary, the header's, and allocates one. *)
Lemma layout_open_snoc sp l x b top :
  last (frame_refs b sp) = Some top ->
  layout_forest b (open_forest (sp ++ [Frame l x []])) =
  alter (append_child (b + fsize (open_forest sp))) (top - b)
        (layout_forest b (open_forest sp)) ++ [Dict l x None].
Proof.
  revert b. induction sp as [|f rest IH]; intros b Htop; [done|].
  change ((f :: rest) ++ [Frame l x []]) with (f :: (rest ++ [Frame l x []])).
  rewrite !layout_open_cons, fsize_open_forest_cons.
  destruct rest as [|g rest'].
  - simpl in Htop. injection Htop as <-. rewrite Nat.sub_diag.
    simpl. rewrite !app_nil_r. unfold append_child. simpl.
    rewrite mk_children_snoc. simpl. rewrite child_refs_snoc.
    assert (default [] (child_refs (S b) <$> mk_children (f_closed f))
            = child_refs (S b) (f_closed f)) as -> by (by destruct (f_closed f)).
    unfold fsize at 3. simpl. rewrite Nat.add_0_r.
    do 5 f_equal. lia.
  - assert (Htop' : last (frame_refs (S b + fsize (f_closed f)) (g :: rest')) = Some top).
    { rewrite <- Htop. simpl. done. }
    assert (S b + fsize (f_closed f) <= top)%nat as Hge.
    { eapply frame_refs_ge. eapply last_Some_elem_of. exact Htop'. }
    rewrite (IH _ Htop').
    destruct (open_forest_snoc_singleton (g :: rest') (Frame l x [])) as [k1 ->].
    destruct (open_forest_singleton (g :: rest')) as [k2 Hk2]; [done|].
    rewrite Hk2.
    replace (top - b)%nat
      with (S (length (layout_forest (S b) (f_closed f))
               + (top - (S b + fsize (f_closed f)))))%nat
      by (rewrite length_layout_forest; lia).
    match goal with
    | |- _ = alter ?fn (S ?i) (?d :: ?r) ++ _ =>
        change (alter fn (S i) (d :: r)) with (d :: alter fn i r)
    end.
    rewrite alter_app_r.
    rewrite !mk_children_snoc. cbn [fmap option_fmap option_map].
    rewrite !child_refs_snoc.
    rewrite <- app_comm_cons, <- app_assoc.
    replace (b + S (fsize (f_closed f) + fsize [k2]))%nat
      with (S b + fsize (f_closed f) + fsize [k2])%nat by lia.
    done.
Qed.

(** ** The loop body on the heap and on the forest *)

Lemma holds_heap_split h0 roots sp :
  st_heap (holds h0 (roots, sp)) =
  (h0 ++ layout_forest (length h0) roots)
  ++ layout_forest (length h0 + fsize roots) (open_forest sp) ++ [].
Proof.
  unfold holds, z_forest. simpl.
  by rewrite layout_forest_app, app_nil_r, app_assoc.
Qed.

Lemma holds_heap_length h0 z :
  length (st_heap (holds h0 z)) = (length h0 + fsize (z_forest z))%nat.
Proof. unfold holds. simpl. by rewrite length_app, length_layout_forest. Qed.

(** The test of the [while] loop reads the level of an open header. *)
Lemma level_ge_frames h0 roots sp level :
  Forall2 (fun r f => level_ge (st_heap (holds h0 (roots, sp))) level r
                      = (level <=? f_level f)%Z)
          (frame_refs (length h0 + fsize roots) sp) sp.
Proof.
  rewrite holds_heap_split.
  eapply Forall2_impl;
    [apply (frame_lookup sp (length h0 + fsize roots) (h0 ++ layout_forest (length h0) roots) [])|].
  - by rewrite length_app, length_layout_forest.
  - intros r f [c Hc]. unfold level_ge. by rewrite Hc.
Qed.

Lemma frame_refs_lt h0 roots sp r :
  r ∈ frame_refs (length h0 + fsize roots) sp ->
  (r < length (st_heap (holds h0 (roots, sp))))%nat.
Proof.
  intros [i Hi]%list_elem_of_lookup.
  pose proof (level_ge_frames h0 roots sp 0) as HF.
  destruct (Forall2_lookup_l _ _ _ _ _ HF Hi) as (f & _ & Hf).
  unfold level_ge in Hf.
  destruct (st_heap (holds h0 (roots, sp)) !! r) eqn:E.
  - by eapply lookup_lt_Some.
  - rewrite holds_heap_split in E.
    pose proof (frame_lookup sp (length h0 + fsize roots)
                  (h0 ++ layout_forest (length h0) roots) []) as HL.
    destruct (Forall2_lookup_l _ _ _ _ _ (HL ltac:(by rewrite length_app, length_layout_forest)) Hi)
      as (g & _ & c & Hg).
    congruence.
Qed.

Theorem push_header_holds h0 z level header_text :
  push_header level header_text (holds h0 z) =
  holds h0 (z_push level header_text z).
Proof.
  destruct z as [roots sp].
  unfold push_header.
  pose proof (pop_while_length_rel _ _ _ _ (level_ge_frames h0 roots sp level)) as Hn.
  pose proof (pop_while_length_le (fun f => (level <=? f_level f)%Z) sp) as Hle.
  rewrite (pop_while_take (level_ge _ _)).
  change (st_stack (holds h0 (roots, sp)))
    with (frame_refs (length h0 + fsize roots) sp) in *.
  rewrite Hn. unfold z_push.
  rewrite holds_heap_length.
  destruct (length (pop_while (fun f => (level <=? f_level f)%Z) sp)) as [|m] eqn:Em.
  - (* the stack is empty: a new root *)
    rewrite take_0. simpl last. unfold holds, z_forest. simpl.
    rewrite (layout_forest_app _ (roots ++ open_forest sp) [_]).
    rewrite (child_refs_app _ (roots ++ open_forest sp) [_]).
    simpl. by rewrite app_assoc.
  - (* a child of the innermost open header that is left *)
    remember (S m) as n eqn:Hnm.
    assert (Hsp : sp <> []) by (intros ->; simpl in Hle; lia).
    rewrite <- frame_refs_close_above.
    pose proof (close_above_nonempty n sp ltac:(lia) Hsp) as Hne.
    assert (Hrefs_ne : frame_refs (length h0 + fsize roots) (close_above n sp) <> []).
    { by destruct (close_above n sp). }
    apply last_is_Some in Hrefs_ne as [top Htop]. rewrite Htop.
    assert (Hin : top ∈ frame_refs (length h0 + fsize roots) sp).
    { apply last_Some_elem_of in Htop. rewrite frame_refs_close_above in Htop.
      by apply elem_of_take in Htop as (i & Hi & _); eapply list_elem_of_lookup_2. }
    pose proof (frame_refs_ge _ _ _ Hin) as Hge.
    pose proof (frame_refs_lt _ _ _ _ Hin) as Hlt.
    rewrite holds_heap_length in Hlt. unfold z_forest in Hlt. simpl in Hlt.
    rewrite fsize_app in Hlt.
    unfold holds, z_forest. simpl fst. simpl snd. cbn [st_heap st_headers st_stack].
    rewrite !layout_forest_app, !child_refs_app, !fsize_app.
    rewrite (layout_open_snoc _ _ _ _ top Htop).
    rewrite frame_refs_snoc.
    rewrite (open_forest_close_above n sp) by lia.
    destruct (open_forest_snoc_singleton (close_above n sp) (Frame level header_text []))
      as [k1 ->].
    destruct (open_forest_singleton sp Hsp) as [k2 Hk2]. rewrite Hk2. simpl child_refs.
    f_equal; [|f_equal; f_equal; lia].
    rewrite <- !app_assoc, (app_assoc h0).
    replace top with (length (h0 ++ layout_forest (length h0) roots)
                      + (top - (length h0 + fsize roots)))%nat at 1
      by (rewrite length_app, length_layout_forest; lia).
    rewrite alter_app_r, alter_app_l.
    + rewrite <- !app_assoc.
      by replace (length h0 + (fsize roots + fsize [k2]))%nat
        with (length h0 + fsize roots + fsize [k2])%nat by lia.
    + rewrite length_layout_forest, <- Hk2. lia.
Qed.

(** ** Reading the forest back from the heap *)

Lemma reify_forest_of_trees (P : HeaderNode -> Prop) fuel h :
  (forall n b pre post, P n -> (tsize n <= fuel)%nat ->
     h = pre ++ layout_tree b n ++ post -> length pre = b ->
     reify fuel h b = Some n) ->
  forall f, Forall P f -> forall b pre post,
    (fsize f <= fuel)%nat ->
    h = pre ++ layout_forest b f ++ post -> length pre = b ->
    Forall2 (fun r k => reify fuel h r = Some k) (child_refs b f) f.
Proof.
  intros Htree f Hf. induction Hf as [|k rest Hk _ IH]; intros b pre post Hsz Hh Hb.
  - constructor.
  - rewrite fsize_cons in Hsz. simpl. constructor.
    + eapply (Htree k b pre (layout_forest (b + tsize k) rest ++ post));
        [done|lia| |done].
      rewrite Hh. simpl. by rewrite <- app_assoc.
    + eapply (IH _ (pre ++ layout_tree b k) post); [lia| |].
      * rewrite Hh. simpl. by rewrite <- !app_assoc.
      * rewrite length_app, length_layout_tree. lia.
Qed.

Lemma reify_layout_tree n :
  forall fuel h b pre post,
    (tsize n <= fuel)%nat ->
    h = pre ++ layout_tree b n ++ post -> length pre = b ->
    reify fuel h b = Some n.
Proof.
  induction n as [l t|l t kids IH] using HeaderNode_forest_ind;
    intros fuel h b pre post Hsz Hh Hb.
  - destruct fuel as [|fuel]; [simpl in Hsz; lia|]. simpl.
    assert (h !! b = Some (Dict l t None)) as ->; [|done].
    subst h b. simpl. by apply list_lookup_middle.
  - rewrite tsize_eq in Hsz. rewrite layout_tree_eq in Hh. simpl in Hsz, Hh.
    destruct fuel as [|fuel]; [lia|]. simpl.
    assert (h !! b = Some (Dict l t (Some (child_refs (S b) kids)))) as ->.
    { subst h b. simpl. by apply list_lookup_middle. }
    simpl.
    assert (mapM (reify fuel h) (child_refs (S b) kids) = Some kids) as ->; [|done].
    apply mapM_Some.
    eapply (reify_forest_of_trees
              (fun n => forall fuel h b pre post, (tsize n <= fuel)%nat ->
                 h = pre ++ layout_tree b n ++ post -> length pre = b ->
                 reify fuel h b = Some n)
              fuel h _ kids IH (S b) (pre ++ [Dict l t (Some (child_refs (S b) kids))]) post).
    + lia.
    + rewrite Hh. by rewrite <- app_assoc.
    + rewrite length_app. simpl. lia.
    Unshelve. intros n b' pre' post' Hn. apply Hn.
Qed.

Lemma reify_layout_forest f fuel h b pre post :
  (fsize f <= fuel)%nat ->
  h = pre ++ layout_forest b f ++ post -> length pre = b ->
  mapM (reify fuel h) (child_refs b f) = Some f.
Proof.
  intros Hsz Hh Hb. apply mapM_Some.
  eapply (reify_forest_of_trees (fun _ => True)); eauto.
  - intros n b' pre' post' _. apply reify_layout_tree.
  - by apply Forall_true.
Qed.

(** The loop from a state that holds a forest. *)
Section WithPlatform.
Context `{Platform}.

Lemma run_lines_holds lines : forall h0 z,
  run_lines (holds h0 z) lines =
  match header_items lines with
  | Some its => Some (holds h0 (foldl (fun z it => z_push (fst it) (snd it) z) z its))
  | None => None
  end.
Proof.
  induction lines as [|line rest IH]; intros h0 z; simpl; [done|].
  unfold step. destruct (scan_line line) as [|level header_text|]; [apply IH| |done].
  rewrite push_header_holds, IH. by destruct (header_items rest).
Qed.

Lemma extract_headers_in_eq h0 markdown_text :
  extract_headers_in h0 markdown_text =
  match header_items (split nl (markdown markdown_text)) with
  | Some its =>
      Some (z_forest (z_run its),
            h0 ++ layout_forest (length h0) (z_forest (z_run its)))
  | None => None
  end.
Proof.
  unfold extract_headers_in.
  replace (State h0 [] []) with (holds h0 ([], [])).
  2:{ unfold holds, z_forest. simpl. by rewrite app_nil_r. }
  rewrite run_lines_holds.
  destruct (header_items _) as [its|]; [|done].
  fold (z_run its). unfold holds at 1 2 3. cbn [st_heap st_headers].
  erewrite (reify_layout_forest _ _ _ (length h0) h0 []); [done| |by rewrite app_nil_r|done].
  rewrite length_app, length_layout_forest. lia.
Qed.

End WithPlatform.

(** ** The forest the loop builds *)

Lemma children_deeper_eq l t c :
  children_deeper (Node l t c) = true <->
  Forall (deeper_than l) (default [] c).
Proof.
  unfold deeper_than. destruct c as [kids|]; simpl.
  - rewrite forallb_forall, Forall_forall. setoid_rewrite <- list_elem_of_In.
    split; intros Hk k Hin; specialize (Hk k Hin).
    + apply andb_prop in Hk as [?%Z.ltb_lt ?]. done.
    + destruct Hk as [?%Z.ltb_lt ->]. by rewrite andb_true_r.
  - split; [constructor|done].
Qed.

Lemma preorder_open_snoc sp l x :
  preorder_forest (open_forest (sp ++ [Frame l x []])) =
  preorder_forest (open_forest sp) ++ [(l, x)].
Proof.
  induction sp as [|f rest IH]; [done|].
  change ((f :: rest) ++ [Frame l x []]) with (f :: (rest ++ [Frame l x []])).
  cbn [open_forest]. unfold preorder_forest in *. cbn [map concat].
  rewrite !preorder_eq, !default_mk_children, !app_nil_r.
  unfold preorder_forest. rewrite !map_app, !concat_app, IH.
  by rewrite <- app_comm_cons, app_assoc.
Qed.

Lemma z_push_cases l x roots sp :
  let n := length (pop_while (fun f => (l <=? f_level f)%Z) sp) in
  (n = 0%nat /\ z_push l x (roots, sp)
               = (roots ++ open_forest sp, [Frame l x []]))
  \/ ((0 < n)%nat /\ z_push l x (roots, sp)
                    = (roots, close_above n sp ++ [Frame l x []])).
Proof.
  intros n. unfold z_push. fold n. destruct n; [by left|right]. split; [lia|done].
Qed.

Lemma z_push_preorder l x z :
  preorder_forest (z_forest (z_push l x z)) =
  preorder_forest (z_forest z) ++ [(l, x)].
Proof.
  destruct z as [roots sp].
  destruct (z_push_cases l x roots sp) as [[_ ->]|[Hn ->]];
    unfold z_forest; cbn [fst snd].
  - by rewrite preorder_forest_app.
  - rewrite !preorder_forest_app, preorder_open_snoc.
    rewrite open_forest_close_above by lia. by rewrite app_assoc.
Qed.

Lemma z_run_snoc its it :
  z_run (its ++ [it]) = z_push (fst it) (snd it) (z_run its).
Proof. unfold z_run. by rewrite foldl_snoc. Qed.

Lemma z_run_preorder its : preorder_forest (z_forest (z_run its)) = its.
Proof.
  induction its as [|it its IH] using rev_ind; [done|].
  rewrite z_run_snoc, z_push_preorder, IH. by destruct it.
Qed.

(** The levels of the open headers. *)
Lemma levels_close_above n sp :
  map f_level (close_above n sp) = take n (map f_level sp).
Proof.
  revert n. induction sp as [|f rest IH]; intros [|n]; try done.
  destruct n as [|n].
  - simpl. by rewrite take_0.
  - change (close_above (S (S n)) (f :: rest)) with (f :: close_above (S n) rest).
    cbn [map take]. by rewrite IH.
Qed.

Lemma z_push_levels l x z :
  map f_level (snd (z_push l x z)) =
  pop_while (fun a => (l <=? a)%Z) (map f_level (snd z)) ++ [l].
Proof.
  destruct z as [roots sp].
  destruct (z_push_cases l x roots sp) as [[Hn ->]|[Hn ->]]; cbn [fst snd].
  - rewrite pop_while_map. apply length_zero_iff_nil in Hn. by rewrite Hn.
  - rewrite map_app, levels_close_above. cbn [map f_level]. f_equal.
    rewrite <- length_map with (f := f_level), <- pop_while_map.
    by rewrite <- pop_while_take.
Qed.

Lemma z_run_levels its : map f_level (snd (z_run its)) = open_levels its.
Proof.
  induction its as [|it its IH] using rev_ind; [done|].
  rewrite z_run_snoc, z_push_levels, IH.
  unfold open_levels. by rewrite foldl_snoc.
Qed.

(** Nesting is kept. *)
Lemma spine_ok_open_forest lo sp :
  spine_ok lo sp ->
  Forall (fun k => above lo (level_of k) /\ children_deeper k = true)
         (open_forest sp).
Proof.
  revert lo. induction sp as [|f rest IH]; intros lo; [constructor|].
  intros (Hlo & Hclosed & Hrest). cbn [open_forest].
  constructor; [|constructor]. split; [done|].
  apply children_deeper_eq. rewrite default_mk_children.
  apply Forall_app. split; [done|]. apply IH in Hrest.
  eapply Forall_impl; [exact Hrest|]. by intros k [? ?].
Qed.

Lemma spine_ok_close_above lo n sp :
  (0 < n)%nat -> spine_ok lo sp -> spine_ok lo (close_above n sp).
Proof.
  revert lo n. induction sp as [|f rest IH]; intros lo [|n] Hn; try done; try lia.
  intros (Hlo & Hclosed & Hrest). destruct n as [|n].
  - simpl. split_and!; try done. apply Forall_app. split; [done|].
    apply spine_ok_open_forest in Hrest.
    eapply Forall_impl; [exact Hrest|]. by intros k [? ?].
  - change (close_above (S (S n)) (f :: rest)) with (f :: close_above (S n) rest).
    split_and!; try done. apply IH; [lia|done].
Qed.

Lemma spine_ok_snoc lo sp l x :
  spine_ok lo sp ->
  above (match last sp with Some f => Some (f_level f) | None => lo end) l ->
  spine_ok lo (sp ++ [Frame l x []]).
Proof.
  revert lo. induction sp as [|f rest IH]; intros lo.
  - simpl. intros _ Hl. split_and!; done.
  - intros (Hlo & Hclosed & Hrest) Hl.
    change ((f :: rest) ++ [Frame l x []]) with (f :: (rest ++ [Frame l x []])).
    split_and!; try done. apply IH; [done|].
    destruct rest as [|g rest']; [done|]. rewrite last_cons_cons in Hl.
    destruct (last (g :: rest')) eqn:E; [done|]. by apply last_None in E.
Qed.

Lemma z_push_ok l x z : z_ok z -> z_ok (z_push l x z).
Proof.
  destruct z as [roots sp]. intros [Hroots Hsp].
  destruct (z_push_cases l x roots sp) as [[Hn ->]|[Hn ->]]; split; cbn [fst snd].
  - apply Forall_app. split; [done|].
    apply spine_ok_open_forest in Hsp.
    eapply Forall_impl; [exact Hsp|]. by intros k [? ?].
  - simpl. split_and!; done.
  - done.
  - apply spine_ok_snoc; [apply spine_ok_close_above; [lia|done]|].
    destruct (last (close_above _ sp)) as [f|] eqn:Hlast; [|done].
    simpl.
    assert (last (map f_level (close_above
              (length (pop_while (fun f => (l <=? f_level f)%Z) sp)) sp))
            = Some (f_level f)) as Hl.
    { apply last_Some in Hlast as [? ->]. rewrite map_app. cbn [map].
      by rewrite last_snoc. }
    rewrite levels_close_above in Hl.
    rewrite <- length_map with (f := f_level), <- pop_while_map in Hl.
    rewrite <- pop_while_take in Hl.
    apply pop_while_last in Hl. by apply Z.leb_gt in Hl.
Qed.

Lemma z_run_ok its : z_ok (z_run its).
Proof.
  induction its as [|it its IH] using rev_ind.
  - split; [constructor|done].
  - rewrite z_run_snoc. by apply z_push_ok.
Qed.

Lemma z_ok_forest z : z_ok z -> forallb children_deeper (z_forest z) = true.
Proof.
  destruct z as [roots sp]. intros [Hroots Hsp]. unfold z_forest. simpl.
  apply forallb_forall. setoid_rewrite <- list_elem_of_In.
  apply Forall_forall, Forall_app. split; [done|].
  apply spine_ok_open_forest in Hsp.
  eapply Forall_impl; [exact Hsp|]. by intros k [? ?].
Qed.

(** A header attached as a root stays a root, at the same place. *)
Lemma close_above_head n l x c rest :
  (0 < n)%nat ->
  exists c' rest', close_above n (Frame l x c :: rest) = Frame l x c' :: rest'.
Proof. destruct n as [|[|n]]; [lia| |]; simpl; eauto. Qed.

Lemma root_kept f l x its : forall z,
  (fst z = f /\ exists c rest, snd z = Frame l x c :: rest)
  \/ (exists c more, fst z = f ++ Node l x c :: more) ->
  root_after (preorder_forest f) (l, x)
    (z_forest (foldl (fun z it => z_push (fst it) (snd it) z) z its)).
Proof.
  induction its as [|[l' x'] its IH]; intros [roots sp] Hz; cbn [foldl fst snd] in *.
  - destruct Hz as [[-> (c & rest & ->)]|(c & more & ->)]; unfold z_forest; cbn [fst snd].
    + cbn [open_forest]. by eexists f, _, [].
    + rewrite <- app_assoc, <- app_comm_cons. by eexists f, _, _.
  - apply IH.
    destruct (z_push_cases l' x' roots sp) as [[_ ->]|[Hn ->]]; cbn [fst snd].
    + right. destruct Hz as [[-> (c & rest & ->)]|(c & more & ->)].
      * cbn [open_forest]. by eexists _, [].
      * rewrite <- app_assoc, <- app_comm_cons. by eexists _, _.
    + destruct Hz as [[-> (c & rest & ->)]|(c & more & ->)]; [left|right].
      * split; [done|].
        destruct (close_above_head _ l x c rest Hn) as (c' & rest' & ->).
        by eexists _, _.
      * by eexists _, _.
Qed.

Lemma z_run_root pre x post :
  Forall (fun l => (fst x <= l)%Z) (open_levels pre) ->
  root_after pre x (z_forest (z_run (pre ++ x :: post))).
Proof.
  intros Hall. unfold z_run. rewrite foldl_app. cbn [foldl]. fold (z_run pre).
  rewrite <- (z_run_preorder pre) at 1. destruct x as [l x].
  apply root_kept. left. cbn [fst snd] in *.
  destruct (z_run pre) as [roots sp] eqn:Ez.
  destruct (z_push_cases l x roots sp) as [[_ ->]|[Hn _]].
  - split; [done|]. by eexists _, _.
  - rewrite pop_while_all in Hn; [simpl in Hn; lia|].
    rewrite <- z_run_levels, Ez in Hall. cbn [snd] in Hall.
    apply List.Forall_forall. intros f Hf. apply Z.leb_le.
    rewrite List.Forall_forall in Hall. by apply Hall, in_map.
Qed.

Lemma index_None c (s : str) : c ∉ s -> index c s = None.
Proof.
  induction s as [|x s IH]; intros Hc; simpl; [done|].
  apply not_elem_of_cons in Hc as [Hx Hs].
  destruct (N.eqb_spec x c) as [->|_]; [done|]. by rewrite IH.
Qed.

Section WithPlatform.
Context `{Platform}.

Lemma header_items_total lines :
  Forall (fun line => scan_line line <> Raises) lines ->
  exists its, header_items lines = Some its.
Proof.
  induction 1 as [|line rest Hline _ [its IH]]; simpl; [by eexists|].
  destruct (scan_line line); [eauto| |done]. rewrite IH. eauto.
Qed.

Lemma header_items_raises lines :
  Exists (fun line => scan_line line = Raises) lines ->
  header_items lines = None.
Proof.
  induction 1 as [line rest Hline|line rest _ IH]; simpl.
  - by rewrite Hline.
  - rewrite IH. by destruct (scan_line line).
Qed.

Lemma scan_line_unguarded (line : str) (c : char) :
  startswith (lit "<h") line = true ->
  line !! 2%nat = Some c ->
  isdigit c = true ->
  decimal c = None \/ 62%N ∉ line ->
  scan_line line = Raises.
Proof.
  intros Hstart Hc Hdigit Hbad. unfold scan_line. rewrite Hc, Hstart, Hdigit.
  simpl. destruct (decimal c) as [level|]; [|done].
  destruct Hbad as [|Hgt]; [done|]. by rewrite index_None.
Qed.

Lemma extract_headers_raising_line (markdown_text line : str) :
  line ∈ split nl (markdown markdown_text) ->
  scan_line line = Raises ->
  extract_headers markdown_text = None.
Proof.
  intros Hin Hscan. unfold extract_headers.
  rewrite extract_headers_in_eq, header_items_raises; [done|].
  apply Exists_exists. by exists line.
Qed.

(** C1: the guard of the loop lets through lines that the two statements
    after it cannot read. When a line of the rendered document starts
    with "<h" and a character that [isdigit] accepts, and [int] has no
    value for that character or the line holds no ">", the call raises
    [ValueError]: [extract_headers] returns no forest. *)
Theorem extract_headers_unguarded (markdown_text line : str) (c : char) :
  line ∈ split nl (markdown markdown_text) ->
  startswith (lit "<h") line = true ->
  line !! 2%nat = Some c ->
  isdigit c = true ->
  decimal c = None \/ 62%N ∉ line ->
  extract_headers markdown_text = None.
Proof.
  intros Hin Hstart Hc Hdigit Hbad.
  eapply extract_headers_raising_line; [exact Hin|].
  by eapply scan_line_unguarded.
Qed.

(** The same forest is built above any heap, whose dictionaries are left
    as they are. *)
Lemma extract_headers_in_frame (h0 : heap) (markdown_text : str) :
  extract_headers_in h0 markdown_text =
  match extract_headers markdown_text with
  | Some forest => Some (forest, h0 ++ layout_forest (length h0) forest)
  | None => None
  end.
Proof.
  unfold extract_headers. rewrite !extract_headers_in_eq.
  by destruct (header_items _).
Qed.

End WithPlatform.

(** C1, witness: a comment that holds the first line of a header tag.
    Python-Markdown returns a comment as it is; the second line of the
    document is "<h1", which passes the guard and holds no ">". A line
    "<h²>" passes the guard as well, and [int] raises on it. *)
Lemma extract_headers_unguarded_witness :
  let text := lit "<!--" ++ [nl] ++ lit "<h1" ++ [nl] ++ lit "-->" in
  split nl (@markdown raw_html text) = [lit "<!--"; lit "<h1"; lit "-->"]
  /\ (62%N ∉ lit "<h1")
  /\ @extract_headers raw_html text = None
  /\ @isdigit raw_html 178%N = true
  /\ @scan_line raw_html [60; 104; 178; 62]%N = Raises.
Proof.
  intros text.
  assert (Hlines : split nl (@markdown raw_html text)
                   = [lit "<!--"; lit "<h1"; lit "-->"]) by reflexivity.
  assert (Hgt : 62%N ∉ lit "<h1").
  { intros Hin%list_elem_of_In. vm_compute in Hin. intuition discriminate. }
  split; [exact Hlines|]. split; [exact Hgt|].
  split; [|split; reflexivity].
  apply (@extract_headers_unguarded raw_html text (lit "<h1") 49%N).
  - rewrite Hlines. apply list_elem_of_further, list_elem_of_here.
  - reflexivity.
  - reflexivity.
  - reflexivity.
  - right. exact Hgt.
Defined.

(** ** Locale, references and the table of contents *)

Lemma contains_chinese_spec text : contains_chinese text = true <-> has_cjk text.
Proof.
  unfold contains_chinese, has_cjk, is_cjk_char. rewrite existsb_exists.
  setoid_rewrite <- list_elem_of_In.
  split; intros (c & Hin & Hc); exists c; split; try done.
  - apply andb_prop in Hc as [?%N.leb_le ?%N.leb_le]. lia.
  - apply andb_true_intro. split; apply N.leb_le; lia.
Qed.

Lemma contains_chinese_false text : contains_chinese text = false <-> ~ has_cjk text.
Proof.
  rewrite <- contains_chinese_spec. by destruct (contains_chinese text).
Qed.

Lemma add_references_eq report urls is_chinese :
  add_references report urls is_chinese =
  report ++ [nl; nl; nl] ++ references_title is_chinese ++ [nl; nl]
  ++ concat (map bullet urls).
Proof.
  unfold add_references, references_title.
  by rewrite <- !app_assoc.
Qed.

Lemma split_line (line rest : str) :
  nl ∉ line -> split nl (line ++ nl :: rest) = line :: split nl rest.
Proof.
  induction line as [|a line IH]; intros Hnl; simpl.
  - done.
  - apply not_elem_of_cons in Hnl as [Ha Hline].
    destruct (N.eqb_spec a nl) as [->|_]; [done|].
    by rewrite IH.
Qed.







Section WithPlatform.
Context `{Platform}.

Lemma table_of_contents_in_eq h0 markdown_text :
  table_of_contents_in h0 markdown_text =
  match extract_headers markdown_text with
  | Some headers =>
      let is_chinese := contains_chinese (first_header_text headers) in
      Some ((toc_title is_chinese ++ generate_table_of_contents headers 0,
             is_chinese),
            h0 ++ layout_forest (length h0) headers)
  | None => None
  end.
Proof.
  unfold table_of_contents_in. rewrite extract_headers_in_frame.
  by destruct (extract_headers markdown_text).
Qed.

(** C8: the result of [table_of_contents] does not depend on the heap
    it runs on and it leaves the dictionaries that exist as they are, so
    a second call on the same text, after the first, returns the same
    table of contents and the same flag; when the first call raises, so
    does every other. *)
Theorem table_of_contents_deterministic (markdown_text : str) (h0 : heap) :
  fst <$> table_of_contents_in h0 markdown_text = table_of_contents markdown_text
  /\ match table_of_contents_in h0 markdown_text with
     | Some (out, h1) =>
         h0 `prefix_of` h1
         /\ exists h2, table_of_contents_in h1 markdown_text = Some (out, h2)
     | None => forall h, table_of_contents_in h markdown_text = None
     end.
Proof.
  unfold table_of_contents. rewrite !table_of_contents_in_eq.
  destruct (extract_headers markdown_text) as [headers|] eqn:E; cbn.
  - split_and!; [done|by eexists|].
    eexists. rewrite table_of_contents_in_eq, E. done.
  - split; [done|]. intros h. by rewrite table_of_contents_in_eq, E.
Qed.

(** C2: [contains_chinese] holds exactly of the texts with a character in
    U+4E00..U+9FFF. On a text for which [extract_headers] raises,
    [table_of_contents] raises too. On every other text it returns a
    flag that is true exactly when the forest has a first root and the
    text of that root has such a character, which is also the text of
    the first header line of the document; its result starts with the
    CJK title when the flag is true and with "## Table of Contents"
    otherwise, and [add_references] called with that flag puts the CJK
    references title, or else "## References". *)
Theorem locale_consistency (markdown_text report : str) (urls : list str) :
  (forall text, contains_chinese text = true <-> has_cjk text)
  /\ match extract_headers markdown_text with
     | None => table_of_contents markdown_text = None
     | Some headers =>
         exists toc is_cjk body bullets,
           table_of_contents markdown_text = Some (toc, is_cjk)
           /\ (is_cjk = true <->
                 exists first rest,
                   headers = first :: rest /\ has_cjk (text_of first))
           /\ (forall level text its,
                 header_items (split nl (markdown markdown_text))
                 = Some ((level, text) :: its) ->
                 (is_cjk = true <-> has_cjk text))
           /\ toc = (if is_cjk then lit "## " ++ [30446; 24405]%N ++ [nl; nl]
                     else lit "## Table of Contents" ++ [nl; nl]) ++ body
           /\ add_references report urls is_cjk
              = report ++ [nl; nl; nl]
                ++ (if is_cjk then lit "## " ++ [21442; 32771; 36164; 26009]%N
                    else lit "## References")
                ++ [nl; nl] ++ bullets
     end.
Proof.
  split; [apply contains_chinese_spec|].
  unfold table_of_contents. rewrite table_of_contents_in_eq.
  destruct (extract_headers markdown_text) as [headers|] eqn:Hheaders; [|done].
  cbn. eexists _, _, _, _. split; [done|].
  assert (Hfirst : contains_chinese (first_header_text headers) = true <->
            exists first rest, headers = first :: rest /\ has_cjk (text_of first)).
  { rewrite contains_chinese_spec. destruct headers as [|first rest]; simpl.
    - split; [intros (c & Hc%elem_of_nil & _); done|by intros (? & ? & [=] & _)].
    - split; [by eexists _, _|]. by intros (? & ? & [= <- <-] & ?). }
  split_and!.
  - exact Hfirst.
  - intros level text its Hits. rewrite Hfirst.
    unfold extract_headers in Hheaders.
    rewrite extract_headers_in_eq, Hits in Hheaders. injection Hheaders as <-.
    pose proof (z_run_preorder ((level, text) :: its)) as Hpre.
    destruct (z_forest (z_run ((level, text) :: its))) as [|[l t c] rest];
      [done|].
    unfold preorder_forest in Hpre. simpl in Hpre. injection Hpre as -> -> _.
    split; [by intros (? & ? & [= <- <-] & ?)|by eexists _, _].
  - by destruct (contains_chinese _).
  - rewrite add_references_eq. by destruct (contains_chinese _).
Qed.

End WithPlatform.

(** C2, witness: a report with two root headers, the first in Chinese
    and the second not; and the same first header before a comment that
    holds the first line of a header tag, on which [table_of_contents]
    raises. *)
Lemma locale_consistency_witness :
  let text := lit "<h1>" ++ [30740; 31350]%N ++ lit "</h1>" ++ [nl]
              ++ lit "<h1>intro</h1>" in
  let broken := lit "<h1>" ++ [30740; 31350]%N ++ lit "</h1>" ++ [nl]
                ++ lit "<!--" ++ [nl] ++ lit "<h1" ++ [nl] ++ lit "-->" in
  @extract_headers raw_html text
  = Some [Node 1 [30740; 31350]%N None; Node 1 (lit "intro") None]
  /\ (exists body,
        @table_of_contents raw_html text
        = Some (lit "## " ++ [30446; 24405]%N ++ [nl; nl] ++ body, true))
  /\ @header_items raw_html (take 1 (split nl (@markdown raw_html broken)))
     = Some [(1%Z, [30740; 31350]%N)]
  /\ @table_of_contents raw_html broken = None.
Proof.
  intros text broken.
  assert (Hh : @extract_headers raw_html text
               = Some [Node 1 [30740; 31350]%N None; Node 1 (lit "intro") None])
    by reflexivity.
  assert (Hb : @extract_headers raw_html broken = None) by reflexivity.
  split; [exact Hh|].
  pose proof (@locale_consistency raw_html text [] []) as [_ Hyes].
  pose proof (@locale_consistency raw_html broken [] []) as [_ Hno].
  rewrite Hh in Hyes. rewrite Hb in Hno.
  destruct Hyes as (toc & is_cjk & body & bullets & Htoc & Hflag & _ & Hbody & _).
  assert (Hc : is_cjk = true).
  { apply Hflag. eexists _, _. split; [reflexivity|].
    exists 30740%N. split; [apply list_elem_of_here|lia]. }
  rewrite Hc in Htoc, Hbody.
  split; [|split; [reflexivity|exact Hno]].
  exists body. rewrite Htoc, Hbody. by rewrite <- !app_assoc.
Defined.

(** ** Sections *)

Section WithPlatform.
Context `{Platform}.

Lemma open_tag_at_inv s :
  open_tag_at s = true ->
  exists d rest, s = [60; 104; d; 62]%N ++ rest /\ re_digit d = true.
Proof.
  destruct s as [|a [|b [|d [|e rest]]]]; try done. simpl.
  intros Ht. repeat (apply andb_prop in Ht as [Ht ?]).
  apply N.eqb_eq in Ht as ->.
  repeat match goal with E : (_ =? _)%N = true |- _ => apply N.eqb_eq in E as -> end.
  by exists d, rest.
Qed.

Lemma close_tag_at_inv s :
  close_tag_at s = true ->
  exists d rest, s = [60; 47; 104; d; 62]%N ++ rest /\ re_digit d = true.
Proof.
  destruct s as [|a [|b [|c [|d [|e rest]]]]]; try done. simpl.
  intros Ht. repeat (apply andb_prop in Ht as [Ht ?]).
  apply N.eqb_eq in Ht as ->.
  repeat match goal with E : (_ =? _)%N = true |- _ => apply N.eqb_eq in E as -> end.
  by exists d, rest.
Qed.

(** The title group ends at the first closing tag. *)
Lemma find_close_spec s title after :
  find_close s = Some (title, after) ->
  exists d,
    s = title ++ [60; 47; 104; d; 62]%N ++ after
    /\ re_digit d = true
    /\ forall i, (i < length title)%nat -> close_tag_at (drop i s) = false.
Proof.
  revert title after. induction s as [|c s IH]; intros title after.
  - done.
  - cbn [find_close]. destruct (close_tag_at (c :: s)) eqn:Hc.
    + intros [= <- <-]. apply close_tag_at_inv in Hc as (d & rest & Hs & Hd).
      simpl in Hs. injection Hs as -> ->.
      exists d. split_and!; [done|done|]. intros i Hi; simpl in Hi; lia.
    + destruct (find_close s) as [[title' after']|] eqn:Hf; [|done].
      intros [= <- <-]. destruct (IH title' after' eq_refl) as (d & Hs & Hd & Hno).
      exists d. split_and!; [by rewrite Hs|done|].
      intros [|i] Hi; [done|]. simpl. apply Hno. simpl in Hi. lia.
Qed.

(** The content group ends at the first opening tag, or at [$]. *)
Lemma take_body_spec s :
  exists post,
    s = take_body s ++ post
    /\ open_tag_at post || at_dollar post = true
    /\ forall i, (i < length (take_body s))%nat ->
         open_tag_at (drop i s) || at_dollar (drop i s) = false.
Proof.
  induction s as [|c s (post & Hs & Hpost & Hno)].
  - exists []. split_and!; [done|done|]. intros i Hi; simpl in Hi; lia.
  - cbn [take_body].
    destruct (open_tag_at (c :: s) || at_dollar (c :: s)) eqn:Hc.
    + exists (c :: s). split_and!; [done|done|]. intros i Hi; simpl in Hi; lia.
    + exists post. split_and!; [simpl; by rewrite <- Hs|done|].
      intros [|i] Hi; [done|]. simpl. apply Hno. simpl in Hi. lia.
Qed.

(** Every match is a header, its text up to the first closing tag, and
    what follows up to the next header or the end of the document. *)
Lemma findall_sound s : forall skip title content,
  (title, content) ∈ findall skip s ->
  exists pre d d' post,
    s = pre ++ [60; 104; d; 62]%N ++ title
        ++ [60; 47; 104; d'; 62]%N ++ content ++ post
    /\ re_digit d = true /\ re_digit d' = true
    /\ open_tag_at post || at_dollar post = true.
Proof.
  induction s as [|c s IH]; intros skip title content; [by intros ?%elem_of_nil|].
  assert (Hrec : forall k, (title, content) ∈ findall k s ->
            exists pre d d' post,
              c :: s = pre ++ [60; 104; d; 62]%N ++ title
                       ++ [60; 47; 104; d'; 62]%N ++ content ++ post
              /\ re_digit d = true /\ re_digit d' = true
              /\ open_tag_at post || at_dollar post = true).
  { intros k (pre & d & d' & post & -> & ?)%IH. by exists (c :: pre), d, d', post. }
  cbn [findall]. destruct skip as [|k]; [|apply Hrec].
  destruct (open_tag_at (c :: s)) eqn:Hopen; [|apply Hrec].
  destruct (find_close (drop 4 (c :: s))) as [[title' after]|] eqn:Hclose; [|apply Hrec].
  intros [[= -> ->]|Hin]%elem_of_cons; [|by eapply Hrec].
  apply open_tag_at_inv in Hopen as (d & rest & Hs & Hd).
  rewrite Hs in Hclose. simpl in Hclose.
  apply find_close_spec in Hclose as (d' & Hrest & Hd' & _).
  destruct (take_body_spec after) as (post & Hafter & Hpost & _).
  rewrite drop_0 in Hrest.
  exists [], d, d', post. rewrite Hs, Hrest.
  split_and!; try done. by rewrite <- Hafter.
Qed.

End WithPlatform.

Lemma section_of_Some m sec :
  section_of m = Some sec <->
  strip (strip_tags 0 (snd m)) <> []
  /\ sec = Section_ (strip (fst m)) (strip (strip_tags 0 (snd m))).
Proof.
  destruct m as [title content]. unfold section_of. simpl.
  destruct (strip (strip_tags 0 content)); split.
  - done.
  - by intros [? _].
  - by intros [= <-].
  - by intros [_ ->].
Qed.


Lemma occurs_cons p c (s : str) : occurs p (c :: s) = p (c :: s) || occurs p s.
Proof. done. Qed.

Lemma occurs_drop p n (s : str) : occurs p s = false -> occurs p (drop n s) = false.
Proof.
  revert s. induction n as [|n IH]; intros s; [by rewrite drop_0|].
  destruct s as [|c s]; [done|]. rewrite occurs_cons.
  intros [_ Hs]%orb_false_elim. by apply IH.
Qed.

Lemma occurs_head p (s : str) : occurs p s = false -> p s = false.
Proof. destruct s; simpl; by intros [? _]%orb_false_elim. Qed.

Lemma lstrip_app (s t : str) :
  lstrip (s ++ t) = if decide (lstrip s = []) then lstrip t else lstrip s ++ t.
Proof.
  induction s as [|a s IH]; simpl; [done|].
  destruct (isspace a); [done|]. by case_decide.
Qed.

Lemma strip_snoc_space (s : str) c : isspace c = true -> strip (s ++ [c]) = strip s.
Proof.
  intros Hc. unfold strip. rewrite lstrip_app. case_decide as Hs.
  - rewrite Hs. simpl. by rewrite Hc.
  - rewrite rev_app_distr. simpl. by rewrite Hc.
Qed.

Lemma find_gt_app_nl (x : str) : find_gt (x ++ [nl]) = find_gt x.
Proof.
  induction x as [|c x IH]; simpl; [done|].
  destruct (c =? 62)%N; [done|]. destruct (c =? nl)%N; [done|]. by rewrite IH.
Qed.

Lemma find_gt_lt (s : str) n : find_gt s = Some n -> (n < length s)%nat.
Proof.
  revert n. induction s as [|c s IH]; intros n; simpl; [done|].
  destruct (c =? 62)%N; [intros [= <-]; lia|].
  destruct (c =? nl)%N; [done|].
  destruct (find_gt s) as [m|]; [|done]. intros [= <-].
  specialize (IH m eq_refl). lia.
Qed.

Lemma strip_tags_app_nl (b : str) : forall k,
  (k <= length b)%nat -> strip_tags k (b ++ [nl]) = strip_tags k b ++ [nl].
Proof.
  induction b as [|c b IH]; intros k Hk; simpl in *.
  - by replace k with 0%nat by lia.
  - destruct k as [|k]; [|apply IH; lia].
    rewrite find_gt_app_nl. destruct (c =? 60)%N.
    + destruct (find_gt b) as [n|] eqn:Hf.
      * apply IH. apply find_gt_lt in Hf. lia.
      * simpl. f_equal. apply IH. lia.
    + simpl. f_equal. apply IH. lia.
Qed.

Lemma section_of_chomp title (b : str) :
  section_of (title, b ++ [nl]) = section_of (title, b).
Proof.
  unfold section_of. rewrite strip_tags_app_nl by lia.
  by rewrite strip_snoc_space.
Qed.

Lemma strip_tags_skip (a : str) : forall s k,
  strip_tags (length a + k) (a ++ s) = strip_tags k s.
Proof. induction a as [|x a IH]; intros s k; [done|]. simpl. apply IH. Qed.

Lemma strip_tags_text (t s : str) :
  60%N ∉ t -> strip_tags 0 (t ++ s) = t ++ strip_tags 0 s.
Proof.
  induction t as [|c t IH]; intros Ht; [done|].
  apply not_elem_of_cons in Ht as [Hc Ht]. simpl.
  destruct (N.eqb_spec c 60) as [->|_]; [done|]. by rewrite IH.
Qed.

Lemma find_gt_tag (inner s : str) :
  62%N ∉ inner -> nl ∉ inner -> find_gt (inner ++ 62%N :: s) = Some (length inner).
Proof.
  induction inner as [|c inner IH]; intros Hgt Hnl; simpl; [done|].
  apply not_elem_of_cons in Hgt as [Hc Hgt].
  apply not_elem_of_cons in Hnl as [Hc' Hnl].
  destruct (N.eqb_spec c 62) as [->|_]; [done|].
  destruct (N.eqb_spec c nl) as [->|_]; [done|]. by rewrite IH.
Qed.

Lemma strip_tags_tagged (text0 : str) (pieces : list (str * str)) :
  60%N ∉ text0 ->
  Forall (fun p => (62%N ∉ fst p) /\ (nl ∉ fst p) /\ (60%N ∉ snd p)) pieces ->
  strip_tags 0 (text0 ++ tagged pieces) = text0 ++ concat (map snd pieces).
Proof.
  intros Ht Hall. rewrite strip_tags_text by done. f_equal.
  induction Hall as [|[inner text] pieces (Hgt & Hnl & Hlt) _ IH]; [done|].
  unfold tagged in *. cbn [map concat fst snd] in *.
  set (rest := concat (map _ pieces)) in *.
  replace (([60%N] ++ inner ++ [62%N] ++ text) ++ rest)
    with (60%N :: inner ++ 62%N :: (text ++ rest))
    by (simpl; by rewrite <- !app_assoc).
  cbn [strip_tags]. rewrite N.eqb_refl, find_gt_tag by done.
  replace (S (length inner)) with (length (inner ++ [62%N]) + 0)%nat
    by (rewrite length_app; simpl; lia).
  replace (inner ++ 62%N :: (text ++ rest))
    with ((inner ++ [62%N]) ++ text ++ rest)
    by (by rewrite <- app_assoc).
  rewrite strip_tags_skip, strip_tags_text by done. by rewrite IH.
Qed.

Section WithPlatform.
Context `{Platform}.

Lemma open_tag_at_open d rest : re_digit d = true -> open_tag_at (open_tag d ++ rest) = true.
Proof. intros Hd. simpl. by rewrite Hd. Qed.

Lemma close_tag_at_close d rest :
  re_digit d = true -> close_tag_at (close_tag d ++ rest) = true.
Proof. intros Hd. simpl. by rewrite Hd. Qed.

(** A match of [<h\d>] does not begin in a text and end in the opening
    tag that follows the text. *)
Lemma open_tag_at_app (p rest : str) :
  p <> [] -> rest = [] \/ open_tag_at rest = true ->
  open_tag_at (p ++ rest) = open_tag_at p.
Proof.
  intros Hp [->|Hr]; [by rewrite app_nil_r|].
  apply open_tag_at_inv in Hr as (d & r & -> & Hd).
  destruct p as [|a [|b [|c [|e p']]]]; [done| | | |done];
    cbn -[re_digit]; rewrite ?andb_false_r; reflexivity.
Qed.

Lemma close_tag_at_app (p : str) d rest :
  p <> [] -> close_tag_at (p ++ close_tag d ++ rest) = close_tag_at p.
Proof.
  intros Hp.
  destruct p as [|a [|b [|c [|e [|f p']]]]]; [done| | | | |done];
    cbn -[re_digit]; rewrite ?andb_false_r; reflexivity.
Qed.

Lemma find_close_title (title : str) d after :
  occurs close_tag_at title = false -> re_digit d = true ->
  find_close (title ++ close_tag d ++ after) = Some (title, after).
Proof.
  intros Hno Hd. induction title as [|c title IH].
  - cbn [app]. unfold close_tag. cbn -[re_digit]. by rewrite Hd.
  - rewrite occurs_cons in Hno. apply orb_false_elim in Hno as [Hc Hno].
    change ((c :: title) ++ close_tag d ++ after)
      with (c :: (title ++ close_tag d ++ after)).
    cbn [find_close].
    change (c :: (title ++ close_tag d ++ after))
      with ((c :: title) ++ close_tag d ++ after).
    rewrite close_tag_at_app, Hc by done. by rewrite IH.
Qed.

Lemma find_close_none (s : str) : occurs close_tag_at s = false -> find_close s = None.
Proof.
  induction s as [|c s IH]; intros Hno.
  - done.
  - rewrite occurs_cons in Hno. apply orb_false_elim in Hno as [Hc Hno].
    cbn [find_close]. by rewrite Hc, IH.
Qed.

Lemma take_body_next (body rest : str) :
  occurs open_tag_at body = false -> open_tag_at rest = true ->
  take_body (body ++ rest) = body.
Proof.
  intros Hno Hrest. induction body as [|c body IH].
  - cbn [app]. destruct rest; [done|]. cbn [take_body]. by rewrite Hrest.
  - rewrite occurs_cons in Hno. apply orb_false_elim in Hno as [Hc Hno].
    change ((c :: body) ++ rest) with (c :: (body ++ rest)). cbn [take_body].
    change (c :: (body ++ rest)) with ((c :: body) ++ rest).
    rewrite open_tag_at_app, Hc by eauto.
    assert (at_dollar ((c :: body) ++ rest) = false) as ->.
    { apply open_tag_at_inv in Hrest as (d & r & -> & _).
      by destruct body as [|? [|? ?]]. }
    cbn [orb]. by rewrite IH.
Qed.

Lemma take_body_end (body : str) :
  occurs open_tag_at body = false ->
  take_body body = body \/ take_body body ++ [nl] = body.
Proof.
  induction body as [|c body IH]; intros Hno; [by left|].
  rewrite occurs_cons in Hno. apply orb_false_elim in Hno as [Hc Hno].
  cbn [take_body]. rewrite Hc. cbn [orb].
  destruct (at_dollar (c :: body)) eqn:Hd.
  - right. destruct body as [|? ?]; [|done]. simpl in Hd.
    apply N.eqb_eq in Hd as ->. done.
  - destruct (IH Hno) as [->|Heq]; [by left|right]. simpl. by rewrite Heq.
Qed.

Lemma findall_skip (a : str) : forall s k,
  findall (length a + k) (a ++ s) = findall k s.
Proof. induction a as [|x a IH]; intros s k; [done|]. simpl. apply IH. Qed.

Lemma findall_no_close (s : str) : forall k,
  occurs close_tag_at s = false -> findall k s = [].
Proof.
  induction s as [|c s IH]; intros k Hno; [done|].
  pose proof Hno as Hno'. rewrite occurs_cons in Hno'.
  apply orb_false_elim in Hno' as [_ Hs].
  cbn [findall]. destruct k as [|k]; [|by apply IH].
  destruct (open_tag_at (c :: s)); [|by apply IH].
  rewrite find_close_none by (by apply occurs_drop). by apply IH.
Qed.

Lemma findall_pre (pre rest : str) :
  occurs open_tag_at pre = false -> rest = [] \/ open_tag_at rest = true ->
  findall 0 (pre ++ rest) = findall 0 rest.
Proof.
  intros Hno Hrest. induction pre as [|c pre IH]; [done|].
  rewrite occurs_cons in Hno. apply orb_false_elim in Hno as [Hc Hno].
  change ((c :: pre) ++ rest) with (c :: (pre ++ rest)). cbn [findall].
  change (c :: (pre ++ rest)) with ((c :: pre) ++ rest).
  rewrite open_tag_at_app, Hc by done. by apply IH.
Qed.

(** The first match of the pattern in a text that starts with a
    header. *)
Lemma findall_block d (title : str) d' (after : str) :
  re_digit d = true -> re_digit d' = true ->
  occurs close_tag_at title = false ->
  findall 0 (open_tag d ++ title ++ close_tag d' ++ after)
  = (title, take_body after)
    :: findall 0 (drop (length (take_body after)) after).
Proof.
  intros Hd Hd' Hno.
  change (open_tag d ++ title ++ close_tag d' ++ after)
    with (60%N :: [104; d; 62]%N ++ title ++ close_tag d' ++ after).
  cbn [findall].
  change (60%N :: [104; d; 62]%N ++ title ++ close_tag d' ++ after)
    with (open_tag d ++ title ++ close_tag d' ++ after).
  rewrite open_tag_at_open by done.
  change (drop 4 (open_tag d ++ title ++ close_tag d' ++ after))
    with (title ++ close_tag d' ++ after).
  rewrite find_close_title by done. f_equal.
  destruct (take_body_spec after) as (post & Hafter & _ & _).
  set (content := take_body after) in *.
  assert (Hdrop : drop (length content) after = post).
  { rewrite Hafter at 1. by rewrite drop_app_length. }
  rewrite Hdrop.
  replace ([104; d; 62]%N ++ title ++ close_tag d' ++ after)
    with (([104; d; 62]%N ++ title ++ close_tag d' ++ content) ++ post).
  2:{ rewrite <- !app_assoc. by rewrite <- Hafter. }
  replace (4 + length title + 5 + length content - 1)%nat
    with (length ([104; d; 62]%N ++ title ++ close_tag d' ++ content) + 0)%nat.
  2:{ rewrite !length_app. simpl. lia. }
  apply findall_skip.
Qed.

Lemma block_section_eq b : block_section b = section_of (hb_title b, hb_body b).
Proof. unfold block_section, section_of. by destruct (strip _). Qed.

Lemma blocks_start (blocks : list header_block) (tail : str) :
  Forall well_formed_block blocks -> unclosed tail ->
  let rest := concat (map block_text blocks) ++ tail in
  (rest = [] /\ blocks = []) \/ open_tag_at rest = true.
Proof.
  intros Hall Htail. destruct Hall as [|b blocks (Hd & _) _]; cbn [map concat].
  - destruct Htail as [->|[Ht _]]; [by left|by right].
  - right. unfold block_text. rewrite <- !app_assoc. by apply open_tag_at_open.
Qed.

Lemma findall_blocks (blocks : list header_block) (tail : str) :
  Forall well_formed_block blocks -> unclosed tail ->
  omap section_of (findall 0 (concat (map block_text blocks) ++ tail))
  = omap block_section blocks.
Proof.
  intros Hall Htail. induction Hall as [|b blocks Hb Hall IH].
  - cbn [map concat app omap]. destruct Htail as [->|[_ Hno]]; [done|].
    by rewrite findall_no_close.
  - destruct Hb as (Hd & Hd' & Htitle & Hbody).
    cbn [map concat]. unfold block_text at 1. rewrite <- !app_assoc.
    set (rest := concat (map block_text blocks) ++ tail) in *.
    rewrite findall_block by done.
    cbn [omap list_omap]. rewrite block_section_eq.
    destruct (blocks_start blocks tail Hall Htail) as [[Hrest ->]|Hrest];
      fold rest in Hrest.
    + rewrite Hrest, app_nil_r.
      destruct (take_body_end _ Hbody) as [Heq|Heq].
      * rewrite Heq, drop_all. done.
      * remember (take_body (hb_body b)) as tb eqn:Htb. rewrite <- Heq.
        rewrite drop_app_length, section_of_chomp. done.
    + rewrite take_body_next by done. rewrite drop_app_length.
      fold (omap section_of (findall 0 rest)). rewrite IH.
      done.
Qed.

Lemma open_tag_at_mono (a b : str) :
  open_tag_at a = true -> open_tag_at (a ++ b) = true.
Proof.
  intros (d & r & -> & Hd)%open_tag_at_inv. rewrite <- app_assoc.
  by apply (open_tag_at_open d).
Qed.

Lemma close_tag_at_mono (a b : str) :
  close_tag_at a = true -> close_tag_at (a ++ b) = true.
Proof.
  intros (d & r & -> & Hd)%close_tag_at_inv. rewrite <- app_assoc.
  by apply (close_tag_at_close d).
Qed.

Lemma occurs_of_positions (p : str -> bool) (t x : str) :
  p [] = false -> (forall a b, p a = true -> p (a ++ b) = true) ->
  (forall i, (i < length t)%nat -> p (drop i (t ++ x)) = false) ->
  occurs p t = false.
Proof.
  intros Hnil Hmono. induction t as [|c t IH]; intros Hpos.
  - simpl. by rewrite Hnil.
  - rewrite occurs_cons. apply orb_false_intro.
    + destruct (p (c :: t)) eqn:Hp; [|done].
      rewrite <- (Hpos 0%nat) by (simpl; lia). symmetry.
      rewrite drop_0. by apply Hmono.
    + apply IH. intros i Hi. apply (Hpos (S i)). simpl. lia.
Qed.

Lemma find_close_None_occurs (s : str) :
  find_close s = None -> occurs close_tag_at s = false.
Proof.
  induction s as [|c s IH]; [done|]. cbn [find_close]. rewrite occurs_cons.
  destruct (close_tag_at (c :: s)); [done|].
  destruct (find_close s) as [[? ?]|]; [done|]. intros _. by rewrite IH.
Qed.

Lemma occurs_close_open_tag d (r : str) :
  occurs close_tag_at r = false -> occurs close_tag_at (open_tag d ++ r) = false.
Proof.
  intros Hr. unfold open_tag. cbn [app]. rewrite !occurs_cons, Hr.
  destruct r as [|? [|? [|? [|? ?]]]]; cbn -[re_digit];
    rewrite ?andb_false_r; reflexivity.
Qed.

(** Every text splits at its first header. *)
Lemma first_open (doc : str) :
  exists pre s,
    doc = pre ++ s /\ occurs open_tag_at pre = false
    /\ (s = [] \/ open_tag_at s = true).
Proof.
  induction doc as [|c doc (pre & s & -> & Hpre & Hs)].
  - exists [], []. auto.
  - destruct (open_tag_at (c :: pre ++ s)) eqn:Hc.
    + exists [], (c :: pre ++ s). auto.
    + exists (c :: pre), s. split_and!; [done| |done].
      rewrite occurs_cons, Hpre, orb_false_r.
      destruct (open_tag_at (c :: pre)) eqn:Hp; [|done].
      rewrite <- Hc. symmetry. by apply (open_tag_at_mono (c :: pre) s).
Qed.

(** A text that starts with a header splits into headers with their
    bodies and, at the end, a header that is not closed. *)
Lemma blocks_exist (n : nat) : forall s : str,
  (length s <= n)%nat -> s = [] \/ open_tag_at s = true ->
  exists blocks tail,
    s = concat (map block_text blocks) ++ tail
    /\ Forall well_formed_block blocks /\ unclosed tail.
Proof.
  induction n as [|n IH]; intros s Hlen Hs.
  { destruct s; [|simpl in Hlen; lia]. exists [], []. split_and!; [done..|by left]. }
  destruct Hs as [->|Hopen]; [exists [], []; split_and!; [done..|by left]|].
  pose proof Hopen as (d & r & -> & Hd)%open_tag_at_inv.
  fold (open_tag d) in *.
  destruct (find_close r) as [[title after]|] eqn:Hclose.
  2:{ exists [], (open_tag d ++ r). split_and!; [done..|]. right.
      split; [done|]. by apply occurs_close_open_tag, find_close_None_occurs. }
  apply find_close_spec in Hclose as (d' & -> & Hd' & Htitle).
  fold (close_tag d') in *.
  assert (Hno : occurs close_tag_at title = false).
  { eapply occurs_of_positions; [done|apply close_tag_at_mono|exact Htitle]. }
  destruct (take_body_spec after) as (post & Hafter & Hpost & Hbody).
  assert (Hnob : occurs open_tag_at (take_body after) = false).
  { eapply (occurs_of_positions _ _ post); [done|apply open_tag_at_mono|].
    intros i Hi. rewrite <- Hafter.
    by destruct (orb_false_elim _ _ (Hbody i Hi)). }
  destruct (open_tag_at post) eqn:Hp.
  - destruct (IH post) as (blocks & tail & Hrest & Hall & Htail); [|by right|].
    { rewrite Hafter in Hlen. rewrite !length_app in Hlen. simpl in Hlen. lia. }
    exists (HeaderBlock d title d' (take_body after) :: blocks), tail.
    split_and!; [|by constructor|done].
    cbn [map concat]. rewrite <- app_assoc, <- Hrest.
    unfold block_text. cbn [hb_open hb_title hb_close hb_body].
    rewrite <- !app_assoc. by rewrite <- Hafter.
  - exists [HeaderBlock d title d' after], []. split_and!; [| |by left].
    + cbn [map concat]. unfold block_text. cbn [hb_open hb_title hb_close hb_body].
      by rewrite !app_nil_r.
    + constructor; [|constructor]. unfold well_formed_block.
      cbn [hb_open hb_title hb_close hb_body]. split_and!; try done.
      simpl in Hpost. rewrite Hafter.
      destruct post as [|c [|? ?]]; [by rewrite app_nil_r| |done].
      simpl in Hpost. apply N.eqb_eq in Hpost as ->.
      eapply (occurs_of_positions _ _ []); [done|apply open_tag_at_mono|].
      intros i Hi. rewrite app_nil_r. rewrite length_app in Hi. simpl in Hi.
      destruct (decide (i < length (take_body after))%nat) as [Hlt|Hge].
      * rewrite <- Hafter. by destruct (orb_false_elim _ _ (Hbody i Hlt)).
      * replace i with (length (take_body after)) by lia.
        by rewrite drop_app_length.
Qed.

(** C4, as amended: the rendered document of every text splits into a
    text that holds no opening tag "<hN>", then headers, each made of an
    opening tag "<hN>", a title that holds no closing tag "</hN>", a
    closing tag and a body that holds no opening tag (the text up to the
    next header or the end of the document), and possibly at the end an
    opening tag that no closing tag follows. For such a splitting
    [extract_sections] returns, in the order of the document, one
    section for each header whose body, without its tags and trimmed, is
    not empty, with the trimmed title and that content, and none for the
    other headers; no section has an empty content. The tags removed are
    those that lie on one line: of a body made of a text without "<"
    and of tags "<...>" without line feed, each followed by a text
    without "<", the texts are what is left. *)
Theorem extract_sections_spec (markdown_text : str) :
  (exists pre blocks tail,
     markdown markdown_text = pre ++ concat (map block_text blocks) ++ tail
     /\ occurs open_tag_at pre = false
     /\ Forall well_formed_block blocks /\ unclosed tail)
  /\ (forall pre blocks tail,
        markdown markdown_text = pre ++ concat (map block_text blocks) ++ tail ->
        occurs open_tag_at pre = false ->
        Forall well_formed_block blocks -> unclosed tail ->
        extract_sections markdown_text = omap block_section blocks)
  /\ Forall (fun sec => written_content sec <> []) (extract_sections markdown_text)
  /\ (forall text0 pieces,
        60%N ∉ text0 ->
        Forall (fun p => (62%N ∉ fst p) /\ (nl ∉ fst p) /\ (60%N ∉ snd p)) pieces ->
        strip_tags 0 (text0 ++ tagged pieces) = text0 ++ concat (map snd pieces)).
Proof.
  assert (Hsplit : forall pre blocks tail,
        markdown markdown_text = pre ++ concat (map block_text blocks) ++ tail ->
        occurs open_tag_at pre = false ->
        Forall well_formed_block blocks -> unclosed tail ->
        extract_sections markdown_text = omap block_section blocks).
  { intros pre blocks tail Hdoc Hpre Hall Htail.
    unfold extract_sections. rewrite Hdoc.
    rewrite findall_pre; [by apply findall_blocks|done|].
    destruct (blocks_start blocks tail Hall Htail) as [[? _]|?]; eauto. }
  assert (Hex : exists pre blocks tail,
     markdown markdown_text = pre ++ concat (map block_text blocks) ++ tail
     /\ occurs open_tag_at pre = false
     /\ Forall well_formed_block blocks /\ unclosed tail).
  { destruct (first_open (markdown markdown_text)) as (pre & s & Hdoc & Hpre & Hs).
    destruct (blocks_exist (length s) s (le_n _) Hs) as (blocks & tail & -> & Hall & Htail).
    by exists pre, blocks, tail. }
  split_and!; [exact Hex|exact Hsplit| |apply strip_tags_tagged].
  destruct Hex as (pre & blocks & tail & Hdoc & Hpre & Hall & Htail).
  rewrite (Hsplit _ _ _ Hdoc Hpre Hall Htail). apply Forall_forall. intros sec.
  rewrite list_elem_of_omap. intros (b & _ & Hsec).
  rewrite block_section_eq in Hsec.
  apply section_of_Some in Hsec as [Hne ->]. done.
Qed.

End WithPlatform.

(** C4, witness: the example of the design document, whose second
    header has an empty body. *)
Lemma extract_sections_spec_witness :
  let text := lit "# A" ++ [nl] ++ lit "body1" ++ [nl] ++ lit "# B" ++ [nl; nl] in
  let blocks :=
    [HeaderBlock 49 (lit "A") 49 ([nl] ++ lit "<p>body1</p>" ++ [nl]);
     HeaderBlock 49 (lit "B") 49 []] in
  @markdown simple_blocks text = concat (map block_text blocks)
  /\ Forall (@well_formed_block simple_blocks) blocks
  /\ @extract_sections simple_blocks text = [Section_ (lit "A") (lit "body1")].
Proof.
  intros text blocks.
  assert (Hdoc : @markdown simple_blocks text = [] ++ concat (map block_text blocks) ++ [])
    by reflexivity.
  assert (Hall : Forall (@well_formed_block simple_blocks) blocks).
  { repeat constructor; vm_compute; reflexivity. }
  split; [by rewrite Hdoc, app_nil_r|]. split; [exact Hall|].
  destruct (@extract_sections_spec simple_blocks text) as (_ & Hsplit & _).
  rewrite (Hsplit [] blocks [] Hdoc eq_refl Hall (or_introl eq_refl)).
  reflexivity.
Defined.

(** C4, as stated, fails: a header whose tag has an attribute gets no
    section, although its body is not empty, and its title and its body
    go to the section before it; and a tag of the body that is broken
    over a line feed is not removed from the content. *)
Lemma extract_sections_attribute_header :
  let doc := lit "<h1>A</h1>" ++ [nl] ++ lit "<p>body1</p>" ++ [nl]
             ++ lit "<h2 class=x>B</h2>" ++ [nl] ++ lit "<p>body2</p>" in
  let broken := lit "<h1>A</h1>" ++ [nl] ++ lit "<p>see <a" ++ [nl]
                ++ lit "href=x>this</a></p>" in
  @markdown raw_html doc = doc
  /\ @extract_sections raw_html doc
     = [Section_ (lit "A")
          (lit "body1" ++ [nl] ++ lit "B" ++ [nl] ++ lit "body2")]
  /\ @markdown raw_html broken = broken
  /\ @extract_sections raw_html broken
     = [Section_ (lit "A") (lit "see <a" ++ [nl] ++ lit "href=x>this")].
Proof. intros doc broken. split_and!; reflexivity. Qed.

(** ** The writer stage *)

Section WriterFacts.
Import Writer.
Variable call_model : prompt -> pyval -> str -> option pyval.
Variable today : str.

Lemma run_eq self research_state :
  run call_model today self research_state []
  = run_outcome call_model today self research_state.
Proof.
  unfold run, run_outcome, write_sections, revise_headers, report_progress,
    await_call_model, get, bind, ret, raise, emit, progress.
  destruct self as [[ws|] [so|] hd]; simpl;
    (destruct (research_state !! lit "task") as [[]|]; simpl; try reflexivity;
     repeat (match goal with
             | |- context [call_model ?p ?m ?f] =>
                 destruct (call_model p m f) as [[]|]; simpl
             | |- context [truthy ?v] => destruct (truthy v); simpl
             end);
     rewrite ?lookup_singleton_eq; reflexivity).
Qed.

Ltac outcome_cases research_state :=
  unfold run_outcome, task_flag, attached, progress;
  destruct (research_state !! lit "task") as [[]|]; simpl;
  repeat (match goal with
          | |- context [call_model ?p ?m ?f] =>
              destruct (call_model p m f) as [[]|] eqn:?; simpl
          | |- context [truthy ?v] => destruct (truthy v) eqn:?; simpl
          end).

(** C3, as amended: with a progress-reporting capability attached [run]
    writes nothing to the local sink, and without one it emits no
    progress event; the report of "writing_report" is the one thing done
    before the first model call. When the state has a task dictionary
    and the section-writing call answers, which is the case whenever
    [run] returns, the progress events are "writing_report", then
    "research_layout_content" if the verbose flag of the task is set,
    then "rewriting_layout" if its guideline flag is set, and no other,
    the local sink receiving the corresponding outputs when no
    capability is attached. When the state has no task dictionary or the
    call raises, [run] raises and "writing_report" is the only report. *)
Theorem run_progress_events (self : WriterAgent)
    (research_state : gmap str pyval) :
  let r := fst (run call_model today self research_state []) in
  let t := snd (run call_model today self research_state []) in
  let verbose := task_flag research_state (lit "verbose") in
  let follow := task_flag research_state (lit "follow_guidelines") in
  let answer :=
    match research_state !! lit "task" with
    | Some (VDict task) =>
        call_model (sections_prompt today research_state task)
          (task_field task (lit "model")) (lit "json")
    | _ => None
    end in
  (if attached self then printed t = [] else stream_keys t = [])
  /\ (if attached self
      then stream_keys (before_first_call t) = [lit "writing_report"]
      else printed (before_first_call t) = [writing_message])
  /\ (is_Some r -> is_Some answer)
  /\ match answer with
     | Some response =>
         if attached self then
           stream_keys t
           = [lit "writing_report"]
             ++ (if verbose then [lit "research_layout_content"] else [])
             ++ (if follow then [lit "rewriting_layout"] else [])
         else
           printed t
           = [writing_message]
             ++ (if verbose then [Object response] else [])
             ++ (if follow then [rewriting_message] else [])
     | None =>
         r = None
         /\ if attached self then stream_keys t = [lit "writing_report"]
            else printed t = [writing_message]
     end.
Proof.
  rewrite run_eq. cbv zeta. unfold sections_prompt, task_field.
  destruct self as [[ws|] [so|] hd]; split_and!;
    outcome_cases research_state;
    try reflexivity; try discriminate; try (intros [? [=]]); eauto.
Qed.

(** C10: [run] returns when the state has a task dictionary and the two
    model calls answer, the first with a dictionary; and whenever it
    returns an update, the update maps "headers" to the default labels
    when the guideline flag is unset (the title of the state under
    "title", and the five fixed labels under "date", "introduction",
    "table_of_contents", "conclusion" and "references") and to the
    answer of the revision call, made with these labels, when it is set,
    whatever "headers" field the first answer had, and agrees with the
    first answer on every other key. *)
Theorem run_headers (self : WriterAgent) (research_state : gmap str pyval) :
  let follow := task_flag research_state (lit "follow_guidelines") in
  let labels :=
    VDict (list_to_map
      [(lit "title", default VNone (research_state !! lit "title"));
       (lit "date", VStr [26085; 26399]%N);
       (lit "introduction", VStr [24341; 35328]%N);
       (lit "table_of_contents", VStr [30446; 24405]%N);
       (lit "conclusion", VStr [32467; 35770]%N);
       (lit "references", VStr [21442; 32771; 36164; 26009]%N)]) in
  (forall task content revised,
     research_state !! lit "task" = Some (VDict task) ->
     (forall td q d g m,
        call_model (WriteSectionsPrompt td q d g) m (lit "json")
        = Some (VDict content)) ->
     (forall g h m,
        call_model (ReviseHeadersPrompt g h) m (lit "json") = Some revised) ->
     fst (run call_model today self research_state [])
     = Some (<[lit "headers" := if follow then revised else labels]> content))
  /\ (forall update,
        fst (run call_model today self research_state []) = Some update ->
        exists content hdrs td q d g m,
          call_model (WriteSectionsPrompt td q d g) m (lit "json")
          = Some (VDict content)
          /\ update !! lit "headers" = Some hdrs
          /\ (forall key, key <> lit "headers" -> update !! key = content !! key)
          /\ (follow = false -> hdrs = labels)
          /\ (follow = true ->
                exists g' m',
                  call_model (ReviseHeadersPrompt g' labels) m' (lit "json")
                  = Some hdrs)).
Proof.
  cbv zeta.
  change (VDict (list_to_map _)) with (get_headers research_state).
  rewrite run_eq. split.
  - intros task content revised Htask Hw Hr.
    unfold run_outcome, task_flag. rewrite Htask, Hw. simpl.
    destruct (truthy (default VNone (task !! lit "follow_guidelines")));
      by rewrite ?Hr.
  - intros update. outcome_cases research_state; intros; simplify_eq/=;
      (eexists _, _, _, _, _, _, _; split_and!;
       [eassumption|apply lookup_insert_eq
       |intros key Hk; by apply lookup_insert_ne
       |intros; try done|intros; try done; eauto]).
Qed.

End WriterFacts.

(** C3, witness: a streaming agent, the verbose and guideline flags
    set; with a model that answers, and with one that raises. *)
Lemma run_progress_events_witness :
  let out model := Writer.run model [] Writer.streaming_agent
                     (Writer.sample_state true true) [] in
  Writer.stream_keys (snd (out Writer.sample_model))
  = [lit "writing_report"; lit "research_layout_content";
     lit "rewriting_layout"]
  /\ fst (out (fun _ _ _ => None)) = None
  /\ Writer.stream_keys (snd (out (fun _ _ _ => None))) = [lit "writing_report"].
Proof.
  intros out.
  destruct (run_progress_events Writer.sample_model [] Writer.streaming_agent
              (Writer.sample_state true true)) as (_ & _ & _ & Hkeys).
  destruct (run_progress_events (fun _ _ _ => None) [] Writer.streaming_agent
              (Writer.sample_state true true)) as (_ & _ & _ & Hnone & Hone).
  split; [exact Hkeys|]. split; [exact Hnone|exact Hone].
Defined.

(** C3, as stated, fails: with the verbose flag set a streaming agent
    emits the event "research_layout_content", so that there are three
    named events when the guideline flag is set too, and the second of
    two is not "rewriting_layout" when it is not. *)
Lemma run_emits_layout_content :
  Writer.attached Writer.streaming_agent = true
  /\ is_Some (fst (Writer.run Writer.sample_model [] Writer.streaming_agent
                     (Writer.sample_state true true) []))
  /\ Writer.stream_keys
       (snd (Writer.run Writer.sample_model [] Writer.streaming_agent
               (Writer.sample_state true true) []))
     = [lit "writing_report"; lit "research_layout_content";
        lit "rewriting_layout"]
  /\ Writer.task_flag (Writer.sample_state true false) (lit "follow_guidelines")
     = false
  /\ Writer.stream_keys
       (snd (Writer.run Writer.sample_model [] Writer.streaming_agent
               (Writer.sample_state true false) []))
     = [lit "writing_report"; lit "research_layout_content"].
Proof. vm_compute. split_and!; eauto. Qed.

(** C10, witness: the model response has a stale "headers" field. *)
Lemma run_headers_witness :
  let state := Writer.sample_state false false in
  let out := Writer.run Writer.sample_model [] Writer.local_agent state [] in
  (exists update, fst out = Some update)
  /\ forall update, fst out = Some update ->
       update !! lit "headers"
       = Some (VDict (list_to_map
            [(lit "title", VStr (lit "T"));
             (lit "date", VStr [26085; 26399]%N);
             (lit "introduction", VStr [24341; 35328]%N);
             (lit "table_of_contents", VStr [30446; 24405]%N);
             (lit "conclusion", VStr [32467; 35770]%N);
             (lit "references", VStr [21442; 32771; 36164; 26009]%N)]))
       /\ update !! lit "introduction" = Some (VStr (lit "intro")).
Proof.
  intros state out.
  assert (Hret : exists update, fst out = Some update) by (vm_compute; eauto).
  split; [exact Hret|]. intros update Hupdate.
  destruct (run_headers Writer.sample_model [] Writer.local_agent state)
    as (_ & Hshape).
  destruct (Hshape update Hupdate)
    as (content & hdrs & td & q & d & g & m & Hcall & Hh & Hother & Hno & _).
  injection Hcall as <-.
  split.
  - rewrite Hh. f_equal. apply Hno. reflexivity.
  - rewrite Hother by (intros Heq; vm_compute in Heq; discriminate).
    reflexivity.
Defined.

(** ** The report routes *)

Lemma bind_ret {E A} (m : coroutine E A) t : bind m (fun a => ret a) t = m t.
Proof. unfold bind, ret. by destruct (m t) as [[a|] t']. Qed.

Lemma lit_cons a s : lit (String a s) = Ascii.N_of_ascii a :: lit s.
Proof. done. Qed.

Lemma lit_inj s1 s2 : lit s1 = lit s2 -> s1 = s2.
Proof.
  revert s2. induction s1 as [|a s1 IH]; intros [|b s2]; try done.
  rewrite !lit_cons. intros [= Hab Hs].
  f_equal; [|by apply IH].
  rewrite <- (Ascii.ascii_N_embedding a), <- (Ascii.ascii_N_embedding b).
  by rewrite Hab.
Qed.

(** The decimal notation of a natural number is made of digits. *)
Lemma pretty_N_go_digits x : forall s,
  Forall (fun c => Server.alphanumeric c = true) (lit s) ->
  Forall (fun c => Server.alphanumeric c = true) (lit (pretty_N_go x s)).
Proof.
  induction (N.lt_wf_0 x) as [x _ IH]; intros s Hs.
  assert (x = 0 \/ 0 < x)%N as [->|Hx] by lia; [done|].
  rewrite pretty_N_go_step by done. apply IH; [by apply N.div_lt|].
  rewrite lit_cons. constructor; [|done].
  unfold pretty_N_char. by repeat case_match.
Qed.

Lemma str_of_int_digits n :
  (0 <= n)%Z ->
  Forall (fun c => Server.alphanumeric c = true) (Server.str_of_int n).
Proof.
  intros Hn. unfold Server.str_of_int.
  destruct n as [|p|p]; [by repeat constructor| |lia].
  unfold pretty, pretty_Z, pretty, pretty_positive, pretty, pretty_N.
  case_decide; [done|]. by apply pretty_N_go_digits.
Qed.

Lemma str_of_int_inj n1 n2 :
  Server.str_of_int n1 = Server.str_of_int n2 -> n1 = n2.
Proof. intros Heq%lit_inj. by apply (inj pretty). Qed.

Section ServerFacts.
Import Server.
Variable unsafe : char -> bool.
Variable run_agent : ResearchRequest -> option (str * researcher).
Variable write_md_to_word write_md_to_pdf : str -> str -> str.
Variable known_tone : str -> bool.

Lemma sanitize_app s1 s2 :
  sanitize_filename unsafe (s1 ++ s2)
  = sanitize_filename unsafe s1 ++ sanitize_filename unsafe s2.
Proof. apply List.filter_app. Qed.

Lemma sanitize_safe s :
  Forall (fun c => unsafe c = false) s -> sanitize_filename unsafe s = s.
Proof.
  induction 1 as [|c s Hc _ IH]; [done|]. simpl. by rewrite Hc, IH.
Qed.

Lemma sanitize_is_safe s :
  Forall (fun c => unsafe c = false) (sanitize_filename unsafe s).
Proof.
  induction s as [|c s IH]; simpl; [constructor|].
  destruct (unsafe c) eqn:Hc; simpl; [done|by constructor].
Qed.

Lemma sanitize_keeps_alphanumeric s :
  (forall c, alphanumeric c = true -> unsafe c = false) ->
  List.filter alphanumeric (sanitize_filename unsafe s)
  = List.filter alphanumeric s.
Proof.
  intros Hsafe. induction s as [|c s IH]; simpl; [done|].
  destruct (alphanumeric c) eqn:Ha.
  - rewrite (Hsafe c Ha). simpl. by rewrite Ha, IH.
  - destruct (unsafe c); simpl; [done|]. by rewrite Ha.
Qed.

Lemma split_at_underscore (a a' b b' : str) :
  Forall (fun c => alphanumeric c = true) a ->
  Forall (fun c => alphanumeric c = true) a' ->
  a ++ 95%N :: b = a' ++ 95%N :: b' -> a = a' /\ b = b'.
Proof.
  intros Ha. revert a'. induction Ha as [|x a Hx _ IH]; intros a' Ha' Heq.
  - destruct Ha' as [|y a' Hy _]; simpl in Heq; [by injection Heq as ->|].
    injection Heq as <- _. done.
  - destruct Ha' as [|y a' Hy Ha']; simpl in Heq.
    + injection Heq as -> _. done.
    + injection Heq as -> Heq. destruct (IH a' Ha' Heq) as [-> ->]. done.
Qed.

(** C7, as amended: the identifier is the sanitized text
    "task_<seconds>_<task>", a function of the whole second of the
    submission time and of the task text; the same task text submitted
    in two different whole seconds, at or after the epoch, gets two
    different identifiers; two submissions in the same whole second get
    the same identifier exactly when their task texts are the same once
    sanitized, and, when the sanitizer keeps "_", two submissions at or
    after the epoch get the same identifier exactly when they have the
    same whole second and the same sanitized task text; the sanitized
    text has no unsafe character, so no slash and no quote, and its
    alphanumeric characters are those of the text, in order. *)
Theorem research_id_derivation :
  unsafe_as_specified unsafe ->
  (forall now task,
     research_id_of unsafe now task
     = sanitize_filename unsafe
         (lit "task_" ++ str_of_int (int_of_float now) ++ lit "_" ++ task))
  /\ (forall now now' task,
        int_of_float now = int_of_float now' ->
        research_id_of unsafe now task = research_id_of unsafe now' task)
  /\ (forall now now' task,
        (0 <= int_of_float now)%Z -> (0 <= int_of_float now')%Z ->
        int_of_float now <> int_of_float now' ->
        research_id_of unsafe now task <> research_id_of unsafe now' task)
  /\ (forall now now' task task',
        int_of_float now = int_of_float now' ->
        (research_id_of unsafe now task = research_id_of unsafe now' task'
         <-> sanitize_filename unsafe task = sanitize_filename unsafe task'))
  /\ (unsafe 95%N = false ->
      forall now now' task task',
        (0 <= int_of_float now)%Z -> (0 <= int_of_float now')%Z ->
        (research_id_of unsafe now task = research_id_of unsafe now' task'
         <-> int_of_float now = int_of_float now'
             /\ sanitize_filename unsafe task = sanitize_filename unsafe task'))
  /\ (forall s,
        Forall (fun c => unsafe c = false) (sanitize_filename unsafe s)
        /\ (47%N ∉ sanitize_filename unsafe s)
        /\ (34%N ∉ sanitize_filename unsafe s)
        /\ (39%N ∉ sanitize_filename unsafe s)
        /\ List.filter alphanumeric (sanitize_filename unsafe s)
           = List.filter alphanumeric s).
Proof.
  intros (Hslash & Hback & Hdq & Hsq & Halnum).
  assert (Hdigits : forall n, (0 <= n)%Z ->
            sanitize_filename unsafe (str_of_int n) = str_of_int n).
  { intros n Hn. apply sanitize_safe.
    eapply Forall_impl; [by apply str_of_int_digits|]. by intros c ?%Halnum. }
  split_and!.
  - done.
  - intros now now' task Heq. unfold research_id_of. by rewrite Heq.
  - intros now now' task Hn Hn' Hne Heq. apply Hne.
    unfold research_id_of in Heq. rewrite !sanitize_app in Heq.
    apply app_inv_head in Heq. apply app_inv_tail in Heq.
    rewrite !Hdigits in Heq by done. by apply str_of_int_inj.
  - intros now now' task task' Hsec. unfold research_id_of. rewrite Hsec.
    rewrite !(app_assoc (lit "task_")), !(app_assoc _ (lit "_")), !sanitize_app.
    split; [by intros ?%app_inv_head|by intros ->].
  - intros Hunder now now' task task' Hn Hn'. unfold research_id_of.
    rewrite !sanitize_app, !Hdigits by done.
    assert (sanitize_filename unsafe (lit "_") = [95%N]) as ->.
    { change (lit "_") with [95%N]. simpl. by rewrite Hunder. }
    split.
    + intros Heq%app_inv_head. cbn [app] in Heq.
      apply split_at_underscore in Heq as [Hd Ht]; [|by apply str_of_int_digits..].
      split; [by apply str_of_int_inj|done].
    + by intros [-> ->].
  - intros s. pose proof (sanitize_is_safe s) as Hs.
    split_and!; [done| | | |by apply sanitize_keeps_alphanumeric];
      intros Hin; rewrite Forall_forall in Hs; apply Hs in Hin; congruence.
Qed.

(** C6, as amended: a request with the background flag schedules
    [write_report] with the identifier and returns the acknowledgement
    and the identifier, the pipeline not having been run; a request
    without it does what [write_report] does and returns what it
    returns: nothing, the exception going to the caller, when the tone
    names no member of [Tone] (before the agent is run) or when the agent
    raises (nothing being exported); and, once the agent has run and the
    two documents have been written, the bundle of the identifier, the
    research information, the report and the two paths for a report
    type other than "multi_agents", and for "multi_agents" a bundle
    with the identifier, an empty report and the two paths only. *)
Theorem generate_report_modes (now : Q) (research_request : ResearchRequest) :
  let research_id := research_id_of unsafe now (task research_request) in
  let generate :=
    generate_report unsafe run_agent write_md_to_word write_md_to_pdf
      known_tone now research_request [] in
  let write :=
    write_report run_agent write_md_to_word write_md_to_pdf known_tone
      research_request research_id [] in
  (generate_in_background research_request = true ->
     generate
     = (Some (Acknowledgement background_message research_id),
        [AddTask research_request research_id]))
  /\ (generate_in_background research_request = false ->
        generate = write
        /\ (known_tone (tone research_request) = false -> generate = (None, []))
        /\ (known_tone (tone research_request) = true ->
            match run_agent research_request with
            | None => generate = (None, [RunAgent research_request])
            | Some (report, researcher) =>
                let docx_path := write_md_to_word report research_id in
                let pdf_path := write_md_to_pdf report research_id in
                let steps := [RunAgent research_request;
                              WriteMdToWord report research_id;
                              WriteMdToPdf report research_id] in
                (report_type research_request <> lit "multi_agents" ->
                   generate
                   = (Some (ReportBundle research_id
                              (Some {| source_urls := get_source_urls researcher;
                                       research_costs := get_costs researcher;
                                       info_visited_urls := visited_urls researcher;
                                       research_images :=
                                         get_research_images researcher |})
                              report docx_path pdf_path), steps))
                /\ (report_type research_request = lit "multi_agents" ->
                      generate
                      = (Some (ReportBundle research_id None [] docx_path pdf_path),
                         steps))
            end)).
Proof.
  cbv zeta. unfold generate_report. split.
  - intros ->. reflexivity.
  - intros ->. rewrite bind_ret. split; [done|].
    unfold write_report, bind, ret, raise, emit. split.
    + by intros ->.
    + intros ->. simpl.
      destruct (run_agent research_request) as [[report researcher]|]; simpl; [|done].
      split; intros Htype.
      * by rewrite bool_decide_eq_false_2.
      * by rewrite bool_decide_eq_true_2.
Qed.

End ServerFacts.

Section ReadReport.
Import Server.

(** C9: [read_report] never raises; it answers with the document
    "outputs/<research_id>.docx" when that path exists and with the
    message "Report not found." when it does not. *)
Theorem read_report_found_or_not (fs : gset str) (research_id : str) :
  let docx_path := docx_path_of research_id in
  (exists r, fst (read_report fs research_id []) = Some r)
  /\ (docx_path ∈ fs ->
        read_report fs research_id [] = (Some (FileResponse docx_path), []))
  /\ (docx_path ∉ fs ->
        read_report fs research_id []
        = (Some (Message (lit "Report not found.")), []))
  /\ (startswith (lit "/") research_id = false ->
        docx_path = lit "outputs/" ++ research_id ++ lit ".docx").
Proof.
  cbv zeta. unfold read_report, ret. split_and!.
  - case_bool_decide; simpl; eauto.
  - intros Hin. by rewrite bool_decide_eq_true_2.
  - intros Hnin. by rewrite bool_decide_eq_false_2.
  - intros Hrel. unfold docx_path_of, path_join.
    assert (startswith (lit "/") (research_id ++ lit ".docx") = false) as ->.
    { destruct research_id as [|c rest]; [done|]. exact Hrel. }
    reflexivity.
Qed.

End ReadReport.

Lemma sample_unsafe_as_specified : Server.unsafe_as_specified Server.sample_unsafe.
Proof.
  split_and!; try reflexivity.
  intros c Hc. unfold Server.sample_unsafe. by rewrite Hc.
Qed.

(** C7, witness: the same task one second apart, and two tasks in the
    same second. *)
Lemma research_id_derivation_witness :
  Server.unsafe_as_specified Server.sample_unsafe
  /\ Server.research_id_of Server.sample_unsafe (QArith_base.Qmake 401 4)
       (lit "a/b 'c'")
     = lit "task_100_ab c"
  /\ Server.research_id_of Server.sample_unsafe (QArith_base.Qmake 401 4) (lit "x")
     <> Server.research_id_of Server.sample_unsafe (QArith_base.Qmake 405 4) (lit "x")
  /\ Server.research_id_of Server.sample_unsafe (QArith_base.Qmake 401 4) (lit "x")
     <> Server.research_id_of Server.sample_unsafe (QArith_base.Qmake 403 4) (lit "y").
Proof.
  split; [exact sample_unsafe_as_specified|].
  destruct (research_id_derivation Server.sample_unsafe sample_unsafe_as_specified)
    as (Hdef & _ & Hdiff & Hsame & _).
  split_and!.
  - rewrite Hdef. reflexivity.
  - apply Hdiff; vm_compute; congruence.
  - intros Heq. apply Hsame in Heq; [|reflexivity].
    vm_compute in Heq. discriminate.
Defined.

(** C7, as stated, fails: two submissions of one task within the same
    second get the same identifier, and so do, at one time, two tasks
    that differ by a slash. *)
Lemma research_ids_collide :
  Server.unsafe_as_specified Server.sample_unsafe
  /\ ~ QArith_base.Qeq (QArith_base.Qmake 401 4) (QArith_base.Qmake 403 4)
  /\ Server.research_id_of Server.sample_unsafe (QArith_base.Qmake 401 4) (lit "x")
     = Server.research_id_of Server.sample_unsafe (QArith_base.Qmake 403 4) (lit "x")
  /\ lit "a/b" <> lit "ab"
  /\ Server.research_id_of Server.sample_unsafe (QArith_base.Qmake 401 4) (lit "a/b")
     = Server.research_id_of Server.sample_unsafe (QArith_base.Qmake 401 4) (lit "ab").
Proof.
  split; [exact sample_unsafe_as_specified|].
  split_and!; try reflexivity; vm_compute; congruence.
Qed.

(** C6, witness: the same request in the background and in the
    foreground. *)
Lemma generate_report_modes_witness :
  let generate background :=
    Server.generate_report Server.sample_unsafe Server.sample_run_agent
      Server.sample_word Server.sample_pdf Server.sample_tone
      (QArith_base.Qmake 401 4) (Server.sample_request (lit "x") background) [] in
  generate true
  = (Some (Server.Acknowledgement Server.background_message (lit "task_100_x")),
     [Server.AddTask (Server.sample_request (lit "x") true) (lit "task_100_x")])
  /\ exists info,
       generate false
       = (Some (Server.ReportBundle (lit "task_100_x") (Some info) (lit "# Report")
                  (lit "outputs/task_100_x.docx") (lit "outputs/task_100_x.pdf")),
          [Server.RunAgent (Server.sample_request (lit "x") false);
           Server.WriteMdToWord (lit "# Report") (lit "task_100_x");
           Server.WriteMdToPdf (lit "# Report") (lit "task_100_x")])
       /\ Server.info_visited_urls info = [lit "https://a.example"].
Proof.
  intros generate. split.
  - destruct (generate_report_modes Server.sample_unsafe Server.sample_run_agent
                Server.sample_word Server.sample_pdf Server.sample_tone
                (QArith_base.Qmake 401 4) (Server.sample_request (lit "x") true))
      as [Hback _].
    exact (Hback eq_refl).
  - destruct (generate_report_modes Server.sample_unsafe Server.sample_run_agent
                Server.sample_word Server.sample_pdf Server.sample_tone
                (QArith_base.Qmake 401 4) (Server.sample_request (lit "x") false))
      as [_ Hfore].
    destruct (Hfore eq_refl) as (_ & _ & Hrun).
    assert (Htone : Server.sample_tone
                      (Server.tone (Server.sample_request (lit "x") false)) = true)
      by (vm_compute; reflexivity).
    specialize (Hrun Htone). cbn [Server.sample_run_agent] in Hrun.
    destruct Hrun as [Hbundle _].
    eexists. split.
    + unfold generate. rewrite Hbundle; [reflexivity|].
      intros Heq. vm_compute in Heq. discriminate.
    + reflexivity.
Defined.

(** C6, as stated, fails: a foreground request of type "multi_agents",
    whose pipeline returns the report "# Report", is answered with an
    empty report and without the research information. *)
Lemma generate_report_multi_agents :
  let request :=
    {| Server.task := lit "x"; Server.report_type := lit "multi_agents";
       Server.report_source := lit "web"; Server.tone := lit "Objective";
       Server.headers := None; Server.repo_name := lit "repo";
       Server.branch_name := lit "main";
       Server.generate_in_background := false; Server.language := None |} in
  (exists researcher,
     Server.sample_run_agent request = Some (lit "# Report", researcher))
  /\ fst (Server.generate_report Server.sample_unsafe Server.sample_run_agent
            Server.sample_word Server.sample_pdf Server.sample_tone
            (QArith_base.Qmake 401 4) request [])
     = Some (Server.ReportBundle (lit "task_100_x") None []
               (lit "outputs/task_100_x.docx") (lit "outputs/task_100_x.pdf")).
Proof. intros request. split; [by eexists|reflexivity]. Qed.

(** C9, witness: one report is stored. *)
Lemma read_report_found_or_not_witness :
  let fs : gset str := {[ lit "outputs/task_1_x.docx" ]} in
  Server.read_report fs (lit "task_1_x") []
  = (Some (Server.FileResponse (lit "outputs/task_1_x.docx")), [])
  /\ Server.read_report fs (lit "task_2_y") []
     = (Some (Server.Message (lit "Report not found.")), []).
Proof.
  intros fs.
  destruct (read_report_found_or_not fs (lit "task_1_x")) as (_ & Hyes & _ & _).
  destruct (read_report_found_or_not fs (lit "task_2_y")) as (_ & _ & Hno & _).
  split.
  - apply Hyes. apply elem_of_singleton. reflexivity.
  - apply Hno. intros Hin%elem_of_singleton. vm_compute in Hin. discriminate.
Defined.

(** ** More on the header scan *)

Lemma index_middle c (a b : str) : c ∉ a -> index c (a ++ c :: b) = Some (length a).
Proof.
  induction a as [|x a IH]; intros Hc; simpl.
  - by rewrite N.eqb_refl.
  - apply not_elem_of_cons in Hc as [Hx Ha].
    destruct (N.eqb_spec x c) as [->|_]; [done|]. by rewrite IH.
Qed.

Lemma rindex_None c (b : str) : c ∉ b -> rindex c b = None.
Proof.
  induction b as [|x b IH]; intros Hc; simpl; [done|].
  apply not_elem_of_cons in Hc as [Hx Hb]. rewrite IH by done.
  destruct (N.eqb_spec x c) as [->|_]; done.
Qed.

Lemma rindex_middle c (a b : str) : c ∉ b -> rindex c (a ++ c :: b) = Some (length a).
Proof.
  intros Hc. induction a as [|x a IH]; simpl.
  - by rewrite rindex_None, N.eqb_refl.
  - by rewrite IH.
Qed.

Section WithPlatform.
Context `{Platform}.

Lemma scan_line_header_line (d : char) (level : Z) (attrs text : str) :
  isdigit d = true -> decimal d = Some level ->
  d <> 60%N -> d <> 62%N -> 62%N ∉ attrs ->
  scan_line (header_line d attrs text) = Header level text.
Proof.
  intros Hdigit Hdec Hlt Hgt Hattrs. unfold scan_line, header_line.
  change (lit "<h") with [60; 104]%N. change (lit "</h") with [60; 47; 104]%N.
  cbn [app lookup list_lookup startswith]. rewrite Hdigit, Hdec. simpl andb.
  change (60 :: 104 :: d :: attrs ++ 62 :: text ++ 60 :: 47 :: 104 :: d :: [62])%N
    with (([60; 104; d]%N ++ attrs) ++ 62%N :: text
          ++ 60%N :: [47; 104; d; 62]%N) at 1.
  rewrite index_middle.
  2:{ rewrite not_elem_of_app, !not_elem_of_cons. split_and!; try done.
      apply not_elem_of_nil. }
  replace (60 :: 104 :: d :: attrs ++ 62 :: text ++ 60 :: 47 :: 104 :: d :: [62])%N
    with (([60; 104; d]%N ++ attrs ++ 62%N :: text)
          ++ 60%N :: [47; 104; d; 62]%N)
    by (by rewrite <- !app_assoc).
  rewrite rindex_middle.
  2:{ rewrite !not_elem_of_cons. split_and!; try done. apply not_elem_of_nil. }
  f_equal. unfold slice.
  rewrite <- !app_assoc. rewrite !length_app. cbn [length app].
  replace (attrs ++ 62%N :: text ++ 60%N :: [47; 104; d; 62]%N)
    with ((attrs ++ [62%N]) ++ text ++ 60%N :: [47; 104; d; 62]%N)
    by (by rewrite <- app_assoc).
  change (60 :: 104 :: d :: (attrs ++ [62]) ++ text ++ 60 :: [47; 104; d; 62])%N
    with ([60; 104; d]%N ++ (attrs ++ [62%N]) ++ text ++ 60%N :: [47; 104; d; 62]%N).
  rewrite app_assoc.
  rewrite drop_app_length'
    by (rewrite !length_app; simpl; lia).
  rewrite take_app_length' by lia. done.
Qed.

(** X1: a header written on one line is read back with its level and its
    text, whatever the text holds. *)
Theorem scan_header_line (d : char) (level : Z) (attrs text : str) :
  isdigit d = true -> decimal d = Some level ->
  d <> 60%N -> d <> 62%N -> 62%N ∉ attrs ->
  scan_line (header_line d attrs text) = Header level text.
Proof. apply scan_line_header_line. Qed.

(** A line that is read as no header is passed by the scan, and the
    header lines of a document that is read line by line are the headers
    read. *)
Lemma scan_line_reads_as line m :
  reads_as line m ->
  scan_line line = match m with
                   | Some it => Header (fst it) (snd it)
                   | None => NotHeader
                   end.
Proof.
  destruct m as [[level text]|]; unfold reads_as; cbn [fst snd].
  - intros (d & attrs & -> & Hdigit & Hdec & Hlt & Hgt & Hattrs).
    by apply scan_line_header_line.
  - intros Hno. unfold scan_line.
    destruct (line !! 2%nat) as [c|] eqn:Hc; [|done].
    destruct Hno as [Hs|Hno]; [by rewrite Hs|]. rewrite (Hno c eq_refl).
    by rewrite andb_false_r.
Qed.

Lemma header_items_reads lines marks :
  Forall2 reads_as lines marks ->
  header_items lines = Some (omap id marks).
Proof.
  induction 1 as [|line m lines marks Hm _ IH]; [done|].
  cbn [header_items]. rewrite (scan_line_reads_as _ _ Hm), IH.
  by destruct m as [[level text]|].
Qed.

(** X2: a document without header lines has the empty forest, and its
    table of contents is the English title alone. *)
Theorem no_header_lines (markdown_text : str) :
  Forall (fun line => scan_line line = NotHeader)
         (split nl (markdown markdown_text)) ->
  extract_headers markdown_text = Some []
  /\ table_of_contents markdown_text = Some (toc_title_en, false).
Proof.
  intros Hnone.
  assert (Hitems : header_items (split nl (markdown markdown_text)) = Some []).
  { induction Hnone as [|line rest Hline _ IH]; simpl; [done|]. by rewrite Hline. }
  assert (Hforest : extract_headers markdown_text = Some []).
  { unfold extract_headers. by rewrite extract_headers_in_eq, Hitems. }
  split; [done|].
  unfold table_of_contents. rewrite table_of_contents_in_eq, Hforest. simpl.
  unfold toc_title, generate_table_of_contents. simpl. by rewrite ?app_nil_r.
Qed.

End WithPlatform.

(** X1, witness: a header with an attribute and markup in its text. *)
Lemma scan_header_line_witness :
  @scan_line raw_html (lit "<h2 id=x>a <b>c</b></h2>")
  = Header 2 (lit "a <b>c</b>").
Proof.
  apply (@scan_header_line raw_html 50%N 2%Z (lit " id=x") (lit "a <b>c</b>"));
    try reflexivity; try discriminate.
  intros Hin%list_elem_of_In. vm_compute in Hin. intuition discriminate.
Defined.

(** X2, witness: two paragraphs. *)
Lemma no_header_lines_witness :
  let text := lit "<p>one</p>" ++ [nl] ++ lit "<p>two</p>" in
  Forall (fun line => @scan_line raw_html line = NotHeader)
         (split nl (@markdown raw_html text))
  /\ @table_of_contents raw_html text = Some (toc_title_en, false).
Proof.
  intros text.
  assert (Hlines : split nl (@markdown raw_html text)
                   = [lit "<p>one</p>"; lit "<p>two</p>"]) by reflexivity.
  assert (Hnone : Forall (fun line => @scan_line raw_html line = NotHeader)
                         (split nl (@markdown raw_html text))).
  { rewrite Hlines. repeat constructor. }
  split; [exact Hnone|].
  exact (proj2 (@no_header_lines raw_html text Hnone)).
Defined.

(** ** The order of siblings *)

Lemma pop_while_dropped {A} (p : A -> bool) (l : list A) :
  Forall (fun x => p x = true) (drop (length (pop_while p l)) l).
Proof.
  induction l as [|a l IH] using rev_ind; [constructor|].
  rewrite pop_while_snoc. destruct (p a) eqn:Ha.
  - pose proof (pop_while_length_le p l).
    rewrite drop_app_le by done. apply Forall_app. split; [done|]. by repeat constructor.
  - rewrite drop_all. constructor.
Qed.

Lemma nonincreasing_snoc ls a :
  nonincreasing (ls ++ [a]) = true <->
  nonincreasing ls = true
  /\ match last ls with Some b => (a <= b)%Z | None => True end.
Proof.
  induction ls as [|b ls IH]; [done|].
  destruct ls as [|c ls].
  - simpl. rewrite andb_true_r, Z.leb_le. naive_solver.
  - change (nonincreasing ((b :: c :: ls) ++ [a]))
      with ((c <=? b)%Z && nonincreasing ((c :: ls) ++ [a])).
    change (nonincreasing (b :: c :: ls))
      with ((c <=? b)%Z && nonincreasing (c :: ls)).
    rewrite last_cons_cons, !andb_true_iff, IH. naive_solver.
Qed.

Lemma siblings_ok_snoc kids k :
  siblings_ok kids -> siblings_ordered k = true ->
  last_level_ge kids (level_of k) -> siblings_ok (kids ++ [k]).
Proof.
  intros [Hlev Hall] Hk Hlast. split.
  - rewrite map_app. apply nonincreasing_snoc. split; [done|].
    unfold last_level_ge in Hlast. change (map level_of kids) with (level_of <$> kids).
    rewrite fmap_last. by destruct (last kids).
  - apply Forall_app. split; [done|]. by constructor.
Qed.

Lemma siblings_ordered_node l t kids :
  siblings_ok kids -> siblings_ordered (Node l t (mk_children kids)) = true.
Proof.
  intros [Hlev Hall]. destruct kids as [|k kids]; [done|].
  change (nonincreasing (map level_of (k :: kids))
          && forallb siblings_ordered (k :: kids) = true).
  rewrite Hlev. cbn [andb].
  apply forallb_forall. setoid_rewrite <- list_elem_of_In.
  by apply Forall_forall.
Qed.

Lemma spine_siblings_closed f rest :
  spine_siblings (f :: rest) ->
  siblings_ok (f_closed f ++ open_forest rest)
  /\ Forall (fun k => siblings_ordered k = true) (open_forest rest).
Proof.
  revert f. induction rest as [|g rest IH]; intros f (Hf & Hnext & Hrest).
  - simpl. rewrite app_nil_r. split; [done|constructor].
  - destruct (IH g Hrest) as [Hg _].
    assert (Hnode : siblings_ordered
                      (Node (f_level g) (f_text g)
                         (mk_children (f_closed g ++ open_forest rest))) = true)
      by by apply siblings_ordered_node.
    cbn [open_forest]. split; [|by repeat constructor].
    by apply siblings_ok_snoc.
Qed.

Lemma siblings_ok_forest roots sp :
  z_siblings (roots, sp) -> siblings_ok (roots ++ open_forest sp).
Proof.
  intros (Hroots & Hsp & Hbottom). simpl in *.
  destruct sp as [|b rest]; [by rewrite app_nil_r|].
  destruct (spine_siblings_closed b rest Hsp) as [Hb _].
  cbn [open_forest]. apply siblings_ok_snoc; [done| |done].
  by apply siblings_ordered_node.
Qed.

Lemma close_above_head_level n f rest :
  (0 < n)%nat ->
  exists c rest', close_above n (f :: rest) = Frame (f_level f) (f_text f) c :: rest'.
Proof. destruct f. by apply close_above_head. Qed.

Lemma spine_siblings_push l x sp : forall n,
  (0 < n)%nat -> spine_siblings sp ->
  Forall (fun f => (l <=? f_level f)%Z = true) (drop n sp) ->
  spine_siblings (close_above n sp ++ [Frame l x []]).
Proof.
  induction sp as [|f rest IH]; intros [|m] Hn Hsp Hpop; try lia.
  - simpl. split_and!; try done; try (split; [done|constructor]).
  - destruct (spine_siblings_closed f rest Hsp) as [Hclosed _].
    destruct Hsp as (Hf & Hnext & Hrest). destruct m as [|m].
    + cbn [close_above app]. cbn [spine_siblings f_closed f_level].
      split_and!; try done; try (split; [done|constructor]).
      unfold last_level_ge. destruct rest as [|g rest'].
      * rewrite Hnext. done.
      * cbn [open_forest]. rewrite last_snoc. simpl.
        simpl in Hpop. apply Forall_cons in Hpop as [Hg _]. by apply Z.leb_le.
    + change (close_above (S (S m)) (f :: rest)) with (f :: close_above (S m) rest).
      cbn [app spine_siblings]. split_and!; [done| |].
      * destruct rest as [|g rest'].
        { simpl. rewrite Hnext. done. }
        destruct (close_above_head_level (S m) g rest' ltac:(lia)) as (c & r' & ->).
        exact Hnext.
      * apply IH; [lia|done|done].
Qed.

Lemma z_push_siblings l x z : z_siblings z -> z_siblings (z_push l x z).
Proof.
  destruct z as [roots sp]. intros Hz.
  pose proof (siblings_ok_forest roots sp Hz) as Hforest.
  pose proof (pop_while_dropped (fun f => (l <=? f_level f)%Z) sp) as Hpop.
  destruct Hz as (Hroots & Hsp & Hbottom). cbn [fst snd] in *.
  destruct (z_push_cases l x roots sp) as [[Hn ->]|[Hn ->]]; cbn zeta in *.
  - rewrite Hn, drop_0 in Hpop.
    split_and!; cbn [fst snd];
      [done|simpl; split_and!; try done; try (split; [done|constructor])|].
    unfold last_level_ge. destruct sp as [|b rest].
    + by rewrite Hbottom.
    + cbn [open_forest]. rewrite last_snoc. simpl.
      apply Forall_cons in Hpop as [Hb _]. by apply Z.leb_le.
  - split_and!; cbn [fst snd]; [done|by apply spine_siblings_push|].
    destruct sp as [|b rest]; [by rewrite Hbottom|].
    destruct (close_above_head_level _ b rest Hn) as (c & r' & ->). exact Hbottom.
Qed.

Lemma z_run_siblings its : z_siblings (z_run its).
Proof.
  induction its as [|it its IH] using rev_ind.
  - split_and!; try done; try (split; [done|constructor]).
  - rewrite z_run_snoc. by apply z_push_siblings.
Qed.

Section WithPlatform.
Context `{Platform}.

(** X3: in the forest of [extract_headers] the roots come with levels
    that do not increase, and so do the children of every node. *)
Theorem extract_headers_siblings (markdown_text : str) (forest : list HeaderNode) :
  extract_headers markdown_text = Some forest ->
  nonincreasing (map level_of forest) = true
  /\ forallb siblings_ordered forest = true.
Proof.
  unfold extract_headers. rewrite extract_headers_in_eq.
  destruct (header_items _) as [its|]; [|done]. intros [= <-].
  pose proof (z_run_siblings its) as Hz.
  destruct (z_run its) as [roots sp].
  destruct (siblings_ok_forest roots sp Hz) as [Hlev Hall]. split; [done|].
  apply forallb_forall. setoid_rewrite <- list_elem_of_In. by apply Forall_forall.
Qed.

End WithPlatform.

(** X3, witness. *)
Lemma extract_headers_siblings_witness :
  let text := lines_lit ["<h1>a</h1>"; "<h3>b</h3>"; "<h2>c</h2>"; "<h2>d</h2>";
                         "<h1>e</h1>"] in
  exists forest,
    @extract_headers raw_html text = Some forest
    /\ map level_of forest = [1; 1]%Z
    /\ nonincreasing (map level_of forest) = true
    /\ forallb siblings_ordered forest = true.
Proof.
  intros text. eexists. split; [reflexivity|]. split; [reflexivity|].
  apply (@extract_headers_siblings raw_html text). reflexivity.
Defined.

(** ** The stack of the loop *)

Lemma levels_at_refs (h : heap) refs (fs : list frame) :
  Forall2 (fun r f => exists c, h !! r = Some (Dict (f_level f) (f_text f) c))
          refs fs ->
  map (fun ref => d_level <$> h !! ref) refs = map (fun f => Some (f_level f)) fs.
Proof.
  induction 1 as [|r f refs fs (c & Hc) _ IH]; [done|].
  cbn [map]. by rewrite Hc, IH.
Qed.

Lemma stack_levels_holds h0 roots sp :
  stack_levels (holds h0 (roots, sp)) = map (fun f => Some (f_level f)) sp.
Proof.
  unfold stack_levels.
  change (st_stack (holds h0 (roots, sp)))
    with (frame_refs (length h0 + fsize roots) sp).
  rewrite holds_heap_split.
  apply levels_at_refs, frame_lookup.
  by rewrite length_app, length_layout_forest.
Qed.

Lemma spine_ok_increasing lo sp :
  spine_ok lo sp -> increasing (map f_level sp) = true.
Proof.
  revert lo. induction sp as [|f rest IH]; intros lo; [done|].
  intros (_ & _ & Hrest). destruct rest as [|g rest']; [done|].
  change (increasing (map f_level (f :: g :: rest')))
    with ((f_level f <? f_level g)%Z && increasing (map f_level (g :: rest'))).
  rewrite (IH _ Hrest), andb_true_r. destruct Hrest as (Hfg & _). by apply Z.ltb_lt.
Qed.

Lemma open_levels_last its :
  last (open_levels its) = last (map fst its).
Proof.
  destruct its as [|it its _] using rev_ind; [done|].
  unfold open_levels. rewrite foldl_snoc, map_app. cbn [map].
  by rewrite !last_snoc.
Qed.

Lemma length_preorder n : length (preorder n) = tsize n.
Proof.
  induction n as [l t|l t kids IH] using HeaderNode_forest_ind; [done|].
  simpl. f_equal. induction IH as [|k rest Hk _ IHrest]; [done|].
  simpl. by rewrite length_app, Hk, IHrest.
Qed.

Lemma length_preorder_forest f : length (preorder_forest f) = fsize f.
Proof.
  unfold preorder_forest, fsize. induction f as [|k f IH]; [done|].
  simpl. by rewrite length_app, length_preorder, IH.
Qed.

Lemma push_header_top level header_text st :
  refs_in st ->
  let st' := push_header level header_text st in
  last (st_stack st') = Some (length (st_heap st))
  /\ st_heap st' !! length (st_heap st) = Some (Dict level header_text None)
  /\ length (st_heap st') = S (length (st_heap st))
  /\ refs_in st'.
Proof.
  unfold refs_in, push_header. intros Hin.
  set (stack := pop_while _ _).
  assert (Hstack : Forall (fun r => (r < length (st_heap st))%nat) stack).
  { unfold stack. rewrite pop_while_take. by apply Forall_take. }
  assert (Hpush : Forall (fun r => (r < S (length (st_heap st)))%nat)
                         (stack ++ [length (st_heap st)])).
  { apply Forall_app. split; [|repeat constructor].
    eapply Forall_impl; [exact Hstack|]. intros r Hr. simpl in Hr. lia. }
  destruct (last stack) as [top|] eqn:Htop; cbn [st_stack st_heap].
  - assert (Hlt : (top < length (st_heap st))%nat).
    { rewrite Forall_forall in Hstack. apply Hstack.
      apply last_Some in Htop as [l' ->]. apply elem_of_app. right.
      apply list_elem_of_here. }
    rewrite last_snoc, length_alter, length_app. cbn [length].
    split_and!; [done| |lia|].
    + rewrite list_lookup_alter_ne by lia. by rewrite list_lookup_middle.
    + by rewrite Nat.add_1_r.
  - rewrite last_snoc, length_app. cbn [length].
    split_and!; [done|by rewrite list_lookup_middle|lia|by rewrite Nat.add_1_r].
Qed.

Section WithPlatform.
Context `{Platform}.

Lemma run_lines_top lines : forall st st' its,
  run_lines st lines = Some st' ->
  header_items lines = Some its ->
  refs_in st ->
  match last its with
  | Some it =>
      exists ref,
        last (st_stack st') = Some ref
        /\ S ref = length (st_heap st')
        /\ st_heap st' !! ref = Some (Dict (fst it) (snd it) None)
  | None => st' = st
  end.
Proof.
  induction lines as [|line rest IH]; intros st st' its; cbn [run_lines header_items].
  - by intros [= <-] [= <-] _.
  - unfold step. destruct (scan_line line) as [|level header_text|]; [apply IH| |done].
    intros Hrun Hits Hin.
    destruct (header_items rest) as [its'|] eqn:Hrest; [|done].
    injection Hits as <-.
    destruct (push_header_top level header_text st Hin) as (Hlast & Hdict & Hlen & Hin').
    specialize (IH _ _ _ Hrun eq_refl Hin').
    destruct its' as [|it its'] using rev_ind.
    + cbn in IH. subst st'. cbn [last fst snd].
      exists (length (st_heap st)). by rewrite Hlen.
    + rewrite last_snoc in IH. rewrite app_comm_cons, last_snoc. exact IH.
Qed.

(** X4: when the loop of [extract_headers] ends, the stack holds
    references to dictionaries whose levels increase strictly from the
    bottom to the top; its top is the reference to the dictionary
    allocated last, which holds the level and the text of the last
    header read and has no children (the stack is empty when no header
    was read); one dictionary has been allocated for each header line,
    and the dictionaries that existed before are as they were. *)
Theorem run_lines_stack (h0 : heap) (lines : list str) (st : state) :
  run_lines (State h0 [] []) lines = Some st ->
  exists its,
    header_items lines = Some its
    /\ stack_levels st = map Some (open_levels its)
    /\ increasing (open_levels its) = true
    /\ last (open_levels its) = last (map fst its)
    /\ match last its with
       | Some it =>
           exists ref,
             last (st_stack st) = Some ref
             /\ S ref = length (st_heap st)
             /\ st_heap st !! ref = Some (Dict (fst it) (snd it) None)
       | None => st_stack st = []
       end
    /\ length (st_heap st) = (length h0 + length its)%nat
    /\ take (length h0) (st_heap st) = h0.
Proof.
  intros Hrun.
  assert (Htop : forall its, header_items lines = Some its ->
            match last its with
            | Some it =>
                exists ref,
                  last (st_stack st) = Some ref
                  /\ S ref = length (st_heap st)
                  /\ st_heap st !! ref = Some (Dict (fst it) (snd it) None)
            | None => st_stack st = []
            end).
  { intros its Hits.
    pose proof (run_lines_top lines _ _ _ Hrun Hits) as Ht.
    destruct (last its); [apply Ht; constructor|].
    by rewrite Ht by constructor. }
  revert Hrun.
  replace (State h0 [] []) with (holds h0 ([], [])).
  2:{ unfold holds, z_forest. simpl. by rewrite app_nil_r. }
  rewrite run_lines_holds.
  destruct (header_items lines) as [its|]; [|done]. intros [= <-].
  fold (z_run its). exists its. split; [done|].
  specialize (Htop its eq_refl). fold (z_run its) in Htop.
  pose proof (z_run_levels its) as Hlev.
  pose proof (z_run_ok its) as [_ Hok].
  pose proof (z_run_preorder its) as Hpre.
  destruct (z_run its) as [roots sp] eqn:Ez. cbn [snd] in *.
  split_and!.
  - rewrite stack_levels_holds, <- Hlev. by rewrite map_map.
  - rewrite <- Hlev. by eapply spine_ok_increasing.
  - apply open_levels_last.
  - exact Htop.
  - rewrite holds_heap_length, <- length_preorder_forest, Hpre. done.
  - unfold holds. cbn [st_heap]. by rewrite take_app_length.
Qed.

End WithPlatform.

(** X4, witness: the stack after an h1, an h2, an h3 and a second h2
    holds the h1 and the second h2, which is the fourth dictionary. *)
Lemma run_lines_stack_witness :
  let lines := map lit ["<h1>a</h1>"; "<h2>b</h2>"; "<h3>c</h3>"; "<h2>d</h2>"] in
  exists st,
    @run_lines raw_html (State [] [] []) lines = Some st
    /\ stack_levels st = [Some 1%Z; Some 2%Z]
    /\ last (st_stack st) = Some 3%nat
    /\ st_heap st !! 3%nat = Some (Dict 2 (lit "d") None)
    /\ length (st_heap st) = 4%nat.
Proof.
  intros lines. eexists. split; [reflexivity|].
  destruct (@run_lines_stack raw_html [] lines _ eq_refl)
    as (its & Hits & Hstack & _ & _ & Htop & Hlen & _).
  assert (Hv : its = [(1%Z, lit "a"); (2%Z, lit "b"); (3%Z, lit "c");
                      (2%Z, lit "d")]).
  { apply (inj Some). rewrite <- Hits. reflexivity. }
  subst its. cbn [last] in Htop.
  destruct Htop as (ref & Hlast & Href & Hdict).
  rewrite Hlen in Href. injection Href as ->.
  split_and!; [exact Hstack|exact Hlast|exact Hdict|exact Hlen].
Defined.

(** ** The lines of the table of contents *)

Lemma split_no_nl (s : str) : Forall (fun line => nl ∉ line) (split nl s).
Proof.
  induction s as [|a s IH]; simpl.
  - repeat constructor. apply not_elem_of_nil.
  - destruct (N.eqb_spec a nl) as [->|Ha].
    + constructor; [apply not_elem_of_nil|done].
    + destruct (split nl s) as [|w ws]; [repeat constructor|].
      * rewrite not_elem_of_cons. split; [done|apply not_elem_of_nil].
      * apply Forall_cons in IH as [Hw Hws]. constructor; [|done].
        rewrite not_elem_of_cons. split; [congruence|done].
Qed.

Lemma slice_no_nl a b (s : str) : nl ∉ s -> nl ∉ slice a b s.
Proof.
  intros Hs Hin. apply Hs. unfold slice in Hin.
  eapply elem_of_sublist; [exact Hin|].
  etrans; [apply sublist_take|apply sublist_drop].
Qed.

Lemma preorder_depth_eq d l t c :
  preorder_depth d (Node l t c)
  = (d, t) :: concat (map (preorder_depth (S d)) (default [] c)).
Proof. by destruct c. Qed.

Lemma toc_entry_eq d l t c :
  toc_entry d (Node l t c)
  = entry_line (d, t) ++ nl :: concat (map (toc_entry (S d)) (default [] c)).
Proof.
  unfold entry_line. destruct c; simpl; rewrite <- ?app_assoc; simpl;
    by rewrite <- ?app_assoc, ?app_nil_r.
Qed.

Lemma entry_line_no_nl d t : nl ∉ t -> nl ∉ entry_line (d, t).
Proof.
  intros Ht. unfold entry_line. rewrite !not_elem_of_app. split_and!; [| |done].
  - intros [Heq _]%elem_of_replicate. discriminate.
  - intros Hin%list_elem_of_In. vm_compute in Hin. intuition discriminate.
Qed.

Lemma split_toc_kids ks :
  Forall (fun k => forall d rest,
            Forall (fun it => nl ∉ snd it) (preorder k) ->
            split nl (toc_entry d k ++ rest)
            = map entry_line (preorder_depth d k) ++ split nl rest) ks ->
  forall d rest,
    Forall (fun it => nl ∉ snd it) (preorder_forest ks) ->
    split nl (concat (map (toc_entry d) ks) ++ rest)
    = map entry_line (concat (map (preorder_depth d) ks)) ++ split nl rest.
Proof.
  unfold preorder_forest.
  induction 1 as [|k ks Hk _ IHks]; intros d rest Hall; [done|].
  cbn [map concat] in *. apply Forall_app in Hall as [Hk1 Hks].
  rewrite <- app_assoc, Hk by done. rewrite IHks by done.
  by rewrite map_app, <- app_assoc.
Qed.

(** The entries of a tree, then what follows. *)
Lemma split_toc_entry n : forall d rest,
  Forall (fun it => nl ∉ snd it) (preorder n) ->
  split nl (toc_entry d n ++ rest)
  = map entry_line (preorder_depth d n) ++ split nl rest.
Proof.
  induction n as [l t|l t kids IH] using HeaderNode_forest_ind; intros d rest Hn;
    rewrite toc_entry_eq, preorder_depth_eq, preorder_eq in *;
    apply Forall_cons in Hn as [Ht Hkids]; cbn [snd] in Ht;
    rewrite <- app_assoc; cbn [app map];
    rewrite split_line by (by apply entry_line_no_nl); f_equal.
  change (default [] (Some kids)) with kids in *. by apply split_toc_kids.
Qed.

Lemma split_toc forest d :
  Forall (fun it => nl ∉ snd it) (preorder_forest forest) ->
  split nl (generate_table_of_contents forest d)
  = map entry_line (concat (map (preorder_depth d) forest)) ++ [[]].
Proof.
  intros Hall. unfold generate_table_of_contents.
  rewrite <- (app_nil_r (concat (map (toc_entry d) forest))).
  rewrite split_toc_kids; [done| |done].
  apply Forall_forall. intros k _ d' rest. apply split_toc_entry.
Qed.

Lemma preorder_depth_texts n d :
  map snd (preorder_depth d n) = map snd (preorder n).
Proof.
  revert d. induction n as [l t|l t kids IH] using HeaderNode_forest_ind;
    intros d; [done|].
  simpl. f_equal. induction IH as [|k ks Hk _ IHks]; [done|].
  simpl. by rewrite !map_app, Hk, IHks.
Qed.

Section WithPlatform.
Context `{Platform}.

Lemma scan_line_no_nl line level t :
  nl ∉ line -> scan_line line = Header level t -> nl ∉ t.
Proof.
  intros Hline. unfold scan_line.
  destruct (line !! 2%nat) as [c|]; [|done].
  destruct (startswith _ _ && isdigit c); [|done].
  destruct (decimal c); [|done].
  destruct (index 62%N line), (rindex 60%N line); try done.
  intros [= _ <-]. by apply slice_no_nl.
Qed.

Lemma header_items_no_nl lines its :
  Forall (fun line => nl ∉ line) lines ->
  header_items lines = Some its ->
  Forall (fun it => nl ∉ snd it) its.
Proof.
  intros Hlines. revert its. induction Hlines as [|line rest Hline _ IH]; intros its.
  - by intros [= <-].
  - simpl. destruct (scan_line line) as [|level t|] eqn:Hscan; [apply IH| |done].
    destruct (header_items rest) as [its'|]; [|done]. intros [= <-].
    constructor; [|by apply IH]. simpl. by eapply scan_line_no_nl.
Qed.

(** X5: the table of contents is the title line, an empty line, and one
    line for each header of the document, in document order: the text
    of the header after "- ", indented by four spaces for each level of
    nesting in the forest. *)
Theorem table_of_contents_lines (markdown_text : str) (forest : list HeaderNode) :
  extract_headers markdown_text = Some forest ->
  exists toc is_chinese,
    table_of_contents markdown_text = Some (toc, is_chinese)
    /\ split nl toc
       = [if is_chinese then lit "## " ++ [30446; 24405]%N
          else lit "## Table of Contents"; []]
         ++ map entry_line (concat (map (preorder_depth 0) forest)) ++ [[]]
    /\ map snd (concat (map (preorder_depth 0) forest))
       = map snd (preorder_forest forest)
    /\ header_items (split nl (markdown markdown_text))
       = Some (preorder_forest forest).
Proof.
  intros Hforest.
  assert (Hitems : header_items (split nl (markdown markdown_text))
                   = Some (preorder_forest forest)).
  { unfold extract_headers in Hforest. rewrite extract_headers_in_eq in Hforest.
    destruct (header_items _) as [its|]; [|done].
    injection Hforest as <-. by rewrite z_run_preorder. }
  pose proof (header_items_no_nl _ _ (split_no_nl _) Hitems) as Hnl.
  unfold table_of_contents. rewrite table_of_contents_in_eq, Hforest. cbn.
  eexists _, _. split; [done|]. split_and!; [| |done].
  - unfold toc_title, toc_title_cjk, toc_title_en.
    destruct (contains_chinese _).
    + replace ((lit "## " ++ [30446; 24405]%N ++ [nl; nl])
               ++ generate_table_of_contents forest 0)
        with ((lit "## " ++ [30446; 24405]%N)
              ++ nl :: [] ++ nl :: generate_table_of_contents forest 0)
        by (by rewrite <- !app_assoc).
      rewrite split_line
        by (intros Hin%list_elem_of_In; vm_compute in Hin; intuition discriminate).
      rewrite split_line by apply not_elem_of_nil. by rewrite split_toc.
    + replace ((lit "## Table of Contents" ++ [nl; nl])
               ++ generate_table_of_contents forest 0)
        with (lit "## Table of Contents"
              ++ nl :: [] ++ nl :: generate_table_of_contents forest 0)
        by (by rewrite <- !app_assoc).
      rewrite split_line
        by (intros Hin%list_elem_of_In; vm_compute in Hin; intuition discriminate).
      rewrite split_line by apply not_elem_of_nil. by rewrite split_toc.
  - clear. unfold preorder_forest. induction forest as [|k ks IH]; [done|].
    cbn [map concat]. rewrite !map_app, preorder_depth_texts. f_equal.
    apply IH.
Qed.

End WithPlatform.

(** X5, witness. *)
Lemma table_of_contents_lines_witness :
  let text := lines_lit ["<h1>Intro</h1>"; "<p>x</p>"; "<h2>Part</h2>";
                         "<h3>Detail</h3>"; "<h1>End</h1>"] in
  exists toc,
    @table_of_contents raw_html text = Some (toc, false)
    /\ split nl toc
       = [lit "## Table of Contents"; []; lit "- Intro"; lit "    - Part";
          lit "        - Detail"; lit "- End"; []].
Proof.
  intros text.
  destruct (@table_of_contents_lines raw_html text _ eq_refl)
    as (toc & flag & Htoc & Hlines & _).
  assert (Hflag : flag = false).
  { vm_compute in Htoc. by injection Htoc as _ <-. }
  subst flag. exists toc. split; [exact Htoc|]. rewrite Hlines. reflexivity.
Defined.

(** ** Trimming and tag removal *)

Lemma last_rev (s : str) : last (rev s) = head s.
Proof. destruct s as [|a s]; [done|]. simpl. by rewrite last_snoc. Qed.

Lemma head_rev (s : str) : head (rev s) = last s.
Proof. by rewrite <- (rev_involutive s) at 2; rewrite last_rev. Qed.

Lemma lstrip_head s c : head (lstrip s) = Some c -> isspace c = false.
Proof.
  induction s as [|a s IH]; [done|]. simpl.
  destruct (isspace a) eqn:Ha; [done|]. by intros [= <-].
Qed.

Lemma lstrip_suffix s :
  exists pre, s = pre ++ lstrip s /\ Forall (fun c => isspace c = true) pre.
Proof.
  induction s as [|a s (pre & Hs & Hpre)]; [by exists []|]. simpl.
  destruct (isspace a) eqn:Ha.
  - exists (a :: pre). split; [by rewrite Hs at 1|by constructor].
  - by exists [].
Qed.

Lemma lstrip_nil s : lstrip s = [] <-> Forall (fun c => isspace c = true) s.
Proof.
  induction s as [|a s IH]; simpl; [done|].
  destruct (isspace a) eqn:Ha.
  - rewrite IH. split; [by constructor|by intros [_ ?]%Forall_cons].
  - split; [done|]. intros [? _]%Forall_cons. congruence.
Qed.

Lemma strip_trimmed s : trimmed (strip s).
Proof.
  unfold strip, trimmed. set (a := lstrip s). set (b := lstrip (rev a)).
  split; intros c.
  - rewrite head_rev. intros Hlast.
    destruct (lstrip_suffix (rev a)) as (pre & Hrev & _). fold b in Hrev.
    assert (Hb : b <> []) by (by intros Hb; rewrite Hb in Hlast).
    assert (last (rev a) = Some c) as Ha.
    { rewrite Hrev, last_app. by rewrite Hlast. }
    rewrite last_rev in Ha. by apply lstrip_head in Ha.
  - rewrite last_rev. apply lstrip_head.
Qed.

Lemma strip_nil s : strip s = [] <-> Forall (fun c => isspace c = true) s.
Proof.
  unfold strip. split.
  - intros Hnil. apply (f_equal (@rev _)) in Hnil. rewrite rev_involutive in Hnil.
    simpl in Hnil. apply lstrip_nil in Hnil.
    destruct (lstrip_suffix s) as (pre & Hs & Hpre). rewrite Hs.
    apply Forall_app. split; [done|].
    apply Forall_forall. intros c Hc. rewrite Forall_forall in Hnil.
    apply Hnil. apply list_elem_of_In, in_rev. rewrite rev_involutive.
    by apply list_elem_of_In.
  - intros Hall. apply lstrip_nil in Hall. by rewrite Hall.
Qed.

(** What [strip_tags] leaves has no tag. *)
Lemma find_gt_strip_tags s :
  find_gt s = None -> find_gt (strip_tags 0 s) = None.
Proof.
  induction s as [|c s IH]; [done|]. simpl.
  destruct (N.eqb_spec c 62) as [->|Hgt]; [done|].
  destruct (N.eqb_spec c nl) as [->|Hnl].
  - intros _. simpl. done.
  - destruct (find_gt s) as [n|] eqn:Hf; [done|]. intros _.
    destruct (N.eqb_spec c 60) as [->|Hlt]; simpl.
    + by rewrite IH.
    + destruct (N.eqb_spec c 62); [done|]. destruct (N.eqb_spec c nl); [done|].
      by rewrite IH.
Qed.

Lemma no_tag_cons c s :
  no_tag s -> (c = 60%N -> find_gt s = None) -> no_tag (c :: s).
Proof.
  intros Hs Hc [|x a] b.
  - intros [= -> ->]. by apply Hc.
  - intros [= -> ->]. by eapply Hs.
Qed.

Lemma strip_tags_no_tag s : forall k, no_tag (strip_tags k s).
Proof.
  induction s as [|c s IH]; intros k.
  - simpl. by intros [|??] ?.
  - simpl. destruct k as [|k]; [|apply IH].
    destruct (N.eqb_spec c 60) as [->|Hlt].
    + destruct (find_gt s) as [n|] eqn:Hf; [apply IH|].
      apply no_tag_cons; [apply IH|]. intros _. by apply find_gt_strip_tags.
    + apply no_tag_cons; [apply IH|done].
Qed.

Lemma strip_tags_id s : no_tag s -> strip_tags 0 s = s.
Proof.
  induction s as [|c s IH]; intros Hs; [done|]. simpl.
  assert (Hrest : no_tag s).
  { intros a b ->. apply (Hs (c :: a) b). done. }
  destruct (N.eqb_spec c 60) as [->|Hlt].
  - rewrite (Hs [] s eq_refl). by rewrite IH.
  - by rewrite IH.
Qed.

Lemma strip_tags_sublist s : forall k, strip_tags k s `sublist_of` s.
Proof.
  induction s as [|c s IH]; intros k; simpl; [done|].
  destruct k as [|k]; [|by apply sublist_cons].
  destruct (c =? 60)%N.
  - destruct (find_gt s); [by apply sublist_cons|by apply sublist_skip].
  - by apply sublist_skip.
Qed.

(** X7: [re.sub(r'<.*?>', '', s)] only removes text, a text without "<"
    is left as it is, and what is left holds no tag: removing the tags
    once more changes nothing. *)
Theorem strip_tags_idempotent (s : str) :
  strip_tags 0 s `sublist_of` s
  /\ (60%N ∉ s -> strip_tags 0 s = s)
  /\ strip_tags 0 (strip_tags 0 s) = strip_tags 0 s.
Proof.
  split_and!.
  - apply strip_tags_sublist.
  - intros Hno. apply strip_tags_id. intros a b ->.
    exfalso. apply Hno. apply elem_of_app. right. apply list_elem_of_here.
  - apply strip_tags_id, strip_tags_no_tag.
Qed.

(** X7, witness. *)
Lemma strip_tags_idempotent_witness :
  (60%N ∉ lit "body1") /\ strip_tags 0 (lit "body1") = lit "body1".
Proof.
  assert (Hno : 60%N ∉ lit "body1").
  { intros Hin%list_elem_of_In. vm_compute in Hin. intuition discriminate. }
  split; [exact Hno|].
  destruct (strip_tags_idempotent (lit "body1")) as (_ & Hid & _).
  exact (Hid Hno).
Defined.

Section WithPlatform.
Context `{Platform}.

(** X6: every section [extract_sections] returns has a content that is
    not empty and has no white space at either end, and a title with no
    white space at either end; a header whose content is made of tags
    and white space only gives no section. *)
Theorem sections_trimmed (markdown_text : str) :
  Forall (fun sec => written_content sec <> []
                     /\ trimmed (written_content sec)
                     /\ trimmed (section_title sec))
         (extract_sections markdown_text)
  /\ forall title content,
       Forall (fun c => isspace c = true) (strip_tags 0 content) ->
       section_of (title, content) = None.
Proof.
  split.
  - apply Forall_forall. intros sec. unfold extract_sections.
    rewrite list_elem_of_omap. intros ([title content] & _ & Hsec).
    apply section_of_Some in Hsec as [Hne ->]. simpl.
    split_and!; [done|apply strip_trimmed..].
  - intros title content Hall. unfold section_of.
    apply strip_nil in Hall. by rewrite Hall.
Qed.

End WithPlatform.

(** X6, witness: a header followed by an empty paragraph. *)
Lemma sections_trimmed_witness :
  Forall (fun c => isspace c = true) (strip_tags 0 ([nl] ++ lit "<p> </p>" ++ [nl]))
  /\ section_of (lit "A", [nl] ++ lit "<p> </p>" ++ [nl]) = None.
Proof.
  assert (Hall : Forall (fun c => isspace c = true)
                        (strip_tags 0 ([nl] ++ lit "<p> </p>" ++ [nl]))).
  { vm_compute. repeat constructor. }
  split; [exact Hall|].
  exact (proj2 (@sections_trimmed raw_html []) _ _ Hall).
Defined.

(** ** More on the writer stage *)

Section WriterMore.
Import Writer.
Variable call_model : prompt -> pyval -> str -> option pyval.
Variable today : str.

(** X8: on a state without a task dictionary [run] raises, after the
    report of "writing_report" and before any model call. *)
Theorem run_without_task (self : WriterAgent) (research_state : gmap str pyval) :
  (forall task, research_state !! lit "task" <> Some (VDict task)) ->
  run call_model today self research_state []
  = (None, [progress self (lit "writing_report") writing_message writing_message])
  /\ model_calls (snd (run call_model today self research_state [])) = [].
Proof.
  intros Hno. rewrite run_eq. unfold run_outcome.
  destruct (research_state !! lit "task") as [[]|] eqn:Htask;
    try (split; [reflexivity|]; unfold progress;
         by destruct (websocket self), (stream_output self)).
  by destruct (Hno d).
Qed.

(** X9: [run] returns exactly when the state has a task dictionary, the
    section-writing call answers with a dictionary and, if the guideline
    flag is set, the header revision call answers; it then has made one
    model call with the prompt of the sections, to which it adds one
    with the prompt of the headers if the flag is set, both with the
    model of the task and the "json" format. *)
Theorem run_model_calls (self : WriterAgent) (research_state : gmap str pyval) :
  let out := run call_model today self research_state [] in
  (is_Some (fst out) <->
     exists task content,
       research_state !! lit "task" = Some (VDict task)
       /\ call_model (sections_prompt today research_state task)
            (task_field task (lit "model")) (lit "json") = Some (VDict content)
       /\ (truthy (task_field task (lit "follow_guidelines")) = true ->
             is_Some (call_model (headers_prompt research_state task)
                        (task_field task (lit "model")) (lit "json"))))
  /\ (is_Some (fst out) ->
        exists task,
          research_state !! lit "task" = Some (VDict task)
          /\ model_calls (snd out)
             = [(sections_prompt today research_state task,
                 task_field task (lit "model"), lit "json")]
               ++ (if truthy (task_field task (lit "follow_guidelines"))
                   then [(headers_prompt research_state task,
                          task_field task (lit "model"), lit "json")]
                   else [])).
Proof.
  cbv zeta. rewrite run_eq. unfold run_outcome, sections_prompt, headers_prompt,
    task_field, progress.
  assert (Hnone : forall t : list event, ~ is_Some (fst (@None (gmap str pyval), t))).
  { intros t [? [=]]. }
  destruct (research_state !! lit "task") as [v|] eqn:Htask.
  2:{ split; [split|]; [by intros ?%Hnone| |by intros ?%Hnone].
      by intros (? & ? & [=] & _). }
  destruct v as [| | | | |task];
    try (split; [split|]; [by intros ?%Hnone| |by intros ?%Hnone];
         by intros (? & ? & [=] & _)).
  destruct (call_model _ _ _) as [response|] eqn:Hc1.
  2:{ split; [split|]; [by intros ?%Hnone| |by intros ?%Hnone].
      intros (task' & content & [= <-] & Hcall & _). congruence. }
  destruct (truthy (default VNone (task !! lit "follow_guidelines"))) eqn:Hf.
  - destruct (call_model (ReviseHeadersPrompt _ _) _ _) as [revised|] eqn:Hc2.
    + destruct response as [| | | | |content].
      6:{ cbn [fst snd]. split.
          - split; [|intros _; by eexists]. intros _. exists task, content.
            rewrite Hf. split_and!; [done|done|]. intros _. rewrite Hc2. by eexists.
          - intros _. exists task. split; [done|]. rewrite Hf.
            destruct (websocket self), (stream_output self),
              (truthy (default VNone (task !! lit "verbose"))); reflexivity. }
      all: split; [split|]; [by intros ?%Hnone| |by intros ?%Hnone];
        intros (task' & content' & [= <-] & Hcall & _); rewrite Hf in Hcall;
        congruence.
    + split; [split|]; [by intros ?%Hnone| |by intros ?%Hnone].
      intros (task' & content & [= <-] & _ & Hrev).
      destruct (Hrev Hf) as [? Hsome]. congruence.
  - destruct response as [| | | | |content].
    6:{ cbn [fst snd]. split.
        - split; [|intros _; by eexists]. intros _. exists task, content.
          rewrite Hf. split_and!; [done|done|]. intros [=].
        - intros _. exists task. split; [done|]. rewrite Hf.
          destruct (websocket self), (stream_output self),
            (truthy (default VNone (task !! lit "verbose"))); reflexivity. }
    all: split; [split|]; [by intros ?%Hnone| |by intros ?%Hnone];
      intros (task' & content' & [= <-] & Hcall & _); rewrite Hf in Hcall;
        congruence.
Qed.

(** X10: when the section-writing call raises, [run] raises at once,
    having made that call only; when it answers with a value that is not
    a dictionary, [run] raises as well, but only at the end: the header
    revision call is made all the same if the guideline flag is set. *)
Theorem run_model_failure (self : WriterAgent)
    (research_state task : gmap str pyval) :
  research_state !! lit "task" = Some (VDict task) ->
  let out := run call_model today self research_state [] in
  let call1 := (sections_prompt today research_state task,
                task_field task (lit "model"), lit "json") in
  let call2 := (headers_prompt research_state task,
                task_field task (lit "model"), lit "json") in
  (call_model (fst (fst call1)) (snd (fst call1)) (snd call1) = None ->
     fst out = None /\ model_calls (snd out) = [call1]
     /\ length (snd out) = 2%nat)
  /\ (forall response,
        call_model (fst (fst call1)) (snd (fst call1)) (snd call1) = Some response ->
        (forall content, response <> VDict content) ->
        fst out = None
        /\ model_calls (snd out)
           = call1 :: (if truthy (task_field task (lit "follow_guidelines"))
                       then [call2] else [])).
Proof.
  intros Htask. cbv zeta. rewrite run_eq.
  unfold run_outcome, sections_prompt, headers_prompt, task_field, progress.
  rewrite Htask. cbn [fst snd]. split.
  - intros ->. split_and!; try done.
    by destruct (websocket self), (stream_output self).
  - intros response -> Hnot.
    destruct (truthy (default VNone (task !! lit "follow_guidelines")));
      [destruct (call_model (ReviseHeadersPrompt _ _) _ _)|];
      (destruct response as [| | | | |content]; [..|by destruct (Hnot content)]);
      (split; [done|]);
      destruct (websocket self), (stream_output self),
        (truthy (default VNone (task !! lit "verbose"))); reflexivity.
Qed.

End WriterMore.

(** X8, witness: an empty state. *)
Lemma run_without_task_witness :
  fst (Writer.run Writer.sample_model [] Writer.streaming_agent ∅ []) = None
  /\ model_calls (snd (Writer.run Writer.sample_model [] Writer.streaming_agent ∅ []))
     = [].
Proof.
  destruct (run_without_task Writer.sample_model [] Writer.streaming_agent ∅)
    as [Hrun Hcalls].
  - intros task. by rewrite lookup_empty.
  - split; [by rewrite Hrun|exact Hcalls].
Defined.

(** X9, witness: the guideline flag makes the second call. *)
Lemma run_model_calls_witness :
  let out := Writer.run Writer.sample_model [] Writer.local_agent
               (Writer.sample_state false true) [] in
  is_Some (fst out) /\ length (model_calls (snd out)) = 2%nat.
Proof.
  intros out.
  assert (Hret : is_Some (fst out)) by (vm_compute; eauto).
  split; [exact Hret|].
  destruct (run_model_calls Writer.sample_model [] Writer.local_agent
              (Writer.sample_state false true)) as [_ Hcalls].
  destruct (Hcalls Hret) as (task & Htask & Hc).
  injection Htask as <-. unfold out. rewrite Hc. reflexivity.
Defined.

(** X10, witness: a model that answers with a list. *)
Lemma run_model_failure_witness :
  let model := fun (p : Writer.prompt) (m : pyval) (f : str) => Some (VList []) in
  let out := Writer.run model [] Writer.local_agent
               (Writer.sample_state false true) [] in
  fst out = None /\ length (model_calls (snd out)) = 2%nat.
Proof.
  intros model out.
  destruct (run_model_failure model [] Writer.local_agent
              (Writer.sample_state false true)
              (<[lit "verbose" := VBool false]>
               (<[lit "follow_guidelines" := VBool true]>
               (<[lit "model" := VStr (lit "gpt")]> ∅))) eq_refl)
    as [_ Hlate].
  destruct (Hlate (VList []) eq_refl ltac:(done)) as [Hnone Hcalls].
  split; [exact Hnone|]. unfold out. rewrite Hcalls. reflexivity.
Defined.

(** ** More on the report routes *)

Section ServerMore.
Import Server.
Variable run_agent : ResearchRequest -> option (str * researcher).
Variable write_md_to_word write_md_to_pdf : str -> str -> str.
Variable known_tone : str -> bool.

(** X11: [write_report] raises before the agent is run when the tone of
    the request is not a member of [Tone]; when the agent raises, it
    raises with nothing exported; it returns exactly when the tone is
    known and the agent returns, and the documents are then written from
    the report of the agent, the Word document first. *)
Theorem write_report_steps (research_request : ResearchRequest)
    (research_id : str) :
  let out := write_report run_agent write_md_to_word write_md_to_pdf
               known_tone research_request research_id [] in
  (known_tone (tone research_request) = false -> out = (None, []))
  /\ (known_tone (tone research_request) = true ->
      run_agent research_request = None ->
      out = (None, [RunAgent research_request]))
  /\ (is_Some (fst out) <->
        known_tone (tone research_request) = true
        /\ is_Some (run_agent research_request))
  /\ (forall report researcher,
        known_tone (tone research_request) = true ->
        run_agent research_request = Some (report, researcher) ->
        snd out = [RunAgent research_request;
                   WriteMdToWord report research_id;
                   WriteMdToPdf report research_id]).
Proof.
  cbv zeta. unfold write_report, bind, ret, raise, emit.
  destruct (known_tone (tone research_request)); simpl.
  - destruct (run_agent research_request) as [[report researcher]|]; simpl.
    + split_and!; try done.
      * split; [by eauto|]. intros _. case_bool_decide; simpl; by eexists.
      * intros ? ? _ [= <- <-]. by case_bool_decide.
    + split_and!; try done. split; [by intros [? [=]]|]. by intros [_ [? [=]]].
  - split_and!; try done. split; [by intros [? [=]]|]. by intros [[=] _].
Qed.

(** X12: two identifiers never have the same document path, and the
    document of an identifier that does not start with "/" lies in
    "outputs/". *)
Theorem docx_path_of_inj (id1 id2 : str) :
  docx_path_of id1 = docx_path_of id2 -> id1 = id2.
Proof.
  assert (Hjoin : forall b, path_join (lit "outputs") b
                            = if startswith (lit "/") b then b
                              else lit "outputs/" ++ b).
  { intros b. unfold path_join. by destruct (startswith _ b). }
  assert (Hslash : forall b, startswith (lit "/") b = true ->
                             exists b', b = 47%N :: b').
  { intros [|c b']; [done|]. change (lit "/") with [47%N]. cbn [startswith].
    rewrite andb_true_r. intros <-%N.eqb_eq. by eexists. }
  unfold docx_path_of. rewrite !Hjoin.
  destruct (startswith _ (id1 ++ _)) eqn:H1, (startswith _ (id2 ++ _)) eqn:H2.
  - by intros ?%app_inv_tail.
  - apply Hslash in H1 as [b' ->]. intros [=].
  - apply Hslash in H2 as [b' ->]. intros [=].
  - by intros ?%app_inv_head%app_inv_tail.
Qed.

End ServerMore.

(** X11, witness: a tone that is not in the enumeration. *)
Lemma write_report_steps_witness :
  let request :=
    {| Server.task := lit "x"; Server.report_type := lit "research_report";
       Server.report_source := lit "web"; Server.tone := lit "Loud";
       Server.headers := None; Server.repo_name := lit "repo";
       Server.branch_name := lit "main";
       Server.generate_in_background := false; Server.language := None |} in
  Server.sample_tone (Server.tone request) = false
  /\ Server.write_report Server.sample_run_agent Server.sample_word
       Server.sample_pdf Server.sample_tone request (lit "task_1_x") []
     = (None, []).
Proof.
  intros request.
  assert (Htone : Server.sample_tone (Server.tone request) = false) by reflexivity.
  split; [exact Htone|].
  destruct (write_report_steps Server.sample_run_agent Server.sample_word
              Server.sample_pdf Server.sample_tone request (lit "task_1_x"))
    as (Hbad & _).
  exact (Hbad Htone).
Defined.

(** X12, witness. *)
Lemma docx_path_of_inj_witness :
  Server.docx_path_of (lit "task_1_x") = lit "outputs/task_1_x.docx"
  /\ (Server.docx_path_of (lit "task_1_x") = Server.docx_path_of (lit "task_1_y")
      -> False).
Proof.
  split; [reflexivity|].
  intros Heq. apply docx_path_of_inj in Heq. vm_compute in Heq. discriminate.
Defined.

(** ** The summary route *)

Section SummaryFacts.
Import Server Summary.
Variable unsafe : char -> bool.
Variable run_agent : ResearchRequest -> option (str * researcher).
Variable write_md_to_word write_md_to_pdf : str -> str -> str.
Variable known_tone : str -> bool.
Variable base_url : option str.

(** X13: [generate_summary] never raises. When "Objective" is a tone and
    the agent returns for both requests, it returns the two reports,
    the identifiers "summary_cn_..." and "summary_en_..." made from the
    clock and the first twenty characters of the name, and for each the
    URL "<BASE_URL>/outputs/<identifier>.pdf", which starts with "None"
    when BASE_URL is not set. When the tone is unknown or the agent
    raises for one of the two requests, it answers with status 500 and
    returns neither report. *)
Theorem generate_summary_outcome (now1 now2 : Q) (request : SummaryRequest) :
  let chinese_id := summary_id unsafe (lit "summary_cn_") now1 request in
  let english_id := summary_id unsafe (lit "summary_en_") now2 request in
  let result := generate_summary unsafe run_agent write_md_to_word
                  write_md_to_pdf known_tone base_url now1 now2 request in
  (forall creport cresearcher ereport eresearcher,
     known_tone (lit "Objective") = true ->
     run_agent (chinese_request request) = Some (creport, cresearcher) ->
     run_agent (english_request request) = Some (ereport, eresearcher) ->
     result
     = SummaryResult creport (Some chinese_id)
         (format_optional base_url ++ lit "/outputs/" ++ chinese_id ++ lit ".pdf")
         ereport (Some english_id)
         (format_optional base_url ++ lit "/outputs/" ++ english_id ++ lit ".pdf"))
  /\ (known_tone (lit "Objective") = false
      \/ run_agent (chinese_request request) = None
      \/ run_agent (english_request request) = None ->
      result = InternalError)
  /\ (forall prefix now request',
        take 20 (name request') = take 20 (name request) ->
        summary_id unsafe prefix now request' = summary_id unsafe prefix now request).
Proof.
  cbv zeta. unfold generate_summary, gather, write_report, bind, ret, raise, emit.
  change (tone (chinese_request request)) with (lit "Objective").
  change (tone (english_request request)) with (lit "Objective").
  change (report_type (chinese_request request)) with (lit "basic_report").
  change (report_type (english_request request)) with (lit "basic_report").
  assert (Hbasic : bool_decide (lit "basic_report" = lit "multi_agents") = false)
    by (apply bool_decide_eq_false_2; intros Heq; vm_compute in Heq; discriminate).
  rewrite Hbasic. split_and!.
  - intros creport cresearcher ereport eresearcher -> -> ->. reflexivity.
  - intros [->|[->| ->]]; simpl; [done| |].
    + by destruct (known_tone _).
    + destruct (known_tone _); simpl; [|done].
      by destruct (run_agent (chinese_request request)) as [[]|].
  - intros prefix now request' Hname. unfold summary_id. by rewrite Hname.
Qed.

End SummaryFacts.

(** X13, witness: BASE_URL is not set, and the title is longer than
    twenty characters. *)
Lemma generate_summary_outcome_witness :
  exists summary_chinese summary_english,
    Summary.generate_summary Server.sample_unsafe Server.sample_run_agent
      Server.sample_word Server.sample_pdf Server.sample_tone None
      (QArith_base.Qmake 401 4) (QArith_base.Qmake 401 4) Summary.sample_book
    = Summary.SummaryResult summary_chinese
        (Some (lit "summary_cn_100_A Very Long Book Tit"))
        (lit "None/outputs/summary_cn_100_A Very Long Book Tit.pdf")
        summary_english
        (Some (lit "summary_en_100_A Very Long Book Tit"))
        (lit "None/outputs/summary_en_100_A Very Long Book Tit.pdf").
Proof.
  destruct (generate_summary_outcome Server.sample_unsafe Server.sample_run_agent
              Server.sample_word Server.sample_pdf Server.sample_tone None
              (QArith_base.Qmake 401 4) (QArith_base.Qmake 401 4)
              Summary.sample_book) as [Hok _].
  eexists _, _. rewrite (Hok _ _ _ _ eq_refl eq_refl eq_refl). reflexivity.
Defined.

(** ** The forest of the headers *)

Section WithPlatform.
Context `{Platform}.

(** X14: when no line of the rendered document makes the scan raise,
    [extract_headers] returns a forest in which (1) the children of
    every node have a strictly greater level than the node, (2) whose
    pre-order traversal is the sequence of the header lines of the
    document, with their levels and texts (the headers written on one
    line, when the document is made of such headers and of lines that do
    not start with "<h" and a digit), and (3) in which a header whose
    level is at most the level of every header open when it is read is a
    root, placed after the trees of the headers before it. *)
Theorem extract_headers_forest (markdown_text : str) :
  Forall (fun line => scan_line line <> Raises)
         (split nl (markdown markdown_text)) ->
  exists its forest,
    header_items (split nl (markdown markdown_text)) = Some its
    /\ (forall marks,
          Forall2 reads_as (split nl (markdown markdown_text)) marks ->
          its = omap id marks)
    /\ extract_headers markdown_text = Some forest
    /\ forallb children_deeper forest = true
    /\ preorder_forest forest = its
    /\ forall pre x post,
         its = pre ++ x :: post ->
         Forall (fun l => (fst x <= l)%Z) (open_levels pre) ->
         root_after pre x forest.
Proof.
  intros [its Hits]%header_items_total.
  exists its, (z_forest (z_run its)).
  unfold extract_headers. rewrite extract_headers_in_eq, Hits.
  split_and!; [done| |done| | |].
  - intros marks Hmarks%header_items_reads. congruence.
  - apply z_ok_forest, z_run_ok.
  - apply z_run_preorder.
  - intros pre x post -> Hall. by apply z_run_root.
Qed.

End WithPlatform.

(** X14, witness: an h3 before any h1, then nested and sibling
    headers. *)
Lemma extract_headers_forest_witness :
  let text := lines_lit ["<h3>c</h3>"; "<h1>a</h1>"; "<p>x</p>"; "<h2>b</h2>";
                         "<h3>d</h3>"; "<h2>e</h2>"; "<h1>f</h1>"] in
  let forest :=
    [Node 3 (lit "c") None;
     Node 1 (lit "a")
       (Some [Node 2 (lit "b") (Some [Node 3 (lit "d") None]);
              Node 2 (lit "e") None]);
     Node 1 (lit "f") None] in
  Forall (fun line => @scan_line raw_html line <> Raises)
         (split nl (@markdown raw_html text))
  /\ @extract_headers raw_html text = Some forest
  /\ forallb children_deeper forest = true
  /\ preorder_forest forest
     = [(3%Z, lit "c"); (1%Z, lit "a"); (2%Z, lit "b"); (3%Z, lit "d");
        (2%Z, lit "e"); (1%Z, lit "f")]
  /\ root_after [] (3%Z, lit "c") forest.
Proof.
  intros text forest.
  assert (Hlines : split nl (@markdown raw_html text)
                   = map lit ["<h3>c</h3>"; "<h1>a</h1>"; "<p>x</p>"; "<h2>b</h2>";
                              "<h3>d</h3>"; "<h2>e</h2>"; "<h1>f</h1>"])
    by reflexivity.
  assert (Hok : Forall (fun line => @scan_line raw_html line <> Raises)
                       (split nl (@markdown raw_html text))).
  { rewrite Hlines. repeat constructor; by vm_compute. }
  assert (Hforest : @extract_headers raw_html text = Some forest) by reflexivity.
  split; [exact Hok|]. split; [exact Hforest|].
  destruct (@extract_headers_forest raw_html text Hok)
    as (its & forest' & Hits & _ & Hf & Hdeep & Hpre & Hroot).
  rewrite Hforest in Hf. injection Hf as <-.
  split; [exact Hdeep|]. split; [reflexivity|].
  apply (Hroot [] (3%Z, lit "c") (preorder_forest (tail forest))).
  - rewrite <- Hpre. reflexivity.
  - constructor.
Defined.
